(** * workout-sync-notion: the duplicate resolver and the Garmin session manager

    A shallow embedding of [cleanup-duplicates.py] and
    [garmin_session_auth.py].  Python [str] values are Rocq strings (their
    UTF-8 bytes: byte-wise lexicographic order is code-point order, which is
    what [str.__lt__] compares), [bytes] values are [list byte].  The
    remote services, the terminal and the file system are the effects of a
    small state-and-exception monad; what a remote call answers is given by
    an oracle record, and every such call is recorded in a trace. *)

From Stdlib Require Import List String Ascii Bool Arith ZArith Lia.
From Stdlib Require Import Permutation Sorted DecimalString.
From Stdlib.Strings Require Import Byte.
Import ListNotations.
Local Open Scope list_scope.
Local Open Scope string_scope.

Set Implicit Arguments.

(** ** Python built-ins used by both scripts *)

Module Py.

(** The newline character of ["\n"]. *)
Definition nl : string := String (ascii_of_nat 10) "".

(** [str(n)] for a non-negative [int]. *)
Definition str_of_nat (n : nat) : string :=
  NilZero.string_of_uint (Nat.to_uint n).

(** Truth value of an optional string: [None] and [""] are falsy. *)
Definition truthy (s : option string) : bool :=
  match s with
  | None => false
  | Some s' => negb (String.eqb s' "")
  end.

(** [a or b] on optional strings. *)
Definition or_else (a b : option string) : option string :=
  if truthy a then a else b.

(** [s.split(sep)[0]] for a one-character separator: the text before the
    first occurrence of [sep], or all of [s]. *)
Fixpoint split_head (sep : ascii) (s : string) : string :=
  match s with
  | EmptyString => EmptyString
  | String c r => if Ascii.eqb c sep then EmptyString else String c (split_head sep r)
  end.

(** [x in xs] on a list of strings. *)
Definition str_in (x : string) (xs : list string) : bool :=
  existsb (String.eqb x) xs.

(** *** [str.strip] and [str.lower]

    Length in bytes of the white-space character at the head of a UTF-8
    string, 0 when there is none.  White space is what [str.isspace]
    accepts: U+0009..U+000D, U+001C..U+0020, U+0085, U+00A0, U+1680,
    U+2000..U+200A, U+2028, U+2029, U+202F, U+205F, U+3000. *)
Definition byte_in (lo hi : nat) (c : ascii) : bool :=
  Nat.leb lo (nat_of_ascii c) && Nat.leb (nat_of_ascii c) hi.

Definition ws_head (s : string) : nat :=
  match s with
  | String c r =>
      if byte_in 9 13 c || byte_in 28 32 c then 1
      else match r with
           | String d r' =>
               if byte_in 194 194 c && (byte_in 133 133 d || byte_in 160 160 d) then 2
               else match r' with
                    | String e _ =>
                        if byte_in 225 225 c && byte_in 154 154 d && byte_in 128 128 e then 3
                        else if byte_in 226 226 c && byte_in 128 128 d
                                && (byte_in 128 138 e || byte_in 168 169 e || byte_in 175 175 e)
                             then 3
                        else if byte_in 226 226 c && byte_in 129 129 d && byte_in 159 159 e then 3
                        else if byte_in 227 227 c && byte_in 128 128 d && byte_in 128 128 e then 3
                        else 0
                    | EmptyString => 0
                    end
           | EmptyString => 0
           end
  | EmptyString => 0
  end.

Fixpoint drop (n : nat) (s : string) : string :=
  match n, s with
  | S n', String _ r => drop n' r
  | _, _ => s
  end.

(** [s.lstrip()]; the recursion is bounded by the length of [s]. *)
Fixpoint lstrip_upto (fuel : nat) (s : string) : string :=
  match fuel with
  | O => s
  | S fuel' =>
      match ws_head s with
      | O => s
      | k => lstrip_upto fuel' (drop k s)
      end
  end.

Definition lstrip (s : string) : string := lstrip_upto (String.length s) s.

(** Length in bytes of the white-space character that ends at the head of
    the reversed string (UTF-8 is self-synchronising, so the reversed
    patterns identify the same characters). *)
Definition ws_last (s : string) : nat :=
  match s with
  | String e r =>
      if byte_in 9 13 e || byte_in 28 32 e then 1
      else match r with
           | String d r' =>
               if byte_in 194 194 d && (byte_in 133 133 e || byte_in 160 160 e) then 2
               else match r' with
                    | String c _ =>
                        if byte_in 225 225 c && byte_in 154 154 d && byte_in 128 128 e then 3
                        else if byte_in 226 226 c && byte_in 128 128 d
                                && (byte_in 128 138 e || byte_in 168 169 e || byte_in 175 175 e)
                             then 3
                        else if byte_in 226 226 c && byte_in 129 129 d && byte_in 159 159 e then 3
                        else if byte_in 227 227 c && byte_in 128 128 d && byte_in 128 128 e then 3
                        else 0
                    | EmptyString => 0
                    end
           | EmptyString => 0
           end
  | EmptyString => 0
  end.

Fixpoint rstrip_rev (fuel : nat) (s : string) : string :=
  match fuel with
  | O => s
  | S fuel' =>
      match ws_last s with
      | O => s
      | k => rstrip_rev fuel' (drop k s)
      end
  end.

Fixpoint rev_onto (s acc : string) : string :=
  match s with
  | EmptyString => acc
  | String c r => rev_onto r (String c acc)
  end.

Definition rev (s : string) : string := rev_onto s EmptyString.

Definition rstrip (s : string) : string :=
  rev (rstrip_rev (String.length s) (rev s)).

Definition strip (s : string) : string := rstrip (lstrip s).

(** [str.lower], exact on ASCII letters.  Bytes of non-ASCII characters
    are kept: no non-ASCII character lower-cases to one of [y], [e],
    [s], so the membership tests of the script come out as in Python. *)
Definition lower_char (c : ascii) : ascii :=
  if byte_in 65 90 c then ascii_of_nat (nat_of_ascii c + 32) else c.

Fixpoint lower (s : string) : string :=
  match s with
  | EmptyString => EmptyString
  | String c r => String (lower_char c) (lower r)
  end.

(** *** [list.sort(key=...)] with string keys

    The sort is stable; insertion from the right end builds the one
    stable ordering: an element moves behind exactly the elements of the
    sorted rest whose key is strictly smaller. *)
Section Sort.
Variable A : Type.
Variable key : A -> string.

Fixpoint insert_sorted (x : A) (l : list A) : list A :=
    match l with
    | [] => [x]
    | y :: l' =>
        if String.ltb (key y) (key x) then y :: insert_sorted x l' else x :: l
    end.

Definition sort_by : list A -> list A := fold_right insert_sorted [].

(** The element the sort puts first: the first of the elements whose key is
    least. *)
Fixpoint first_least (x : A) (l : list A) : A :=
  match l with
  | [] => x
  | y :: l' =>
      let m := first_least y l' in
      if String.ltb (key m) (key x) then m else x
  end.
End Sort.

End Py.

(** ** Outcomes and the effect monad *)

(** A raised exception that is an instance of [Exception]: its class name
    and [str(e)].  What is raised outside [Exception] ([KeyboardInterrupt],
    [SystemExit]) comes from the user or the interpreter, not from the
    operations modelled here, and is not part of the model: a run is one
    that is not interrupted. *)
Record exn := mkExn { exn_class : string; exn_msg : string }.

(** What running a piece of code gives: a value, a raised exception, or no
    answer within the fuel of a loop the code does not bound. *)
Inductive outcome (A : Type) : Type :=
| Ret (a : A)
| Raise (e : exn)
| Diverge.
Arguments Ret {A} a.
Arguments Raise {A} e.
Arguments Diverge {A}.

Section Monad.
Variable W : Type.

Definition M (A : Type) : Type := W -> outcome A * W.

Definition ret {A} (a : A) : M A := fun w => (Ret a, w).

Definition raise {A} (e : exn) : M A := fun w => (Raise e, w).

Definition bind {A B} (m : M A) (k : A -> M B) : M B :=
  fun w =>
    match m w with
    | (Ret a, w') => k a w'
    | (Raise e, w') => (Raise e, w')
    | (Diverge, w') => (Diverge, w')
    end.

(** [try: m / except Exception as e: h e]; every [exn] is an instance of
    [Exception], so each one is handled. *)
Definition try_except {A} (m : M A) (h : exn -> M A) : M A :=
  fun w =>
    match m w with
    | (Raise e, w') => h e w'
    | r => r
    end.

Definition get : M W := fun w => (Ret w, w).
Definition modify (f : W -> W) : M unit := fun w => (Ret tt, f w).
End Monad.

Arguments ret {W A} a.
Arguments raise {W A} e.
Arguments bind {W A B} m k.
Arguments try_except {W A} m h.
Arguments get {W}.
Arguments modify {W} f.

Declare Scope monad_scope.
Delimit Scope monad_scope with monad.
Notation "x <- m ;; k" := (bind m (fun x => k))
  (at level 61, m at next level, right associativity) : monad_scope.
Notation "m ;;; k" := (bind m (fun _ => k))
  (at level 61, right associativity) : monad_scope.
Local Open Scope monad_scope.


(** ** cleanup-duplicates.py *)

Module CleanupDuplicates.

(** *** The Notion side: pages, responses, the client *)

(** A property of a page as the chain of [.get(key, default)] calls of the
    script sees it: a string, nothing (some key of the chain is missing, so
    the default is used), or a shape on which the chain raises (a [null]
    where a dict is expected, an empty title list). *)
Inductive field : Type :=
| Value (s : string)
| Missing
| Malformed (e : exn).

(** One element of [response["results"]]. *)
Record page := mkPage {
  page_id : string;
  prop_date_start : field;
  prop_activity_type : field;
  prop_activity_name : field;
  page_created_time : option string;
  page_last_edited_time : option string
}.

(** What [client.databases.query] returns; [has_more] is already
    [response.get("has_more", False)] and [next_cursor] is
    [response.get("next_cursor")]. *)
Record response := mkResponse {
  results : list page;
  has_more : bool;
  next_cursor : option string
}.

(** The Notion client.  Each call is answered from the number of calls made
    before it and its arguments, so a server may answer the same request
    differently over time; a call either returns or raises. *)
Record client := mkClient {
  databases_query : nat -> string -> option string -> exn + response;
  pages_update : nat -> string -> option exn
}.

(** *** The world of the script *)

Inductive event : Type :=
| Print (line : string)
| Prompt (text : string)
| Read (line : string)
| Query (database_id : string) (start_cursor : option string)
| Archive (page : string).

Record world := mkWorld {
  stdin : list string;
  trace : list event
}.

Definition is_call (e : event) : bool :=
  match e with
  | Query _ _ | Archive _ => true
  | _ => false
  end.

Definition ncalls (t : list event) : nat := List.length (filter is_call t).

Definition emit (e : event) : M world unit :=
  modify (fun w => mkWorld (stdin w) (trace w ++ [e])%list).

Definition print (line : string) : M world unit := emit (Print line).

(** [input(prompt)]: writes the prompt, reads one line, [EOFError] at the
    end of the input (an interrupt at the prompt is outside the model). *)
Definition input (prompt : string) : M world string :=
  fun w =>
    match stdin w with
    | [] => (Raise (mkExn "EOFError" "EOF when reading a line"),
             mkWorld [] (trace w ++ [Prompt prompt])%list)
    | line :: rest => (Ret line, mkWorld rest (trace w ++ [Prompt prompt; Read line])%list)
    end.

Definition query (c : client) (database_id : string) (start_cursor : option string)
  : M world response :=
  fun w =>
    let w' := mkWorld (stdin w) (trace w ++ [Query database_id start_cursor])%list in
    match databases_query c (ncalls (trace w)) database_id start_cursor with
    | inl e => (Raise e, w')
    | inr r => (Ret r, w')
    end.

(** [client.pages.update(page_id=..., archived=True)]. *)
Definition archive (c : client) (page : string) : M world unit :=
  fun w =>
    let w' := mkWorld (stdin w) (trace w ++ [Archive page])%list in
    match pages_update c (ncalls (trace w)) page with
    | Some e => (Raise e, w')
    | None => (Ret tt, w')
    end.

(** *** Activities *)

(** The [activity_info] dict. *)
Record activity_info := mkActivity {
  id : string;
  date : string;
  activity_type : string;
  activity_name : string;
  unique_key : string;
  created_time : string;
  last_edited_time : string
}.

(** A dict on the heap: the lists of the script hold references, and the
    same dict sits in [all_activities] and in its bucket.  The reference is
    the allocation index, the number of [activity_info] dicts built before
    this one. *)
Definition object : Type := nat * activity_info.

Definition ref (o : object) : nat := fst o.
Definition info (o : object) : activity_info := snd o.

(** [duplicates_map]: a [defaultdict(list)], which keeps its keys in
    insertion order. *)
Definition dmap : Type := list (string * list object).

(** [duplicates_map[k].append(o)]. *)
Fixpoint dmap_append (k : string) (o : object) (m : dmap) : dmap :=
  match m with
  | [] => [(k, [o])]
  | (k', l) :: m' =>
      if String.eqb k' k then (k', (l ++ [o])%list) :: m' else (k', l) :: dmap_append k o m'
  end.

Definition read_field (f : field) (default : string) : M world string :=
  match f with
  | Value s => ret s
  | Missing => ret default
  | Malformed e => raise e
  end.

Definition or_default (s : option string) (default : string) : string :=
  match s with
  | Some s' => s'
  | None => default
  end.

(** Lines 31-55: the body of the [for result in ...] loop up to the dict. *)
Definition activity_of (result : page) : M world activity_info :=
  start <- read_field (prop_date_start result) "" ;;
  let date := Py.split_head "T"%char start in
  activity_type <- read_field (prop_activity_type result) "" ;;
  activity_name <- read_field (prop_activity_name result) "" ;;
  let unique_key := date ++ "|" ++ activity_type ++ "|" ++ activity_name in
  ret (mkActivity (page_id result) date activity_type activity_name unique_key
         (or_default (page_created_time result) "")
         (or_default (page_last_edited_time result) "")).

(** [all_activities] and [duplicates_map] while the pages come in. *)
Definition fetched : Type := list object * dmap.

Fixpoint for_results (rs : list page) (st : fetched) : M world fetched :=
  match rs with
  | [] => ret st
  | result :: rs' =>
      activity <- activity_of result ;;
      let o : object := (List.length (fst st), activity) in
      for_results rs' ((fst st ++ [o])%list, dmap_append (unique_key activity) o (snd st))
  end.

(** The [while has_more] loop; [fuel] bounds the number of pages asked for. *)
Fixpoint while_has_more (fuel : nat) (c : client) (database_id : string)
    (start_cursor : option string) (st : fetched) : M world fetched :=
  match fuel with
  | O => fun w => (Diverge, w)
  | S fuel' =>
      resp <- query c database_id (if Py.truthy start_cursor then start_cursor else None) ;;
      st' <- for_results (results resp) st ;;
      if has_more resp
      then while_has_more fuel' c database_id (next_cursor resp) st'
      else ret st'
  end.

Definition get_all_activities_with_duplicates (fuel : nat) (c : client)
    (database_id : string) : M world fetched :=
  print "Fetching all activities from Notion..." ;;;
  st <- while_has_more fuel c database_id None ([], []) ;;
  print ("Found " ++ Py.str_of_nat (List.length (fst st)) ++ " total activities") ;;;
  ret st.

(** *** identify_duplicates *)

Record counters := mkCounters {
  duplicates : list object;
  duplicate_groups : nat;
  total_duplicate_count : nat
}.

Definition created (o : object) : string := created_time (info o).

Fixpoint print_removals (dups : list object) : M world unit :=
  match dups with
  | [] => ret tt
  | dup :: rest =>
      print ("  Will remove: " ++ id (info dup) ++ " (created: " ++ created dup ++ ")") ;;;
      print_removals rest
  end.

(** The body of [for unique_key, activities in duplicates_map.items()].
    The bucket is sorted in place; nothing reads the map afterwards, so
    only the sorted list is kept here. *)
Definition group_body (key : string) (activities : list object) (st : counters)
  : M world counters :=
  if Nat.ltb 1 (List.length activities) then
    let groups := S (duplicate_groups st) in
    let total := total_duplicate_count st + List.length activities in
    let sorted := Py.sort_by created activities in
    let duplicates_to_remove := tl sorted in
    print (Py.nl ++ "Duplicate group " ++ Py.str_of_nat groups ++ ":") ;;;
    print ("  Key: " ++ key) ;;;
    print ("  Found " ++ Py.str_of_nat (List.length sorted) ++ " copies") ;;;
    match sorted with
    | [] => raise (mkExn "IndexError" "list index out of range")
    | first :: _ =>
        print ("  Keeping: " ++ id (info first) ++ " (created: " ++ created first ++ ")") ;;;
        print_removals duplicates_to_remove ;;;
        ret (mkCounters (duplicates st ++ duplicates_to_remove)%list groups total)
    end
  else ret st.

Fixpoint for_groups (m : dmap) (st : counters) : M world counters :=
  match m with
  | [] => ret st
  | (key, activities) :: m' =>
      st' <- group_body key activities st ;;
      for_groups m' st'
  end.

Definition identify_duplicates (duplicates_map : dmap) : M world (list object) :=
  st <- for_groups duplicates_map (mkCounters [] 0 0) ;;
  print (Py.nl ++ "Summary:") ;;;
  print ("  Total duplicate groups: " ++ Py.str_of_nat (duplicate_groups st)) ;;;
  print ("  Total activities in duplicate groups: "
           ++ Py.str_of_nat (total_duplicate_count st)) ;;;
  print ("  Activities to be removed: " ++ Py.str_of_nat (List.length (duplicates st))) ;;;
  ret (duplicates st).

(** *** remove_duplicates *)

Definition progress (i total : nat) : string :=
  "  [" ++ Py.str_of_nat i ++ "/" ++ Py.str_of_nat total ++ "] ".

(** [for i, duplicate in enumerate(duplicates, 1)], with [removed_count]
    threaded through. *)
Fixpoint for_duplicates (c : client) (total i : nat) (dups : list object)
    (removed_count : nat) : M world nat :=
  match dups with
  | [] => ret removed_count
  | duplicate :: rest =>
      n <- try_except
             (archive c (id (info duplicate)) ;;;
              print (progress i total ++ "Archived: " ++ activity_name (info duplicate)
                       ++ " on " ++ date (info duplicate)) ;;;
              ret (S removed_count))
             (fun e =>
                print (progress i total ++ "Error removing " ++ id (info duplicate)
                         ++ ": " ++ exn_msg e) ;;;
                ret removed_count) ;;
      for_duplicates c total (S i) rest n
  end.

Definition completed (removed_count total : nat) : string :=
  Py.nl ++ "Completed! Successfully archived " ++ Py.str_of_nat removed_count
    ++ "/" ++ Py.str_of_nat total ++ " duplicates".

Definition remove_duplicates (c : client) (dups : list object) : M world unit :=
  match dups with
  | [] => print "No duplicates to remove!"
  | _ :: _ =>
      print (Py.nl ++ "Starting removal of " ++ Py.str_of_nat (List.length dups)
               ++ " duplicate activities...") ;;;
      removed_count <- for_duplicates c (List.length dups) 1 dups 0 ;;
      print (completed removed_count (List.length dups))
  end.

(** *** main *)

(** [answer.strip().lower() in ["yes", "y"]]. *)
Definition affirmative (answer : string) : bool :=
  Py.str_in (Py.lower (Py.strip answer)) ["yes"; "y"].

(** Lines 154-176 of [main]: the body of its [try] statement. *)
Definition main_try (fuel : nat) (c : client) (database_id : string) : M world unit :=
  st <- get_all_activities_with_duplicates fuel c database_id ;;
  duplicates_to_remove <- identify_duplicates (snd st) ;;
  match duplicates_to_remove with
  | [] => print (Py.nl ++ "✅ No duplicates found! Your database is clean.")
  | _ :: _ =>
      print (Py.nl ++ "Found " ++ Py.str_of_nat (List.length duplicates_to_remove)
               ++ " duplicate activities to remove.") ;;;
      final_confirm <- input "Proceed with removal? (yes/no): " ;;
      if negb (affirmative final_confirm) then print "Cleanup cancelled."
      else
        remove_duplicates c duplicates_to_remove ;;;
        print (Py.nl ++ "✅ Duplicate cleanup completed successfully!") ;;;
        print "Note: Duplicates were archived (not permanently deleted)."
  end.

(** Lines 178-180: its [except Exception as e] clause. *)
Definition main_except (e : exn) : M world unit :=
  print (Py.nl ++ "❌ Error during cleanup: " ++ exn_msg e) ;;;
  print "Please check your Notion token and database ID.".

(** [main()], given what [os.getenv] returns for the two variables, the
    constructor [Client(auth=...)] and the fuel of the fetch loop. *)
Definition main (fuel : nat) (notion_token database_id : option string)
    (Client : string -> client) : M world unit :=
  match notion_token, database_id with
  | Some token, Some db =>
      if Py.truthy notion_token && Py.truthy database_id then
        let c := Client token in
        print "=== Notion Activities Duplicate Cleanup ===" ;;;
        print "This script will identify and remove duplicate activities." ;;;
        print "Duplicates are identified by: Date + Activity Type + Activity Name" ;;;
        print ("The oldest entry (by creation time) will be kept." ++ Py.nl) ;;;
        confirm <- input "Do you want to proceed? (yes/no): " ;;
        if negb (affirmative confirm) then print "Cleanup cancelled."
        else try_except (main_try fuel c db) main_except
      else print "Error: Missing NOTION_TOKEN or NOTION_DB_ID environment variables"
  | _, _ => print "Error: Missing NOTION_TOKEN or NOTION_DB_ID environment variables"
  end.

End CleanupDuplicates.


(** ** base64.b64encode and base64.b64decode

    The two standard-library functions [garmin_session_auth.py] calls, at
    the level of bits: a byte is its eight bits ([Byte.to_bits], least
    significant first), a base-64 digit is six bits, most significant
    first. *)

Module Base64.

Definition sextet : Type := (bool * bool * bool * bool * bool * bool)%type.

Definition alphabet : string :=
  "ABCDEFGHIJKLMNOPQRSTUVWXYZabcdefghijklmnopqrstuvwxyz0123456789+/".

Definition pad : ascii := "="%char.

Definition bit (b : bool) (weight : nat) : nat := if b then weight else 0.

Definition sextet_index (s : sextet) : nat :=
  let '(b5, b4, b3, b2, b1, b0) := s in
  bit b5 32 + bit b4 16 + bit b3 8 + bit b2 4 + bit b1 2 + bit b0 1.

Definition sextet_of_index (n : nat) : sextet :=
  (Nat.testbit n 5, Nat.testbit n 4, Nat.testbit n 3,
   Nat.testbit n 2, Nat.testbit n 1, Nat.testbit n 0).

Definition digit (s : sextet) : ascii :=
  match String.get (sextet_index s) alphabet with
  | Some c => c
  | None => pad
  end.

(** Position of a character in the alphabet ([table_a2b_base64]). *)
Fixpoint position (c : ascii) (s : string) (i : nat) : option nat :=
  match s with
  | EmptyString => None
  | String d r => if Ascii.eqb c d then Some i else position c r (S i)
  end.

Definition undigit (c : ascii) : option sextet :=
  option_map sextet_of_index (position c alphabet 0).

(** The byte with bits [b7 .. b0], most significant first. *)
Definition byte_of (b7 b6 b5 b4 b3 b2 b1 b0 : bool) : byte :=
  Byte.of_bits (b0, (b1, (b2, (b3, (b4, (b5, (b6, b7))))))).

(** [binascii.b2a_base64] without the newline: three bytes give four
    digits; a last group of one or two bytes is filled with zero bits and
    padded with [=]. *)
Fixpoint b64encode (bs : list byte) : string :=
  match bs with
  | [] => EmptyString
  | [x] =>
      let '(x0, (x1, (x2, (x3, (x4, (x5, (x6, x7))))))) := Byte.to_bits x in
      String (digit (x7, x6, x5, x4, x3, x2))
        (String (digit (x1, x0, false, false, false, false))
           (String pad (String pad EmptyString)))
  | [x; y] =>
      let '(x0, (x1, (x2, (x3, (x4, (x5, (x6, x7))))))) := Byte.to_bits x in
      let '(y0, (y1, (y2, (y3, (y4, (y5, (y6, y7))))))) := Byte.to_bits y in
      String (digit (x7, x6, x5, x4, x3, x2))
        (String (digit (x1, x0, y7, y6, y5, y4))
           (String (digit (y3, y2, y1, y0, false, false))
              (String pad EmptyString)))
  | x :: y :: z :: rest =>
      let '(x0, (x1, (x2, (x3, (x4, (x5, (x6, x7))))))) := Byte.to_bits x in
      let '(y0, (y1, (y2, (y3, (y4, (y5, (y6, y7))))))) := Byte.to_bits y in
      let '(z0, (z1, (z2, (z3, (z4, (z5, (z6, z7))))))) := Byte.to_bits z in
      String (digit (x7, x6, x5, x4, x3, x2))
        (String (digit (x1, x0, y7, y6, y5, y4))
           (String (digit (y3, y2, y1, y0, z7, z6))
              (String (digit (z5, z4, z3, z2, z1, z0))
                 (b64encode rest))))
  end.

(** Where the decoder stands inside a group of four digits, with the bits
    of the group not yet written out ([quad_pos] and [leftchar]). *)
Inductive quad : Type :=
| Q0
| Q1 (l : sextet)
| Q2 (l3 l2 l1 l0 : bool)
| Q3 (l1 l0 : bool).

Definition quad_pos (q : quad) : nat :=
  match q with
  | Q0 => 0
  | Q1 _ => 1
  | Q2 _ _ _ _ => 2
  | Q3 _ _ => 3
  end.

Definition cons_byte (b : byte) (r : exn + list byte) : exn + list byte :=
  match r with
  | inl e => inl e
  | inr bs => inr (b :: bs)
  end.

(** The error of [a2b_base64] for a text that ends one digit into a
    group, after [written] bytes were written out: the message gives the
    number of digits read, [written / 3 * 4 + 1]. *)
Definition lone_digit_error (written : nat) : exn :=
  mkExn "binascii.Error"
    ("Invalid base64-encoded string: number of data characters ("
       ++ Py.str_of_nat (written / 3 * 4 + 1)
       ++ ") cannot be 1 more than a multiple of 4").

(** [binascii.a2b_base64] with [strict_mode] off, which is how
    [b64decode] calls it: characters outside the alphabet are skipped, a
    pad that completes a group ends the decoding, and a group left
    incomplete at the end of the text is an error.  [written] counts the
    bytes written out so far. *)
Fixpoint a2b_base64 (q : quad) (pads written : nat) (s : string) : exn + list byte :=
  match s with
  | EmptyString =>
      match q with
      | Q0 => inr []
      | Q1 _ => inl (lone_digit_error written)
      | _ => inl (mkExn "binascii.Error" "Incorrect padding")
      end
  | String c r =>
      if Ascii.eqb c pad then
        if Nat.leb 2 (quad_pos q) && Nat.leb 4 (quad_pos q + S pads)
        then inr []
        else a2b_base64 q (if Nat.leb 2 (quad_pos q) then S pads else pads) written r
      else
        match undigit c with
        | None => a2b_base64 q pads written r
        | Some (c5, c4, c3, c2, c1, c0) =>
            match q with
            | Q0 => a2b_base64 (Q1 (c5, c4, c3, c2, c1, c0)) 0 written r
            | Q1 (l5, l4, l3, l2, l1, l0) =>
                cons_byte (byte_of l5 l4 l3 l2 l1 l0 c5 c4)
                  (a2b_base64 (Q2 c3 c2 c1 c0) 0 (S written) r)
            | Q2 l3 l2 l1 l0 =>
                cons_byte (byte_of l3 l2 l1 l0 c5 c4 c3 c2)
                  (a2b_base64 (Q3 c1 c0) 0 (S written) r)
            | Q3 l1 l0 =>
                cons_byte (byte_of l1 l0 c5 c4 c3 c2 c1 c0)
                  (a2b_base64 Q0 0 (S written) r)
            end
        end
  end.

Definition is_ascii_text (s : string) : bool :=
  forallb (fun c => Nat.ltb (nat_of_ascii c) 128) (list_ascii_of_string s).

(** [base64.b64decode(s)] on a [str]: the text must be ASCII. *)
Definition b64decode (s : string) : exn + list byte :=
  if is_ascii_text s then a2b_base64 Q0 0 0 s
  else inl (mkExn "ValueError" "string argument should contain only ASCII characters").

End Base64.


(** ** garmin_session_auth.py *)

Module GarminSessionAuth.

(** *** Time

    A naive [datetime] is its number of microseconds on the local time
    line and a [timedelta] a number of microseconds, so that subtraction
    and comparison are those of the integers, as in Python. *)
Definition datetime : Type := Z.
Definition timedelta : Type := Z.

Definition microseconds_per_day : Z := 86400000000.

(** [timedelta(days=d)]. *)
Definition timedelta_days (d : Z) : timedelta := (d * microseconds_per_day)%Z.

(** [td.days]: the whole days, rounded towards minus infinity. *)
Definition days (td : timedelta) : Z := (td / microseconds_per_day)%Z.

Definition str_of_int (z : Z) : string := NilZero.string_of_int (Z.to_int z).

(** *** Sessions, clients, files *)

(** The dict that is pickled into the session file. *)
Record session_data := mkSession {
  session : string;
  timestamp : datetime;
  email : option string
}.

(** A [Garmin] client, as far as the script can tell two of them apart: the
    credentials it was built with and the state of its [garth] token
    store (what [garth.dumps()] would serialise), if it has one. *)
Record Garmin := mkGarmin {
  credentials : option (string * string);
  garth : option string
}.

Record file := mkFile {
  contents : list byte;
  mode : Z
}.

Inductive event : Type :=
| Print (line : string)
| Login (email password : string)
| Probe (tokens : option string).

Definition is_call (e : event) : bool :=
  match e with
  | Print _ => false
  | _ => true
  end.

Definition ncalls (t : list event) : nat := List.length (filter is_call t).

(** Where a [with open(self.session_file, "wb") as f:] statement raises:
    at [open], before the file is touched, or while its body writes, when
    [open] has already emptied the file and [written] bytes got out. *)
Inductive write_fault : Type :=
| OnOpen (e : exn)
| OnWrite (e : exn) (written : nat).

(** What lies outside the script.  Remote calls are answered from the
    number of remote calls made before them and take [call_duration];
    [pickle_load] raises on bytes that are not the pickle of a session
    dict; [open_error] says whether and where the statement that opens
    the session file for writing and writes it raises, [chmod_error]
    whether changing its mode raises. *)
Record env := mkEnv {
  getenv : string -> option string;
  garmin_login : nat -> string -> string -> exn + string;
  get_full_name : nat -> option string -> exn + string;
  garth_loads : string -> option exn;
  garth_dumps : option string -> exn + string;
  pickle_dump : session_data -> list byte;
  pickle_load : list byte -> exn + session_data;
  open_error : option write_fault;
  chmod_error : option exn;
  new_file_mode : Z;
  call_duration : nat -> Z
}.

(** The [GarminSessionAuth] object together with the session file, the
    clock and what has happened so far. *)
Record state := mkState {
  self_email : option string;
  self_password : option string;
  self_session_file : string;
  self_garmin : option Garmin;
  session_file : option file;
  clock : datetime;
  trace : list event
}.

Definition emit (e : event) : M state unit :=
  modify (fun s => mkState (self_email s) (self_password s) (self_session_file s)
                     (self_garmin s) (session_file s) (clock s) (trace s ++ [e])%list).

Definition print (line : string) : M state unit := emit (Print line).

Definition set_garmin (g : Garmin) : M state unit :=
  modify (fun s => mkState (self_email s) (self_password s) (self_session_file s)
                     (Some g) (session_file s) (clock s) (trace s)).

Definition set_file (f : file) : M state unit :=
  modify (fun s => mkState (self_email s) (self_password s) (self_session_file s)
                     (self_garmin s) (Some f) (clock s) (trace s)).

Definition lift {A} (r : exn + A) : M state A :=
  match r with
  | inl e => raise e
  | inr a => ret a
  end.

Definition fail_if (e : option exn) : M state unit :=
  match e with
  | Some e' => raise e'
  | None => ret tt
  end.

(** [try: m / except cls: h]: only exceptions of class [cls] are handled. *)
Definition try_except_class {A} (cls : string) (m : M state A) (h : exn -> M state A)
  : M state A :=
  try_except m (fun e => if String.eqb (exn_class e) cls then h e else raise e).

Section WithEnv.
Variable E : env.

(** A remote call: recorded, answered by the oracle, and the time it took
    added to the clock. *)
Definition remote {A} (e : event) (answer : nat -> exn + A) : M state A :=
  fun s =>
    let n := ncalls (trace s) in
    let s' := mkState (self_email s) (self_password s) (self_session_file s)
                (self_garmin s) (session_file s) (clock s + call_duration E n)%Z
                (trace s ++ [e])%list in
    match answer n with
    | inl e => (Raise e, s')
    | inr a => (Ret a, s')
    end.

(** [datetime.now()]. *)
Definition datetime_now : M state datetime := fun s => (Ret (clock s), s).

(** [open(self.session_file, "rb").read()]. *)
Definition read_session_file : M state (list byte) :=
  fun s =>
    match session_file s with
    | Some f => (Ret (contents f), s)
    | None => (Raise (mkExn "FileNotFoundError" "No such file or directory"), s)
    end.

(** [with open(self.session_file, "wb") as f: f.write(data)], and the
    same with [pickle.dump(session_data, f)] for [data] the pickle:
    opening creates or empties the file and keeps the mode of an existing
    one, and then the bytes are written; when writing raises, the file
    holds the bytes that got out. *)
Definition write_session_file (data : list byte) : M state unit :=
  s <- get ;;
  let opened := match session_file s with
                | Some f => mode f
                | None => new_file_mode E
                end in
  match open_error E with
  | Some (OnOpen e) => raise e
  | Some (OnWrite e written) => set_file (mkFile (firstn written data) opened) ;;; raise e
  | None => set_file (mkFile data opened)
  end.

(** [os.chmod(self.session_file, m)]. *)
Definition chmod (m : Z) : M state unit :=
  fail_if (chmod_error E) ;;;
  s <- get ;;
  match session_file s with
  | Some f => set_file (mkFile (contents f) m)
  | None => raise (mkExn "FileNotFoundError" "No such file or directory")
  end.

(** [0o600]. *)
Definition owner_read_write : Z := 384.

(** [GarminSessionAuth(email, password, session_dir)], on a world with
    the given session file, clock and history.  The name of the session
    file is printed by [pathlib] as the directory, a separator and
    [session.pkl] (for a directory name in normal form, as the default
    [.garmin_session] is). *)
Definition init (email password : option string) (session_dir : string)
    (f : option file) (now : datetime) (history : list event) : state :=
  mkState (Py.or_else email (getenv E "GARMIN_EMAIL"))
          (Py.or_else password (getenv E "GARMIN_PASSWORD"))
          (session_dir ++ "/session.pkl")
          None f now history.

(** [_save_session]. *)
Definition _save_session : M state unit :=
  try_except
    (s <- get ;;
     blob <- lift (garth_dumps E (match self_garmin s with
                                  | Some g => garth g
                                  | None => None
                                  end)) ;;
     now <- datetime_now ;;
     let session_data := mkSession blob now (self_email s) in
     write_session_file (pickle_dump E session_data) ;;;
     chmod owner_read_write ;;;
     print ("Session saved to " ++ self_session_file s))
    (fun e => print ("Warning: Could not save session: " ++ exn_msg e)).

(** [_fresh_login]. *)
Definition _fresh_login : M state Garmin :=
  s <- get ;;
  match self_email s, self_password s with
  | Some email, Some password =>
      if Py.truthy (self_email s) && Py.truthy (self_password s) then
        print "Performing fresh login..." ;;;
        set_garmin (mkGarmin (Some (email, password)) None) ;;;
        tokens <- remote (Login email password) (fun n => garmin_login E n email password) ;;
        set_garmin (mkGarmin (Some (email, password)) (Some tokens)) ;;;
        _save_session ;;;
        ret (mkGarmin (Some (email, password)) (Some tokens))
      else raise (mkExn "ValueError" "Email and password required for fresh login")
  | _, _ => raise (mkExn "ValueError" "Email and password required for fresh login")
  end.

(** [session_age > timedelta(days=360)]. *)
Definition too_old (session_age : timedelta) : bool :=
  Z.ltb (timedelta_days 360) session_age.

(** [_login_with_session]. *)
Definition _login_with_session : M state Garmin :=
  print "Loading existing session..." ;;;
  data <- read_session_file ;;
  session_data <- lift (pickle_load E data) ;;
  now <- datetime_now ;;
  let session_age := (now - timestamp session_data)%Z in
  if too_old session_age then
    raise (mkExn "Exception"
             ("Session too old (" ++ str_of_int (days session_age) ++ " days)"))
  else
    set_garmin (mkGarmin None None) ;;;
    fail_if (garth_loads E (session session_data)) ;;;
    let garmin := mkGarmin None (Some (session session_data)) in
    set_garmin garmin ;;;
    try_except_class "GarminConnectAuthenticationError"
      (remote (Probe (garth garmin)) (fun n => get_full_name E n (garth garmin)) ;;;
       print ("Session valid (age: " ++ str_of_int (days session_age) ++ " days)") ;;;
       ret garmin)
      (fun _ => raise (mkExn "Exception" "Session expired or invalid")).

(** [login]. *)
Definition login (force_refresh : bool) : M state Garmin :=
  s <- get ;;
  match session_file s with
  | Some _ =>
      if negb force_refresh then
        try_except _login_with_session
          (fun e =>
             print ("Session login failed: " ++ exn_msg e) ;;;
             print "Attempting fresh login..." ;;;
             _fresh_login)
      else _fresh_login
  | None => _fresh_login
  end.

Fixpoint repeat_string (s : string) (n : nat) : string :=
  match n with
  | O => EmptyString
  | S n' => s ++ repeat_string s n'
  end.

(** [export_session_for_github]; [bytes.decode("utf-8")] changes nothing
    on the ASCII text [b64encode] returns. *)
Definition export_session_for_github : M state string :=
  s <- get ;;
  match session_file s with
  | None => raise (mkExn "Exception" "No session file exists. Login first.")
  | Some _ =>
      session_bytes <- read_session_file ;;
      let session_b64 := Base64.b64encode session_bytes in
      print (Py.nl ++ repeat_string "=" 60) ;;;
      print "SESSION DATA FOR GITHUB SECRET" ;;;
      print (repeat_string "=" 60) ;;;
      print (Py.nl ++ "Add this as a GitHub secret named 'GARMIN_SESSION':") ;;;
      print (Py.nl ++ session_b64) ;;;
      print (Py.nl ++ repeat_string "=" 60) ;;;
      ret session_b64
  end.

(** [import_session_from_github]. *)
Definition import_session_from_github (session_b64 : string) : M state unit :=
  session_bytes <- lift (Base64.b64decode session_b64) ;;
  write_session_file session_bytes ;;;
  chmod owner_read_write ;;;
  s <- get ;;
  print ("Session imported to " ++ self_session_file s).

(** [get_garmin_client], on a world with the given session file, clock and
    history. *)
Definition get_garmin_client (f : option file) (now : datetime) (history : list event)
  : outcome Garmin * state :=
  let github_session := getenv E "GARMIN_SESSION" in
  let auth := init None None ".garmin_session" f now history in
  match github_session with
  | Some text =>
      if Py.truthy github_session then
        (print "Using session from GitHub secret..." ;;;
         import_session_from_github text ;;;
         login false) auth
      else login false auth
  | None => login false auth
  end.

End WithEnv.

End GarminSessionAuth.


(** ** Notions the properties of the duplicate resolver are stated with *)

Module ResolverSpec.
Import CleanupDuplicates.

(** The composite key of a record. *)
Definition key_of (o : object) : string := unique_key (info o).

(** The key is the date, the activity type and the activity name, joined
    by bars. *)
Definition key_well_formed (o : object) : Prop :=
  unique_key (info o)
  = date (info o) ++ "|" ++ activity_type (info o) ++ "|" ++ activity_name (info o).

(** [o'] sorts strictly before [o]: it was created earlier, or at the same
    time and fetched earlier. *)
Definition sorts_before (all : list object) (o' o : object) : Prop :=
  String.ltb (created o') (created o) = true
  \/ (created o' = created o
      /\ exists j i, j < i /\ nth_error all j = Some o' /\ nth_error all i = Some o).

(** Some other fetched record has the key of [o] and sorts before it. *)
Definition superseded (all : list object) (o : object) : Prop :=
  exists o', In o' all /\ o' <> o /\ key_of o' = key_of o /\ sorts_before all o' o.

(** The record has the key [k]. *)
Definition has_key (k : string) (o : object) : bool := String.eqb (key_of o) k.

(** [kept] is the one record of the group of [o] that stays: it has the
    key of [o], is not in the remove list [rm], no record of the group was
    created before it, and every other record of the group is in [rm]. *)
Definition retained (all rm : list object) (o kept : object) : Prop :=
  In kept all /\ key_of kept = key_of o /\ ~ In kept rm
  /\ (forall o', In o' all -> key_of o' = key_of o ->
                 String.ltb (created o') (created kept) = false)
  /\ (forall o', In o' all -> key_of o' = key_of o -> o' = kept \/ In o' rm).

(** The key of [o] occurs once among the fetched records. *)
Definition unique_among (all : list object) (o : object) : Prop :=
  forall o', In o' all -> key_of o' = key_of o -> o' = o.

(** All that the remove list [rm] owes to the fetched records [all]. *)
Definition remove_list_correct (all rm : list object) : Prop :=
  (forall o, In o all -> (In o rm <-> superseded all o))
  /\ NoDup rm
  /\ incl rm all
  /\ (forall o, In o all -> exists kept, retained all rm o kept)
  /\ (forall o, In o all -> unique_among all o -> ~ In o rm)
  /\ Forall key_well_formed all.

(** How [rm] settles records of one group that were created at the same
    time: the later one fetched is removed, and the first one fetched of
    those created at a given time stays exactly when nothing in the group
    was created before that time. *)
Definition ties_settled (all rm : list object) : Prop :=
  (forall j i o' o,
      j < i -> nth_error all j = Some o' -> nth_error all i = Some o ->
      key_of o' = key_of o -> created o' = created o -> In o rm)
  /\ (forall j o',
        nth_error all j = Some o' ->
        (forall i o, i < j -> nth_error all i = Some o -> key_of o = key_of o' ->
                     created o <> created o') ->
        (~ In o' rm
         <-> forall o, In o all -> key_of o = key_of o' ->
                       String.ltb (created o) (created o') = false)).

(** The first bucket of a key in the map, empty when there is none. *)
Fixpoint bucket (k : string) (m : dmap) : list object :=
  match m with
  | [] => []
  | (k', l) :: m' => if String.eqb k' k then l else bucket k m'
  end.

(** The map the fetch loop has built once it has seen the records [all]. *)
Definition buckets (all : list object) : dmap :=
  fold_left (fun m o => dmap_append (key_of o) o m) all [].

(** What [identify_duplicates] returns, without its printing. *)
Definition removals (m : dmap) : list object :=
  flat_map (fun kv => if Nat.ltb 1 (List.length (snd kv))
                      then tl (Py.sort_by created (snd kv)) else []) m.

(** The records are numbered in the order in which they were fetched. *)
Definition numbered (all : list object) : Prop :=
  map ref all = seq 0 (List.length all).

Definition is_print (e : event) : bool :=
  match e with
  | Print _ => true
  | _ => false
  end.

Definition is_query (e : event) : bool :=
  match e with
  | Query _ _ => true
  | _ => false
  end.

Definition print_or_query (e : event) : bool := is_print e || is_query e.

Definition is_archive (e : event) : bool :=
  match e with
  | Archive _ => true
  | _ => false
  end.

Definition is_read (e : event) : bool :=
  match e with
  | Read _ => true
  | _ => false
  end.

(** What the fetch loop maintains: the records are numbered, bucketed by
    key, and every key is the joined triple. *)
Definition fetched_ok (st : fetched) : Prop :=
  numbered (fst st) /\ snd st = buckets (fst st) /\ Forall key_well_formed (fst st).

(** The world [w'] comes from [w] by events that all satisfy [p], without
    reading the terminal. *)
Definition emits (p : event -> bool) (w w' : world) : Prop :=
  stdin w' = stdin w
  /\ exists t, trace w' = (trace w ++ t)%list /\ forallb p t = true.

(** The page of a record. *)
Definition page_of_object (d : object) : string := id (info d).

(** Requests that succeed when the pages are archived one after the other,
    the first of them being remote call number [n]. *)
Fixpoint succeeded (c : client) (n : nat) (pages : list string) : nat :=
  match pages with
  | [] => 0
  | p :: rest =>
      (match pages_update c n p with None => 1 | Some _ => 0 end)
      + succeeded c (S n) rest
  end.

Definition print_or_archive (e : event) : bool := is_print e || is_archive e.

(** *** The order of answers and requests in a run of [main]

    Before the first answer nothing is requested; after an affirmative
    first answer pages may be queried; after an affirmative second answer
    pages may be archived; after an answer that is not affirmative the
    script only prints. *)
Inductive phase : Type :=
| Unasked
| Fetching
| Removing
| Declined.

Definition step (s : phase) (e : event) : option phase :=
  match e, s with
  | Print _, _ => Some s
  | Prompt _, _ => Some s
  | Read a, Unasked => Some (if affirmative a then Fetching else Declined)
  | Read a, Fetching => Some (if affirmative a then Removing else Declined)
  | Read _, _ => None
  | Query _ _, Fetching => Some Fetching
  | Query _ _, _ => None
  | Archive _, Removing => Some Removing
  | Archive _, _ => None
  end.

Fixpoint monitor (s : phase) (t : list event) : option phase :=
  match t with
  | [] => Some s
  | e :: t' =>
      match step s e with
      | Some s' => monitor s' t'
      | None => None
      end
  end.

(** The events [t] follow the order above and end in phase [s']. *)
Definition ordered (s : phase) (t : list event) (s' : phase) : Prop :=
  monitor s t = Some s'.

(** From world [w] in phase [s] to world [w'] in phase [s']. *)
Definition runs (s : phase) (w : world) (s' : phase) (w' : world) : Prop :=
  exists t, trace w' = (trace w ++ t)%list /\ ordered s t s'.

(** Nothing but printing and prompting. *)
Definition is_output (e : event) : bool :=
  match e with
  | Print _ | Prompt _ => true
  | _ => false
  end.

(** Both answers were given, in this order and affirmatively, before the
    first archive request: output only before the first answer, output and
    queries between the two, output and archive requests after the
    second. *)
Definition confirmed_twice (t : list event) : Prop :=
  exists a1 a2 t1 t2 t3,
    t = (t1 ++ Read a1 :: t2 ++ Read a2 :: t3)%list
    /\ affirmative a1 = true /\ affirmative a2 = true
    /\ forallb is_output t1 = true
    /\ forallb (fun e => is_output e || is_query e) t2 = true
    /\ forallb (fun e => is_output e || is_archive e) t3 = true.

(** The pages archive requests were issued for, in order. *)
Definition archived (t : list event) : list string :=
  flat_map (fun e => match e with Archive p => [p] | _ => [] end) t.

(** The answers read from the terminal, in order. *)
Definition answers (t : list event) : list string :=
  flat_map (fun e => match e with Read a => [a] | _ => [] end) t.

End ResolverSpec.


(** ** Concrete runs *)

Module Scenarios.
Import CleanupDuplicates ResolverSpec.

Definition page_of (page_id day kind name created : string) : page :=
  mkPage page_id (Value day) (Value kind) (Value name) (Some created) (Some created).

Definition start : world := mkWorld [] [].

(** Two morning runs on the same day, created one after the other, and an
    evening run on the next day, served in two pages. *)
Definition morning_1 : page :=
  page_of "p1" "2024-01-01" "Run" "Morning Run" "2024-01-01T08:00:00.000Z".
Definition morning_2 : page :=
  page_of "p2" "2024-01-01T07:30:00" "Run" "Morning Run" "2024-01-01T09:00:00.000Z".
Definition evening : page :=
  page_of "p3" "2024-01-02" "Run" "Evening Run" "2024-01-02T19:00:00.000Z".

Definition three_records : client :=
  mkClient
    (fun _ _ cursor =>
       match cursor with
       | None => inr (mkResponse [morning_1; morning_2] true (Some "next"))
       | Some _ => inr (mkResponse [evening] false None)
       end)
    (fun _ _ => None).

Definition three_fetched : fetched :=
  Eval vm_compute in
    match fst (get_all_activities_with_duplicates 2 three_records "db" start) with
    | Ret st => st
    | _ => ([], [])
    end.

Definition three_world : world :=
  Eval vm_compute in snd (get_all_activities_with_duplicates 2 three_records "db" start).

(** A whole run on these records, both questions answered with yes. *)
Definition three_answers : world := mkWorld [" Yes "; "y"] [].

Definition three_run : outcome unit * world :=
  Eval vm_compute in
    main 2 (Some "secret") (Some "db") (fun _ => three_records) three_answers.

(** Three records with one key: the oldest, then two created at the same
    later time. *)
Definition tie_a : page :=
  page_of "a" "2024-03-05" "Ride" "Commute" "2024-03-05T07:00:00.000Z".
Definition tie_b : page :=
  page_of "b" "2024-03-05" "Ride" "Commute" "2024-03-05T18:00:00.000Z".
Definition tie_c : page :=
  page_of "c" "2024-03-05" "Ride" "Commute" "2024-03-05T18:00:00.000Z".

Definition late_tie : client :=
  mkClient (fun _ _ _ => inr (mkResponse [tie_a; tie_b; tie_c] false None))
           (fun _ _ => None).

Definition tie_fetched : fetched :=
  Eval vm_compute in
    match fst (get_all_activities_with_duplicates 1 late_tie "db" start) with
    | Ret st => st
    | _ => ([], [])
    end.

Definition tie_world : world :=
  Eval vm_compute in snd (get_all_activities_with_duplicates 1 late_tie "db" start).

Definition object_b : object :=
  (1, mkActivity "b" "2024-03-05" "Ride" "Commute" "2024-03-05|Ride|Commute"
        "2024-03-05T18:00:00.000Z" "2024-03-05T18:00:00.000Z").

Definition object_c : object :=
  (2, mkActivity "c" "2024-03-05" "Ride" "Commute" "2024-03-05|Ride|Commute"
        "2024-03-05T18:00:00.000Z" "2024-03-05T18:00:00.000Z").

End Scenarios.


(** ** Notions the properties of the session manager are stated with *)

Module SessionSpec.
Import GarminSessionAuth.

(** The state [s] after the events [es], nothing else changed. *)
Definition logged (s : state) (es : list event) : state :=
  mkState (self_email s) (self_password s) (self_session_file s) (self_garmin s)
          (session_file s) (clock s) (trace s ++ es)%list.

Definition is_probe (e : event) : bool :=
  match e with
  | Probe _ => true
  | _ => false
  end.

Definition is_login (e : event) : bool :=
  match e with
  | Login _ _ => true
  | _ => false
  end.

(** No event of [es] is a liveness probe. *)
Definition no_probe (es : list event) : Prop :=
  forallb (fun e => negb (is_probe e)) es = true.

(** [session_age]: the time read from the clock minus the stored
    timestamp. *)
Definition session_age (s : state) (sd : session_data) : timedelta :=
  (clock s - timestamp sd)%Z.

Definition too_old_error (age : timedelta) : exn :=
  mkExn "Exception" ("Session too old (" ++ str_of_int (days age) ++ " days)").

Definition credentials_error : exn :=
  mkExn "ValueError" "Email and password required for fresh login".

Definition no_session_error : exn :=
  mkExn "Exception" "No session file exists. Login first.".

(** What [login] prints before it falls back to a fresh login when the
    session is too old. *)
Definition expired_lines (age : timedelta) : list event :=
  [Print "Loading existing session...";
   Print ("Session login failed: " ++ exn_msg (too_old_error age));
   Print "Attempting fresh login..."].

(** The client rebuilt from a stored session. *)
Definition restored (sd : session_data) : Garmin := mkGarmin None (Some (session sd)).

(** The state [s] with the session file [f], nothing else changed. *)
Definition with_file (s : state) (f : file) : state :=
  mkState (self_email s) (self_password s) (self_session_file s) (self_garmin s)
          (Some f) (clock s) (trace s).

(** The state [s] with the client [g]. *)
Definition with_garmin (s : state) (g : Garmin) : state :=
  mkState (self_email s) (self_password s) (self_session_file s) (Some g)
          (session_file s) (clock s) (trace s).

(** The state [s] after the remote call [e]. *)
Definition called (E : env) (s : state) (e : event) : state :=
  mkState (self_email s) (self_password s) (self_session_file s) (self_garmin s)
          (session_file s) (clock s + call_duration E (ncalls (trace s)))%Z
          (trace s ++ [e])%list.

(** The token store of the client of [s]. *)
Definition tokens_of (s : state) : option string :=
  match self_garmin s with
  | Some g => garth g
  | None => None
  end.

Definition save_warning (e : exn) : event :=
  Print ("Warning: Could not save session: " ++ exn_msg e).

(** The mode a file opened for writing has: its own if it exists. *)
Definition mode_when_opened (E : env) (s : state) : Z :=
  match session_file s with
  | Some f => mode f
  | None => new_file_mode E
  end.

(** The pickle [_save_session] writes in state [s] for the token text
    [blob]. *)
Definition pickled (E : env) (s : state) (blob : string) : list byte :=
  pickle_dump E (mkSession blob (clock s) (self_email s)).

(** The state [_save_session] leaves. *)
Definition saved (E : env) (s : state) : state :=
  match garth_dumps E (tokens_of s) with
  | inl e => logged s [save_warning e]
  | inr blob =>
      match open_error E with
      | Some (OnOpen e) => logged s [save_warning e]
      | Some (OnWrite e written) =>
          logged (with_file s (mkFile (firstn written (pickled E s blob))
                                 (mode_when_opened E s)))
            [save_warning e]
      | None =>
          match chmod_error E with
          | Some e =>
              logged (with_file s (mkFile (pickled E s blob) (mode_when_opened E s)))
                [save_warning e]
          | None =>
              logged (with_file s (mkFile (pickled E s blob) owner_read_write))
                [Print ("Session saved to " ++ self_session_file s)]
          end
      end
  end.

(** The state in which the login request of a fresh login is answered. *)
Definition logging_in (E : env) (s : state) (email password : string) : state :=
  called E
    (with_garmin (logged s [Print "Performing fresh login..."])
       (mkGarmin (Some (email, password)) None))
    (Login email password).

(** The client a fresh login returns. *)
Definition logged_in (email password tokens : string) : Garmin :=
  mkGarmin (Some (email, password)) (Some tokens).

Definition loading : event := Print "Loading existing session...".

Definition session_valid (age : timedelta) : event :=
  Print ("Session valid (age: " ++ str_of_int (days age) ++ " days)").

(** The error with which session reuse fails when the probe raises [e]. *)
Definition probe_error (e : exn) : exn :=
  if String.eqb (exn_class e) "GarminConnectAuthenticationError"
  then mkExn "Exception" "Session expired or invalid"
  else e.

(** How a fresh login that returned in state [s'] left the session file,
    starting from state [s] with the tokens [tokens]: replaced and owned,
    or, when a step of saving raised, as far as saving got (untouched,
    emptied and partly written, or written with the mode it had), with a
    warning as the last line printed. *)
Definition session_persisted (E : env) (s s' : state) (tokens : string) : Prop :=
  match garth_dumps E (Some tokens) with
  | inl e =>
      session_file s' = session_file s
      /\ exists t, trace s' = (t ++ [save_warning e])%list
  | inr blob =>
      match open_error E with
      | Some (OnOpen e) =>
          session_file s' = session_file s
          /\ exists t, trace s' = (t ++ [save_warning e])%list
      | Some (OnWrite e written) =>
          session_file s'
          = Some (mkFile
                    (firstn written
                       (pickle_dump E (mkSession blob (clock s') (self_email s))))
                    (mode_when_opened E s))
          /\ exists t, trace s' = (t ++ [save_warning e])%list
      | None =>
          match chmod_error E with
          | Some e =>
              session_file s'
              = Some (mkFile (pickle_dump E (mkSession blob (clock s') (self_email s)))
                        (mode_when_opened E s))
              /\ exists t, trace s' = (t ++ [save_warning e])%list
          | None =>
              session_file s'
              = Some (mkFile (pickle_dump E (mkSession blob (clock s') (self_email s)))
                        owner_read_write)
          end
      end
  end.

(** What export prints around the text [text]. *)
Definition export_lines (text : string) : list event :=
  [Print (Py.nl ++ repeat_string "=" 60);
   Print "SESSION DATA FOR GITHUB SECRET";
   Print (repeat_string "=" 60);
   Print (Py.nl ++ "Add this as a GitHub secret named 'GARMIN_SESSION':");
   Print (Py.nl ++ text);
   Print (Py.nl ++ repeat_string "=" 60)].

(** *** Concrete worlds *)

Definition token_bytes : list byte := [x80; x04; x95; x00; xff; x10].

(** A toy pickle: the file holds the token text as bytes; loading gives a
    session stamped at time 0. *)
Definition toy_dump (sd : session_data) : list byte :=
  list_byte_of_string (session sd).

Definition toy_load (data : list byte) : exn + session_data :=
  inr (mkSession (string_of_list_byte data) 0%Z (Some "me@example.org")).

(** Every remote call succeeds and takes a second, the disk can be
    written. *)
Definition fair_weather : env :=
  mkEnv (fun _ => None)
        (fun _ _ _ => inr "fresh-tokens")
        (fun _ _ => inr "Full Name")
        (fun _ => None)
        (fun tokens => match tokens with
                       | Some t => inr t
                       | None => inl (mkExn "Exception" "no tokens")
                       end)
        toy_dump toy_load None None 420%Z (fun _ => 1000000%Z).

(** The same, but the session file cannot be opened for writing. *)
Definition read_only_disk : env :=
  mkEnv (getenv fair_weather) (garmin_login fair_weather) (get_full_name fair_weather)
        (garth_loads fair_weather) (garth_dumps fair_weather) toy_dump toy_load
        (Some (OnOpen (mkExn "PermissionError" "[Errno 13] Permission denied")))
        None 420%Z (call_duration fair_weather).

Definition old_file : file := mkFile token_bytes 384%Z.

Definition day : Z := microseconds_per_day.

(** The session the toy pickle loads from [old_file]. *)
Definition old_session : session_data :=
  mkSession (string_of_list_byte token_bytes) 0%Z (Some "me@example.org").

(** A logged-out object with credentials, a session file stamped at time
    0, and the clock at [now]. *)
Definition with_session_at (now : datetime) : state :=
  mkState (Some "me@example.org") (Some "secret") ".garmin_session/session.pkl"
          None (Some old_file) now [].

(** The same without credentials and without a session file. *)
Definition blank : state :=
  mkState None (Some "secret") ".garmin_session/session.pkl" None None 0%Z [].

(** What [login] gives on a session file 400 days old. *)
Definition expired_run : outcome Garmin * state :=
  Eval vm_compute in login fair_weather false (with_session_at (400 * day)%Z).

End SessionSpec.


(** ** Further notions for the two scripts *)

Module ResolverMore.
Import CleanupDuplicates ResolverSpec.

(** The cursor a query is sent with: [start_cursor], unless it is falsy. *)
Definition sent_cursor (start_cursor : option string) : option string :=
  if Py.truthy start_cursor then start_cursor else None.

(** The client serves the pages [pages] one after the other: the first
    as remote call number [n], asked for with [cursor], each later one
    asked for with the cursor the page before it gave. *)
Fixpoint serves (c : client) (db : string) (n : nat) (cursor : option string)
    (pages : list response) : Prop :=
  match pages with
  | [] => True
  | p :: rest =>
      databases_query c n db (sent_cursor cursor) = inr p
      /\ serves c db (S n) (next_cursor p) rest
  end.

(** No property chain of the page raises. *)
Definition well_formed (p : page) : bool :=
  match prop_date_start p, prop_activity_type p, prop_activity_name p with
  | Malformed _, _, _ => false
  | _, Malformed _, _ => false
  | _, _, Malformed _ => false
  | _, _, _ => true
  end.

Definition field_or (f : field) (default : string) : string :=
  match f with
  | Value s => s
  | _ => default
  end.

(** The [activity_info] the loop builds from a well-formed page. *)
Definition activity_info_of (p : page) : activity_info :=
  let date := Py.split_head "T"%char (field_or (prop_date_start p) "") in
  let activity_type := field_or (prop_activity_type p) "" in
  let activity_name := field_or (prop_activity_name p) "" in
  mkActivity (page_id p) date activity_type activity_name
    (date ++ "|" ++ activity_type ++ "|" ++ activity_name)
    (or_default (page_created_time p) "")
    (or_default (page_last_edited_time p) "").

(** The cursors of the queries among the events [t], in order. *)
Definition queried (t : list event) : list (option string) :=
  flat_map (fun e => match e with Query _ cursor => [cursor] | _ => [] end) t.


(** The buckets of more than one record, their number and their records
    in all: what the summary of [identify_duplicates] counts. *)
Definition is_group (kv : string * list object) : bool :=
  Nat.ltb 1 (List.length (snd kv)).

Definition count_groups (m : dmap) : nat := List.length (filter is_group m).

Definition count_in_groups (m : dmap) : nat :=
  list_sum (map (fun kv => List.length (snd kv)) (filter is_group m)).

(** The four lines of the summary. *)
Definition summary (groups total removed : nat) : list event :=
  [Print (Py.nl ++ "Summary:");
   Print ("  Total duplicate groups: " ++ Py.str_of_nat groups);
   Print ("  Total activities in duplicate groups: " ++ Py.str_of_nat total);
   Print ("  Activities to be removed: " ++ Py.str_of_nat removed)].

(** The record is in the list, as the object it is. *)
Definition listed (rm : list object) (o : object) : bool :=
  existsb (fun r => Nat.eqb (ref r) (ref o)) rm.

(** The fetched records that are not in the remove list. *)
Definition survivors (all rm : list object) : list object :=
  filter (fun o => negb (listed rm o)) all.

(** The database of the three-record scenario once the later morning run
    is archived. *)
Definition after_cleanup : client :=
  mkClient (fun _ _ _ => inr (mkResponse [Scenarios.morning_1; Scenarios.evening]
                                false None))
           (fun _ _ => None).

Definition clean_fetched : fetched :=
  Eval vm_compute in
    match fst (get_all_activities_with_duplicates 1 after_cleanup "db" Scenarios.start)
    with
    | Ret st => st
    | _ => ([], [])
    end.

Definition clean_world : world :=
  Eval vm_compute in
    snd (get_all_activities_with_duplicates 1 after_cleanup "db" Scenarios.start).

Definition three_pages : list response :=
  [mkResponse [Scenarios.morning_1; Scenarios.morning_2] true (Some "next")].

Definition three_last : response := mkResponse [Scenarios.evening] false None.

(** The error [input] raises at the end of the standard input. *)
Definition input_eof : exn := mkExn "EOFError" "EOF when reading a line".

(** A server whose first answer is an error. *)
Definition unreachable : client :=
  mkClient (fun _ _ _ => inl (mkExn "APIResponseError" "API token is invalid."))
           (fun _ _ => None).

(** A server that answers every query with the same record and says that
    there is more. *)
Definition endless : client :=
  mkClient (fun _ _ _ => inr (mkResponse [Scenarios.evening] true None))
           (fun _ _ => None).

(** The records a fetch builds from the pages served: the record of each
    result, numbered in the order served. *)
Definition fetched_records (pages : list response) : list object :=
  combine (seq 0 (List.length (map activity_info_of (flat_map results pages))))
    (map activity_info_of (flat_map results pages)).

End ResolverMore.

Module SessionMore.
Import GarminSessionAuth SessionSpec.

(** No event of [es] is a login with credentials. *)
Definition no_login (es : list event) : Prop :=
  forallb (fun e => negb (is_login e)) es = true.

(** The state a probe leaves that was sent for the session [sd]. *)
Definition probed (E : env) (s : state) (sd : session_data) : state :=
  called E (with_garmin (logged s [loading]) (restored sd))
    (Probe (Some (session sd))).

(** What [login] prints when session reuse raised [e]. *)
Definition fallback_lines (e : exn) : list event :=
  [Print ("Session login failed: " ++ exn_msg e);
   Print "Attempting fresh login..."].

(** The object [get_garmin_client] builds. *)
Definition default_auth (E : env) (f : option file) (now : datetime)
    (history : list event) : state :=
  init E None None ".garmin_session" f now history.

Definition using_secret : event := Print "Using session from GitHub secret...".

(** The environment [E] with the variable [GARMIN_SESSION] set to [text]. *)
Definition with_secret (E : env) (text : string) : env :=
  mkEnv (fun name => if String.eqb name "GARMIN_SESSION" then Some text
                     else getenv E name)
        (garmin_login E) (get_full_name E) (garth_loads E) (garth_dumps E)
        (pickle_dump E) (pickle_load E) (open_error E) (chmod_error E)
        (new_file_mode E) (call_duration E).

(** A probe that the server refuses. *)
Definition refused : env :=
  mkEnv (getenv fair_weather) (garmin_login fair_weather)
        (fun _ _ => inl (mkExn "GarminConnectAuthenticationError" "401 Unauthorized"))
        (garth_loads fair_weather) (garth_dumps fair_weather) toy_dump toy_load
        None None 420%Z (call_duration fair_weather).

(** A character that [a2b_base64] skips and [str.encode("ascii")]
    accepts: neither a digit of the alphabet nor the pad. *)
Definition outside_alphabet (c : ascii) : bool :=
  negb (Ascii.eqb c Base64.pad)
  && match Base64.undigit c with
     | Some _ => false
     | None => true
     end
  && Nat.ltb (nat_of_ascii c) 128.

Definition skipped (junk : string) : Prop :=
  forallb outside_alphabet (list_ascii_of_string junk) = true.

(** A digit of the alphabet or the pad. *)
Definition base64_char (c : ascii) : bool :=
  Ascii.eqb c Base64.pad
  || match Base64.undigit c with
     | Some _ => true
     | None => false
     end.

Definition base64_text (s : string) : bool :=
  forallb base64_char (list_ascii_of_string s).

(** The state [import_session_from_github] leaves when it returns, having
    written [data]. *)
Definition imported (s : state) (data : list byte) : state :=
  logged (with_file s (mkFile data owner_read_write))
    [Print ("Session imported to " ++ self_session_file s)].

End SessionMore.


(** * Properties *)

Unset Implicit Arguments.

(** ** The order on strings and the stable sort *)

Module PyFacts.

Lemma ascii_compare_lt_trans (a b c : ascii) :
  Ascii.compare a b = Lt -> Ascii.compare b c = Lt -> Ascii.compare a c = Lt.
Proof.
  unfold Ascii.compare. rewrite !N.compare_lt_iff. apply N.lt_trans.
Qed.

Lemma ascii_compare_refl (a : ascii) : Ascii.compare a a = Eq.
Proof. unfold Ascii.compare. apply N.compare_refl. Qed.

Lemma compare_refl (s : string) : String.compare s s = Eq.
Proof.
  induction s as [|a s IH]; simpl; [reflexivity|].
  now rewrite ascii_compare_refl.
Qed.

Lemma compare_lt_trans (s1 : string) :
  forall s2 s3,
    String.compare s1 s2 = Lt -> String.compare s2 s3 = Lt -> String.compare s1 s3 = Lt.
Proof.
  induction s1 as [|a s1 IH]; intros [|b s2] [|c s3]; simpl; try congruence.
  destruct (Ascii.compare a b) eqn:Hab; try discriminate;
    destruct (Ascii.compare b c) eqn:Hbc; try discriminate; intros H12 H23.
  - apply Ascii.compare_eq_iff in Hab, Hbc. subst.
    rewrite ascii_compare_refl. eauto.
  - apply Ascii.compare_eq_iff in Hab. subst. now rewrite Hbc.
  - apply Ascii.compare_eq_iff in Hbc. subst. now rewrite Hab.
  - now rewrite (ascii_compare_lt_trans _ _ _ Hab Hbc).
Qed.

Lemma ltb_irrefl (s : string) : String.ltb s s = false.
Proof. unfold String.ltb. now rewrite compare_refl. Qed.

Lemma ltb_lt (s t : string) : String.ltb s t = true <-> String.compare s t = Lt.
Proof. unfold String.ltb. destruct (String.compare s t); split; congruence. Qed.

Lemma ltb_asym (s t : string) : String.ltb s t = true -> String.ltb t s = false.
Proof.
  unfold String.ltb. rewrite (String.compare_antisym t s).
  destruct (String.compare s t); simpl; congruence.
Qed.

Lemma ltb_trans (s t u : string) :
  String.ltb s t = true -> String.ltb t u = true -> String.ltb s u = true.
Proof. rewrite !ltb_lt. apply compare_lt_trans. Qed.

(** Trichotomy: strings that are not ordered either way are equal. *)
Lemma ltb_total (s t : string) :
  String.ltb s t = false -> String.ltb t s = false -> s = t.
Proof.
  unfold String.ltb. rewrite (String.compare_antisym t s).
  destruct (String.compare s t) eqn:H; simpl; try congruence.
  intros _ _. now apply String.compare_eq_iff.
Qed.

(** [s <= t <= u] gives [s <= u], with [x <= y] read as [not (y < x)]. *)
Lemma not_ltb_trans (s t u : string) :
  String.ltb t s = false -> String.ltb u t = false -> String.ltb u s = false.
Proof.
  intros Hst Htu. destruct (String.ltb u s) eqn:Hus; [|reflexivity].
  destruct (String.ltb s t) eqn:Hlt.
  - rewrite (ltb_trans _ _ _ Hus Hlt) in Htu. discriminate.
  - assert (s = t) by now apply ltb_total. subst. congruence.
Qed.

Section SortFacts.
Variable A : Type.
Variable key : A -> string.

Lemma insert_sorted_perm (x : A) (l : list A) :
  Permutation (x :: l) (Py.insert_sorted key x l).
Proof.
  induction l as [|y l IH]; simpl; [reflexivity|].
  destruct (String.ltb (key y) (key x)); [|reflexivity].
  rewrite perm_swap. now constructor.
Qed.

Lemma sort_by_perm (l : list A) : Permutation l (Py.sort_by key l).
Proof.
  induction l as [|x l IH]; simpl; [constructor|].
  rewrite <- insert_sorted_perm. now constructor.
Qed.

Lemma sort_by_length (l : list A) : List.length (Py.sort_by key l) = List.length l.
Proof. symmetry. apply Permutation_length, sort_by_perm. Qed.

(** The sort is stable: the elements with any one key keep their order. *)
Lemma insert_sorted_filter (k : string) (x : A) (l : list A) :
  filter (fun y => String.eqb (key y) k) (Py.insert_sorted key x l)
  = filter (fun y => String.eqb (key y) k) (x :: l).
Proof.
  induction l as [|y l IH]; [reflexivity|].
  simpl Py.insert_sorted.
  destruct (String.ltb (key y) (key x)) eqn:Hlt; [|reflexivity].
  change (filter ?f (y :: ?r)) with (if f y then y :: filter f r else filter f r).
  rewrite IH. simpl.
  destruct (String.eqb_spec (key x) k) as [Hx|Hx];
    destruct (String.eqb_spec (key y) k) as [Hy|Hy]; try reflexivity.
  rewrite Hx, Hy, ltb_irrefl in Hlt. discriminate.
Qed.

Lemma sort_by_stable (k : string) (l : list A) :
  filter (fun y => String.eqb (key y) k) (Py.sort_by key l)
  = filter (fun y => String.eqb (key y) k) l.
Proof.
  induction l as [|x l IH]; [reflexivity|].
  simpl Py.sort_by. rewrite insert_sorted_filter. simpl. now rewrite IH.
Qed.

Lemma sort_by_head (x : A) (l : list A) :
  exists rest, Py.sort_by key (x :: l) = Py.first_least key x l :: rest.
Proof.
  revert x. induction l as [|y l IH]; intros x.
  - now exists [].
  - destruct (IH y) as [rest Hrest].
    change (Py.sort_by key (x :: y :: l))
      with (Py.insert_sorted key x (Py.sort_by key (y :: l))).
    rewrite Hrest. simpl.
    destruct (String.ltb (key (Py.first_least key y l)) (key x)); eauto.
Qed.

Lemma first_least_in (x : A) (l : list A) : In (Py.first_least key x l) (x :: l).
Proof.
  revert x. induction l as [|y l IH]; intros x; simpl; [auto|].
  destruct (String.ltb _ _); [|auto].
  right. apply (IH y).
Qed.

Lemma first_least_least (x : A) (l : list A) :
  forall y, In y (x :: l) -> String.ltb (key y) (key (Py.first_least key x l)) = false.
Proof.
  revert x. induction l as [|z l IH]; intros x y Hy.
  - destruct Hy as [<-|[]]. apply ltb_irrefl.
  - simpl Py.first_least.
    destruct (String.ltb (key (Py.first_least key z l)) (key x)) eqn:Hlt.
    + destruct Hy as [<-|Hy]; [now apply ltb_asym | now apply IH].
    + destruct Hy as [<-|Hy]; [apply ltb_irrefl|].
      eapply not_ltb_trans; [exact Hlt | now apply IH].
Qed.

(** Among the elements with the least key the sort puts first the one
    that came first, here the one of least rank in a list of increasing
    ranks. *)
Lemma first_least_first (rank : A -> nat) (x : A) (l : list A) :
  StronglySorted (fun a b => rank a < rank b) (x :: l) ->
  forall y, In y (x :: l) -> key y = key (Py.first_least key x l) ->
            rank (Py.first_least key x l) <= rank y.
Proof.
  revert x. induction l as [|z l IH]; intros x Hs y Hy Hk.
  - destruct Hy as [<-|[]]. apply Nat.le_refl.
  - inversion Hs as [|? ? Hs' Hall]; subst.
    rewrite Forall_forall in Hall.
    simpl Py.first_least in *.
    destruct (String.ltb (key (Py.first_least key z l)) (key x)) eqn:Hlt.
    + destruct Hy as [<-|Hy]; [|now apply IH].
      rewrite Hk, ltb_irrefl in Hlt. discriminate.
    + destruct Hy as [<-|Hy]; [apply Nat.le_refl|].
      apply Nat.lt_le_incl. now apply Hall.
Qed.

End SortFacts.

End PyFacts.


(** ** Running a bind *)

Lemma bind_run {W A B : Type} (m : M W A) (k : A -> M W B) (w w1 : W) (a : A) :
  m w = (Ret a, w1) -> bind m k w = k a w1.
Proof. intros H. unfold bind. now rewrite H. Qed.

(** ** The duplicate resolver *)

Module DuplicateResolver.
Import CleanupDuplicates ResolverSpec.

(** *** The map of buckets *)

Lemma bucket_append (k k' : string) (o : object) (m : dmap) :
  bucket k' (dmap_append k o m)
  = if String.eqb k k' then (bucket k' m ++ [o])%list else bucket k' m.
Proof.
  induction m as [|[k0 l] m IH]; simpl.
  - now destruct (String.eqb k k').
  - destruct (String.eqb_spec k0 k) as [->|Hk0]; simpl.
    + now destruct (String.eqb k k').
    + destruct (String.eqb_spec k0 k') as [->|Hk0'].
      * destruct (String.eqb_spec k k') as [->|]; congruence.
      * exact IH.
Qed.

Lemma keys_append (k k' : string) (o : object) (m : dmap) :
  In k' (map fst (dmap_append k o m)) <-> k' = k \/ In k' (map fst m).
Proof.
  induction m as [|[k0 l] m IH]; simpl.
  - intuition.
  - destruct (String.eqb_spec k0 k) as [->|Hk0]; simpl; intuition.
Qed.

Lemma keys_append_nodup (k : string) (o : object) (m : dmap) :
  NoDup (map fst m) -> NoDup (map fst (dmap_append k o m)).
Proof.
  induction m as [|[k0 l] m IH]; simpl; intros Hnd.
  - constructor; [intros []|constructor].
  - inversion Hnd as [|? ? Hnot Hnd']; subst.
    destruct (String.eqb_spec k0 k) as [->|Hk0]; simpl.
    + now constructor.
    + constructor; [|now apply IH].
      rewrite keys_append. intros [->|Hin]; [congruence|contradiction].
Qed.

Lemma bucket_unique (k : string) (l : list object) (m : dmap) :
  NoDup (map fst m) -> In (k, l) m -> bucket k m = l.
Proof.
  induction m as [|[k0 l0] m IH]; simpl; intros Hnd Hin; [contradiction|].
  inversion Hnd as [|? ? Hnot Hnd']; subst.
  destruct Hin as [Heq|Hin].
  - inversion Heq; subst. now rewrite String.eqb_refl.
  - destruct (String.eqb_spec k0 k) as [->|Hk0]; [|now apply IH].
    exfalso. apply Hnot. now apply (in_map fst _ (k, l)).
Qed.

Lemma bucket_in (k : string) (m : dmap) :
  In k (map fst m) -> In (k, bucket k m) m.
Proof.
  induction m as [|[k0 l0] m IH]; simpl; intros Hin; [contradiction|].
  destruct (String.eqb_spec k0 k) as [->|Hk0]; [now left|].
  right. apply IH. destruct Hin; [congruence|assumption].
Qed.

Lemma buckets_snoc (all : list object) (o : object) :
  buckets (all ++ [o]) = dmap_append (key_of o) o (buckets all).
Proof. unfold buckets. now rewrite fold_left_app. Qed.

(** The map holds, for every key that occurs, the records with that key
    in the order in which they were fetched. *)
Lemma buckets_spec (all : list object) :
  NoDup (map fst (buckets all))
  /\ (forall k, bucket k (buckets all) = filter (has_key k) all)
  /\ (forall k, In k (map fst (buckets all)) <-> exists o, In o all /\ key_of o = k).
Proof.
  induction all as [|o all IH] using rev_ind.
  - repeat split; [constructor | intros [] | intros (o & [] & _)].
  - destruct IH as (Hnd & Hb & Hk). rewrite buckets_snoc. repeat split.
    + now apply keys_append_nodup.
    + intros k. rewrite bucket_append, filter_app, Hb. simpl. unfold has_key.
      destruct (String.eqb (key_of o) k); [reflexivity|now rewrite app_nil_r].
    + rewrite keys_append, Hk. intros [->|(o' & Hin & Hko)].
      * exists o. split; [apply in_or_app; right; now left|reflexivity].
      * exists o'. split; [apply in_or_app; now left|assumption].
    + rewrite keys_append, Hk. intros (o' & Hin & Hko).
      apply in_app_or in Hin. destruct Hin as [Hin|[<-|[]]]; [right; eauto|now left].
Qed.

Lemma bucket_of_entry (all : list object) (k : string) (l : list object) :
  In (k, l) (buckets all) -> l = filter (has_key k) all.
Proof.
  intros Hin. destruct (buckets_spec all) as (Hnd & Hb & _).
  rewrite <- Hb. symmetry. now apply bucket_unique.
Qed.

Lemma entry_of_record (all : list object) (o : object) :
  In o all -> In (key_of o, filter (has_key (key_of o)) all) (buckets all).
Proof.
  intros Hin. destruct (buckets_spec all) as (Hnd & Hb & Hk).
  rewrite <- Hb. apply bucket_in, Hk. eauto.
Qed.

(** *** Numbered records *)

Lemma numbered_nth (all : list object) (i : nat) (o : object) :
  numbered all -> nth_error all i = Some o -> ref o = i.
Proof.
  unfold numbered. intros Hn Hi.
  assert (Hm : nth_error (map ref all) i = Some (ref o))
    by (rewrite nth_error_map, Hi; reflexivity).
  rewrite Hn, nth_error_seq in Hm.
  destruct (Nat.ltb i (List.length all)); inversion Hm. reflexivity.
Qed.

Lemma numbered_in (all : list object) (o : object) :
  numbered all -> In o all -> nth_error all (ref o) = Some o.
Proof.
  intros Hn Hin. destruct (In_nth_error _ _ Hin) as [i Hi].
  now rewrite (numbered_nth all i o Hn Hi).
Qed.

Lemma numbered_NoDup (all : list object) : numbered all -> NoDup all.
Proof.
  unfold numbered. intros Hn. apply (NoDup_map_inv ref). rewrite Hn. apply seq_NoDup.
Qed.

Lemma seq_sorted (A : Type) (rank : A -> nat) (l : list A) :
  forall s, map rank l = seq s (List.length l) ->
            StronglySorted (fun a b => rank a < rank b) l.
Proof.
  induction l as [|x l IH]; intros s Hs; [constructor|].
  simpl in Hs. injection Hs as Hx Hl. constructor; [now apply (IH (S s))|].
  rewrite Forall_forall. intros y Hy.
  apply (in_map rank) in Hy. rewrite Hl, in_seq in Hy. lia.
Qed.

Lemma filter_sorted (A : Type) (R : A -> A -> Prop) (f : A -> bool) (l : list A) :
  StronglySorted R l -> StronglySorted R (filter f l).
Proof.
  induction 1 as [|x l Hs IH Hall]; simpl; [constructor|].
  destruct (f x); [|assumption].
  constructor; [assumption|].
  rewrite Forall_forall in *. intros y Hy. apply Hall. now apply filter_In in Hy.
Qed.

(** *** What is removed from one bucket *)

Lemma sort_short (l : list object) :
  List.length l <= 1 -> tl (Py.sort_by created l) = [].
Proof.
  intros Hlen. rewrite <- (PyFacts.sort_by_length _ created l) in Hlen.
  destruct (Py.sort_by created l) as [|x [|y r]]; simpl in *; [reflexivity..|lia].
Qed.

Lemma in_removals (o : object) (m : dmap) :
  In o (removals m) <-> exists k l, In (k, l) m /\ In o (tl (Py.sort_by created l)).
Proof.
  unfold removals. rewrite in_flat_map. split.
  - intros ([k l] & Hin & Ho). exists k, l. split; [assumption|].
    simpl in Ho. destruct (Nat.ltb 1 (List.length l)); [assumption|contradiction].
  - intros (k & l & Hin & Ho). exists (k, l). split; [assumption|].
    simpl. destruct (Nat.ltb_spec 1 (List.length l)) as [|Hle]; [assumption|].
    rewrite sort_short in Ho by lia. contradiction.
Qed.

(** The records removed from a bucket without repetitions are all its
    records but the one the sort puts first. *)
Lemma in_sorted_tail (x : object) (l : list object) (o : object) :
  NoDup (x :: l) ->
  (In o (tl (Py.sort_by created (x :: l)))
   <-> In o (x :: l) /\ o <> Py.first_least created x l).
Proof.
  intros Hnd. destruct (PyFacts.sort_by_head _ created x l) as [rest Hrest].
  pose proof (PyFacts.sort_by_perm _ created (x :: l)) as Hperm.
  rewrite Hrest in *. simpl tl.
  assert (Hnd' : NoDup (Py.first_least created x l :: rest))
    by (eapply Permutation_NoDup; eassumption).
  inversion Hnd' as [|? ? Hnot _]; subst. split.
  - intros Ho. split.
    + eapply Permutation_in; [symmetry; exact Hperm|now right].
    + intros ->. contradiction.
  - intros [Ho Hne]. apply (Permutation_in _ Hperm) in Ho.
    destruct Ho as [Ho|Ho]; [congruence|assumption].
Qed.

Lemma sorted_tail_NoDup (l : list object) :
  NoDup l -> NoDup (tl (Py.sort_by created l)).
Proof.
  intros Hnd.
  assert (Hs : NoDup (Py.sort_by created l))
    by (eapply Permutation_NoDup; [apply PyFacts.sort_by_perm|assumption]).
  destruct (Py.sort_by created l); [constructor|now inversion Hs].
Qed.

Lemma sorted_tail_in (l : list object) (o : object) :
  In o (tl (Py.sort_by created l)) -> In o l.
Proof.
  intros Ho.
  apply (Permutation_in o (Permutation_sym (PyFacts.sort_by_perm _ created l))).
  destruct (Py.sort_by created l); simpl in *; [contradiction|now right].
Qed.

Lemma removals_NoDup (m : dmap) :
  NoDup (map fst m) ->
  (forall k l, In (k, l) m -> NoDup l /\ forall o, In o l -> key_of o = k) ->
  NoDup (removals m).
Proof.
  induction m as [|[k l] m IH]; intros Hkeys Hm; [constructor|].
  inversion Hkeys as [|? ? Hnot Hkeys']; subst.
  change (removals ((k, l) :: m))
    with ((if Nat.ltb 1 (List.length l) then tl (Py.sort_by created l) else [])
            ++ removals m)%list.
  destruct (Hm k l (or_introl eq_refl)) as [Hl Hkl].
  apply NoDup_app.
  - destruct (Nat.ltb 1 (List.length l)); [now apply sorted_tail_NoDup|constructor].
  - apply IH; [assumption|]. intros k' l' Hin. apply Hm. now right.
  - intros o Ho Ho'. apply in_removals in Ho'. destruct Ho' as (k' & l' & Hin & Ho').
    assert (Hk : key_of o = k).
    { apply Hkl. destruct (Nat.ltb 1 (List.length l)); [|contradiction].
      now apply sorted_tail_in. }
    assert (Hk' : key_of o = k').
    { apply (Hm k' l' (or_intror Hin)). now apply sorted_tail_in. }
    apply Hnot. apply (in_map fst) in Hin. simpl in Hin. congruence.
Qed.

(** *** The remove list of a numbered fetch *)

Lemma bucket_members (all : list object) (k : string) (o : object) :
  In o (filter (has_key k) all) <-> In o all /\ key_of o = k.
Proof.
  rewrite filter_In. unfold has_key.
  destruct (String.eqb_spec (key_of o) k); intuition congruence.
Qed.

Lemma bucket_sorted (all : list object) (k : string) :
  numbered all ->
  StronglySorted (fun a b => ref a < ref b) (filter (has_key k) all).
Proof.
  intros Hn. apply filter_sorted. now apply (seq_sorted _ ref all 0).
Qed.

(** A record is removed exactly when another record with its key sorts
    before it. *)
Lemma removed_iff (all : list object) (o : object) :
  numbered all -> In o all ->
  (In o (removals (buckets all)) <-> superseded all o).
Proof.
  intros Hn Ho.
  pose proof (numbered_NoDup all Hn) as Hnd.
  pose proof (bucket_sorted all (key_of o) Hn) as Hsorted.
  assert (Hob : In o (filter (has_key (key_of o)) all))
    by (apply bucket_members; auto).
  assert (Hndb : NoDup (filter (has_key (key_of o)) all)) by now apply NoDup_filter.
  pose proof (entry_of_record all o Ho) as Hentry.
  destruct (filter (has_key (key_of o)) all) as [|x l] eqn:Hb; [contradiction|].
  assert (Hfirst : In (Py.first_least created x l) (x :: l))
    by apply PyFacts.first_least_in.
  assert (Hfall : In (Py.first_least created x l) all
                  /\ key_of (Py.first_least created x l) = key_of o)
    by (apply bucket_members; rewrite Hb; assumption).
  split.
  - intros Hrm. apply in_removals in Hrm. destruct Hrm as (k' & l' & Hin & Hrm).
    assert (Hk' : k' = key_of o).
    { rewrite (bucket_of_entry all k' l' Hin) in Hrm.
      apply sorted_tail_in, bucket_members in Hrm. now destruct Hrm. }
    subst k'. rewrite (bucket_of_entry all _ l' Hin), Hb in Hrm.
    apply in_sorted_tail in Hrm; [|assumption]. destruct Hrm as [_ Hne].
    exists (Py.first_least created x l). destruct Hfall as [Hfin Hfk].
    repeat split; [assumption|congruence|assumption|].
    pose proof (PyFacts.first_least_least _ created x l o Hob) as Hle.
    destruct (String.ltb (created (Py.first_least created x l)) (created o)) eqn:Hlt;
      [now left|right].
    assert (Heq : created (Py.first_least created x l) = created o)
      by now apply PyFacts.ltb_total.
    split; [assumption|].
    exists (ref (Py.first_least created x l)), (ref o).
    repeat split; try now apply numbered_in.
    pose proof (PyFacts.first_least_first _ created ref x l Hsorted o Hob
                  (eq_sym Heq)) as Hrank.
    assert (ref (Py.first_least created x l) <> ref o); [|lia].
    intros Href. apply Hne.
    pose proof (numbered_in all _ Hn Hfin) as H1.
    pose proof (numbered_in all _ Hn Ho) as H2. congruence.
  - intros (o' & Hin' & Hne & Hk & Hbefore).
    apply in_removals. exists (key_of o), (x :: l). split; [assumption|].
    apply in_sorted_tail; [assumption|]. split; [assumption|].
    intros ->.
    assert (Hob' : In o' (x :: l)) by (rewrite <- Hb; apply bucket_members; auto).
    pose proof (PyFacts.first_least_least _ created x l o' Hob') as Hle.
    destruct Hbefore as [Hlt|(Heq & j & i & Hji & Hj & Hi)]; [congruence|].
    pose proof (PyFacts.first_least_first _ created ref x l Hsorted o' Hob' Heq) as Hrank.
    rewrite (numbered_nth all j o' Hn Hj), (numbered_nth all i _ Hn Hi) in Hrank. lia.
Qed.

(** *** Worlds *)

Lemma emits_refl (p : event -> bool) (w : world) : emits p w w.
Proof. split; [reflexivity|]. exists []. now rewrite app_nil_r. Qed.

Lemma emits_trans (p : event -> bool) (w1 w2 w3 : world) :
  emits p w1 w2 -> emits p w2 w3 -> emits p w1 w3.
Proof.
  intros [Hs1 (t1 & Ht1 & Hp1)] [Hs2 (t2 & Ht2 & Hp2)]. split; [congruence|].
  exists (t1 ++ t2)%list. rewrite Ht2, Ht1, app_assoc, forallb_app, Hp1, Hp2. auto.
Qed.

Lemma emits_weaken (p q : event -> bool) (w w' : world) :
  (forall e, p e = true -> q e = true) -> emits p w w' -> emits q w w'.
Proof.
  intros Hpq [Hs (t & Ht & Hp)]. split; [assumption|]. exists t. split; [assumption|].
  rewrite forallb_forall in *. auto.
Qed.

Lemma emits_emit (p : event -> bool) (e : event) (w : world) :
  p e = true -> emits p w (snd (emit e w)).
Proof.
  intros He. split; [reflexivity|]. exists [e]. simpl. now rewrite He.
Qed.

Lemma print_ret (line : string) (w : world) :
  print line w = (Ret tt, mkWorld (stdin w) (trace w ++ [Print line])).
Proof. reflexivity. Qed.

(** *** The fetch loop *)

Lemma activity_of_pure (result : page) (w : world) :
  snd (activity_of result w) = w
  /\ forall a, fst (activity_of result w) = Ret a ->
               unique_key a = date a ++ "|" ++ activity_type a ++ "|" ++ activity_name a.
Proof.
  unfold activity_of, bind, read_field, ret, raise.
  destruct (prop_date_start result), (prop_activity_type result),
    (prop_activity_name result); simpl; split; try reflexivity;
    intros a Ha; inversion Ha; reflexivity.
Qed.

Lemma for_results_spec (rs : list page) :
  forall (st : fetched) (w : world) (r : outcome fetched) (w' : world),
    for_results rs st w = (r, w') ->
    w' = w /\ r <> Diverge
    /\ forall st', r = Ret st' -> fetched_ok st -> fetched_ok st'.
Proof.
  induction rs as [|x rs IH]; intros st w r w' Hrun.
  - inversion Hrun; subst. split; [reflexivity|]. split; [discriminate|].
    intros st' H. inversion H. auto.
  - simpl in Hrun. unfold bind in Hrun.
    destruct (activity_of_pure x w) as [Hw Hkey].
    destruct (activity_of x w) as [[a|e|] w1] eqn:Ha; simpl in Hw; subst w1.
    + destruct (IH _ _ _ _ Hrun) as (IHw & IHd & IHok).
      split; [exact IHw|]. split; [exact IHd|].
      intros st' Hst' (Hnum & Hmap & Hwf). apply (IHok st' Hst').
      split; [|split]; simpl.
      * unfold numbered in *. rewrite map_app, last_length, seq_S, Hnum. reflexivity.
      * rewrite buckets_snoc, Hmap. reflexivity.
      * apply Forall_app. split; [assumption|]. constructor; [|constructor].
        apply (Hkey a eq_refl).
    + inversion Hrun; subst. split; [reflexivity|]. split; discriminate.
    + exfalso. revert Ha. unfold activity_of, bind, read_field, ret, raise.
      destruct (prop_date_start x), (prop_activity_type x), (prop_activity_name x);
        discriminate.
Qed.

Lemma query_emits (c : client) (db : string) (cursor : option string)
    (w : world) (r : outcome response) (w' : world) :
  query c db cursor w = (r, w') -> emits is_query w w' /\ r <> Diverge.
Proof.
  unfold query. intros Hrun.
  assert (Hw : w' = mkWorld (stdin w) (trace w ++ [Query db cursor]))
    by (destruct (databases_query c _ db cursor); inversion Hrun; reflexivity).
  split.
  - subst w'. split; [reflexivity|]. exists [Query db cursor]. auto.
  - destruct (databases_query c _ db cursor); inversion Hrun; discriminate.
Qed.

Lemma while_has_more_spec (fuel : nat) (c : client) (db : string) :
  forall (cursor : option string) (st : fetched) (w : world)
         (r : outcome fetched) (w' : world),
    while_has_more fuel c db cursor st w = (r, w') ->
    emits is_query w w'
    /\ forall st', r = Ret st' -> fetched_ok st -> fetched_ok st'.
Proof.
  induction fuel as [|fuel IH]; intros cursor st w r w' Hrun.
  - inversion Hrun; subst. split; [apply emits_refl|discriminate].
  - simpl in Hrun. unfold bind in Hrun.
    destruct (query c db (if Py.truthy cursor then cursor else None) w)
      as [[resp|e|] w1] eqn:Hq;
      apply query_emits in Hq; destruct Hq as [Hq Hnd];
      try (inversion Hrun; subst; split; [assumption|discriminate]).
    destruct (for_results (results resp) st w1) as [[st1|e|] w2] eqn:Hfor;
      apply for_results_spec in Hfor; destruct Hfor as (Hw & _ & Hok); subst w2;
      try (inversion Hrun; subst; split; [assumption|discriminate]).
    destruct (has_more resp).
    + destruct (IH _ _ _ _ _ Hrun) as [He Hok'].
      split; [eapply emits_trans; eassumption|].
      intros st' Hst' Hst. apply (Hok' st' Hst'), (Hok st1 eq_refl Hst).
    + inversion Hrun; subst. split; [assumption|]. intros st' Hst' Hst.
      inversion Hst'; subst. apply (Hok st' eq_refl Hst).
Qed.

Lemma fetched_ok_empty : fetched_ok ([], []).
Proof. split; [reflexivity|]. split; [reflexivity|constructor]. Qed.

Lemma is_query_print_or_query (e : event) :
  is_query e = true -> print_or_query e = true.
Proof. intros H. unfold print_or_query. rewrite H. apply orb_true_r. Qed.

Lemma get_all_activities_spec (fuel : nat) (c : client) (db : string)
    (w : world) (r : outcome fetched) (w' : world) :
  get_all_activities_with_duplicates fuel c db w = (r, w') ->
  emits print_or_query w w' /\ forall st, r = Ret st -> fetched_ok st.
Proof.
  unfold get_all_activities_with_duplicates. intros Hrun.
  unfold bind in Hrun. rewrite print_ret in Hrun.
  set (w0 := mkWorld (stdin w)
               (trace w ++ [Print "Fetching all activities from Notion..."])) in *.
  assert (H0 : emits print_or_query w w0)
    by (apply (emits_emit print_or_query (Print _)); reflexivity).
  destruct (while_has_more fuel c db None ([], []) w0) as [[st|e|] w1] eqn:Hloop;
    apply while_has_more_spec in Hloop; destruct Hloop as [He Hok];
    apply (emits_weaken is_query print_or_query _ _ is_query_print_or_query) in He;
    try (inversion Hrun; subst; split; [eapply emits_trans; eassumption|discriminate]).
  rewrite print_ret in Hrun. inversion Hrun; subst. split.
  - eapply emits_trans; [eassumption|]. eapply emits_trans; [eassumption|].
    apply (emits_emit print_or_query (Print _)). reflexivity.
  - intros st' Hst'. inversion Hst'; subst. apply (Hok st' eq_refl fetched_ok_empty).
Qed.

(** *** identify_duplicates always returns, and only prints *)

Lemma print_removals_spec (dups : list object) (w : world) :
  exists w', print_removals dups w = (Ret tt, w') /\ emits is_print w w'.
Proof.
  revert w. induction dups as [|d dups IH]; intros w.
  - exists w. split; [reflexivity|apply emits_refl].
  - simpl. rewrite (bind_run _ _ _ _ _ (print_ret _ w)).
    destruct (IH (mkWorld (stdin w)
                    (trace w ++ [Print ("  Will remove: " ++ id (info d) ++ " (created: "
                                          ++ created d ++ ")")]))) as (w' & Hrun & He).
    exists w'. split; [assumption|].
    eapply emits_trans; [|eassumption]. apply (emits_emit is_print (Print _)). reflexivity.
Qed.

Lemma group_body_spec (key : string) (activities : list object) (st : counters)
    (w : world) :
  exists st' w',
    group_body key activities st w = (Ret st', w')
    /\ duplicates st' = (duplicates st ++ removals [(key, activities)])%list
    /\ emits is_print w w'.
Proof.
  unfold group_body, removals. simpl flat_map. rewrite app_nil_r.
  destruct (Nat.ltb_spec 1 (List.length activities)) as [Hlen|Hlen].
  - rewrite <- (PyFacts.sort_by_length _ created activities) in Hlen.
    destruct (Py.sort_by created activities) as [|first rest] eqn:Hsort;
      [simpl in Hlen; lia|].
    repeat (rewrite (bind_run _ _ _ _ _ (print_ret _ _)); simpl stdin; simpl trace).
    match goal with
    | |- context [bind (print_removals ?d) _ ?w0] =>
        destruct (print_removals_spec d w0) as (w' & Hrun & He);
        rewrite (bind_run _ _ _ _ _ Hrun)
    end.
    eexists _, w'. split; [reflexivity|]. split; [reflexivity|].
    eapply emits_trans; [|eassumption].
    split; [reflexivity|]. simpl. eexists. rewrite <- !app_assoc. simpl.
    split; [reflexivity|reflexivity].
  - exists st, w. rewrite app_nil_r. split; [reflexivity|]. split; [reflexivity|].
    apply emits_refl.
Qed.

Lemma removals_cons (kv : string * list object) (m : dmap) :
  removals (kv :: m) = (removals [kv] ++ removals m)%list.
Proof. unfold removals. simpl. now rewrite app_nil_r. Qed.

Lemma for_groups_spec (m : dmap) :
  forall (st : counters) (w : world),
    exists st' w',
      for_groups m st w = (Ret st', w')
      /\ duplicates st' = (duplicates st ++ removals m)%list
      /\ emits is_print w w'.
Proof.
  induction m as [|[key activities] m IH]; intros st w.
  - exists st, w. simpl. rewrite app_nil_r. repeat split. apply emits_refl.
  - simpl for_groups.
    destruct (group_body_spec key activities st w) as (st1 & w1 & Hrun & Hd & He).
    rewrite (bind_run _ _ _ _ _ Hrun).
    destruct (IH st1 w1) as (st2 & w2 & Hrun2 & Hd2 & He2).
    exists st2, w2. split; [assumption|]. split.
    + rewrite Hd2, Hd, <- app_assoc, <- removals_cons. reflexivity.
    + eapply emits_trans; eassumption.
Qed.

Lemma identify_duplicates_spec (m : dmap) (w : world) :
  exists w', identify_duplicates m w = (Ret (removals m), w') /\ emits is_print w w'.
Proof.
  unfold identify_duplicates.
  destruct (for_groups_spec m (mkCounters [] 0 0) w) as (st & w1 & Hrun & Hd & He).
  rewrite (bind_run _ _ _ _ _ Hrun).
  repeat (rewrite (bind_run _ _ _ _ _ (print_ret _ _)); simpl stdin; simpl trace).
  simpl in Hd. rewrite Hd. eexists. split; [reflexivity|].
  eapply emits_trans; [eassumption|].
  split; [reflexivity|]. simpl. eexists. rewrite <- !app_assoc. simpl.
  split; reflexivity.
Qed.

(** *** The record that stays *)

Lemma removed_from_bucket (all : list object) (o x : object) (l : list object) :
  numbered all -> In o all -> filter (has_key (key_of o)) all = x :: l ->
  (In o (removals (buckets all)) <-> o <> Py.first_least created x l).
Proof.
  intros Hn Ho Hb.
  assert (Hndb : NoDup (x :: l))
    by (rewrite <- Hb; apply NoDup_filter, numbered_NoDup, Hn).
  assert (Hob : In o (x :: l)) by (rewrite <- Hb; apply bucket_members; auto).
  pose proof (entry_of_record all o Ho) as Hentry. rewrite Hb in Hentry.
  rewrite in_removals. split.
  - intros (k' & l' & Hin & Hrm).
    assert (Hk' : k' = key_of o).
    { rewrite (bucket_of_entry all k' l' Hin) in Hrm.
      apply sorted_tail_in, bucket_members in Hrm. now destruct Hrm. }
    subst k'. rewrite (bucket_of_entry all _ l' Hin), Hb in Hrm.
    apply in_sorted_tail in Hrm; [|assumption]. now destruct Hrm.
  - intros Hne. exists (key_of o), (x :: l). split; [assumption|].
    apply in_sorted_tail; auto.
Qed.

Lemma same_ref (all : list object) (o o' : object) :
  numbered all -> In o all -> In o' all -> ref o = ref o' -> o = o'.
Proof.
  intros Hn Ho Ho' Href.
  pose proof (numbered_in all o Hn Ho) as H1.
  pose proof (numbered_in all o' Hn Ho') as H2. congruence.
Qed.

Lemma retained_exists (all : list object) (o : object) :
  numbered all -> In o all ->
  exists kept, retained all (removals (buckets all)) o kept.
Proof.
  intros Hn Ho.
  assert (Hob : In o (filter (has_key (key_of o)) all)) by (apply bucket_members; auto).
  destruct (filter (has_key (key_of o)) all) as [|x l] eqn:Hb; [contradiction|].
  set (kept := Py.first_least created x l).
  assert (Hk : In kept all /\ key_of kept = key_of o).
  { apply bucket_members. rewrite Hb. apply PyFacts.first_least_in. }
  destruct Hk as [Hkin Hkk].
  assert (Hb' : filter (has_key (key_of kept)) all = x :: l) by now rewrite Hkk.
  exists kept. split; [assumption|]. split; [assumption|]. split; [|split].
  - intros Hrm. now apply (removed_from_bucket all kept x l Hn Hkin Hb') in Hrm.
  - intros o' Ho' Hko'. apply PyFacts.first_least_least.
    rewrite <- Hb. apply bucket_members. auto.
  - intros o' Ho' Hko'.
    destruct (Nat.eq_dec (ref o') (ref kept)) as [Href|Href].
    + left. now apply (same_ref all).
    + right. rewrite <- Hko' in Hb.
      apply (removed_from_bucket all o' x l Hn Ho' Hb).
      intros Heq. apply Href. now rewrite Heq.
Qed.

Lemma unique_not_superseded (all : list object) (o : object) :
  unique_among all o -> ~ superseded all o.
Proof.
  intros Hu (o' & Hin & Hne & Hk & _). apply Hne. now apply Hu.
Qed.

Lemma removals_correct (all : list object) :
  numbered all -> Forall key_well_formed all ->
  remove_list_correct all (removals (buckets all)).
Proof.
  intros Hn Hwf. split; [|split; [|split; [|split; [|split]]]].
  - intros o Ho. now apply removed_iff.
  - destruct (buckets_spec all) as (Hnd & _ & _).
    apply removals_NoDup; [assumption|]. intros k l Hin.
    rewrite (bucket_of_entry all k l Hin). split.
    + apply NoDup_filter, numbered_NoDup, Hn.
    + intros o Ho. now apply bucket_members in Ho.
  - intros o Ho. apply in_removals in Ho. destruct Ho as (k & l & Hin & Ho).
    apply sorted_tail_in in Ho. rewrite (bucket_of_entry all k l Hin) in Ho.
    now apply bucket_members in Ho.
  - intros o Ho. now apply retained_exists.
  - intros o Ho Hu Hrm. apply (unique_not_superseded all o Hu).
    now apply removed_iff.
  - assumption.
Qed.

(** C1: once the records are fetched, [identify_duplicates] returns, and a
    fetched record is in the remove list exactly when some other fetched
    record has its composite key (date|activity type|activity name) and
    sorts strictly before it by creation timestamp, fetch order breaking
    ties.  So every group of records with one key keeps exactly one
    record, one with the least creation timestamp, every other record of
    the group is in the remove list, the remove list has no repetition,
    and a record with a key of its own is never in it. *)
Theorem identify_duplicates_removes_superseded
    (fuel : nat) (c : client) (db : string) (w w1 : world)
    (all : list object) (m : dmap) :
  get_all_activities_with_duplicates fuel c db w = (Ret (all, m), w1) ->
  exists rm w2,
    identify_duplicates m w1 = (Ret rm, w2) /\ remove_list_correct all rm.
Proof.
  intros Hfetch. apply get_all_activities_spec in Hfetch.
  destruct Hfetch as [_ Hok]. destruct (Hok (all, m) eq_refl) as (Hn & Hm & Hwf).
  simpl in Hn, Hm, Hwf. subst m.
  destruct (identify_duplicates_spec (buckets all) w1) as (w2 & Hrun & _).
  exists (removals (buckets all)), w2. split; [assumption|].
  now apply removals_correct.
Qed.

(** The scenario of the specification: of two morning runs the later one
    is removed, the evening run is left alone. *)
Lemma three_records_resolved :
  exists rm w2,
    identify_duplicates (snd Scenarios.three_fetched) Scenarios.three_world = (Ret rm, w2)
    /\ remove_list_correct (fst Scenarios.three_fetched) rm.
Proof.
  apply (identify_duplicates_removes_superseded 2 Scenarios.three_records "db"
           Scenarios.start).
  vm_compute. reflexivity.
Defined.

(** *** Records created at the same time *)

Lemma removals_settle_ties (all : list object) :
  numbered all -> ties_settled all (removals (buckets all)).
Proof.
  intros Hn. split.
  - intros j i o' o Hji Hj Hi Hk Hc.
    apply removed_iff; [assumption|eapply nth_error_In; eassumption|].
    exists o'. split; [eapply nth_error_In; eassumption|]. split; [|split].
    + intros ->. pose proof (numbered_nth all j o Hn Hj).
      pose proof (numbered_nth all i o Hn Hi). lia.
    + assumption.
    + right. split; [assumption|]. now exists j, i.
  - intros j o' Hj Hfirst.
    assert (Ho' : In o' all) by (eapply nth_error_In; eassumption).
    rewrite (removed_iff all o' Hn Ho'). split.
    + intros Hns o Ho Hk.
      destruct (String.ltb (created o) (created o')) eqn:Hlt; [|reflexivity].
      exfalso. apply Hns. exists o. split; [assumption|]. split; [|split].
      * intros ->. rewrite PyFacts.ltb_irrefl in Hlt. discriminate.
      * assumption.
      * now left.
    + intros Hleast (o & Ho & Hne & Hk & [Hlt|(Hc & j0 & i0 & Hlt & Hj0 & Hi0)]).
      * rewrite (Hleast o Ho Hk) in Hlt. discriminate.
      * pose proof (numbered_nth all i0 o' Hn Hi0) as H1.
        pose proof (numbered_nth all j o' Hn Hj) as H2.
        assert (Hlt' : j0 < j) by lia. now apply (Hfirst j0 o Hlt' Hj0 Hk).
Qed.

(** C2, as the code has it: of two records of a group created at the same
    time the later one fetched is placed in the remove list, and the
    first one fetched of the records created at some time is retained
    exactly when no record of the group was created before that time. *)
Theorem ties_resolved_in_fetch_order
    (fuel : nat) (c : client) (db : string) (w w1 : world)
    (all : list object) (m : dmap) :
  get_all_activities_with_duplicates fuel c db w = (Ret (all, m), w1) ->
  exists rm w2,
    identify_duplicates m w1 = (Ret rm, w2) /\ ties_settled all rm.
Proof.
  intros Hfetch. apply get_all_activities_spec in Hfetch.
  destruct Hfetch as [_ Hok]. destruct (Hok (all, m) eq_refl) as (Hn & Hm & _).
  simpl in Hn, Hm. subst m.
  destruct (identify_duplicates_spec (buckets all) w1) as (w2 & Hrun & _).
  exists (removals (buckets all)), w2. split; [assumption|].
  now apply removals_settle_ties.
Qed.

Lemma late_tie_settled :
  exists rm w2,
    identify_duplicates (snd Scenarios.tie_fetched) Scenarios.tie_world = (Ret rm, w2)
    /\ ties_settled (fst Scenarios.tie_fetched) rm.
Proof.
  apply (ties_resolved_in_fetch_order 1 Scenarios.late_tie "db" Scenarios.start).
  vm_compute. reflexivity.
Defined.

(** Against C2 as stated: records [b] and [c] of one group were created
    at the same time, [b] was fetched first, and [b] is in the remove list
    all the same, because a third record of the group is older. *)
Lemma first_of_late_tie_removed :
  get_all_activities_with_duplicates 1 Scenarios.late_tie "db" Scenarios.start
  = (Ret Scenarios.tie_fetched, Scenarios.tie_world)
  /\ nth_error (fst Scenarios.tie_fetched) 1 = Some Scenarios.object_b
  /\ nth_error (fst Scenarios.tie_fetched) 2 = Some Scenarios.object_c
  /\ key_of Scenarios.object_b = key_of Scenarios.object_c
  /\ created Scenarios.object_b = created Scenarios.object_c
  /\ fst (identify_duplicates (snd Scenarios.tie_fetched) Scenarios.tie_world)
     = Ret [Scenarios.object_b; Scenarios.object_c].
Proof. vm_compute. repeat split. Qed.

(** *** remove_duplicates *)

Lemma ncalls_app (t1 t2 : list event) : ncalls (t1 ++ t2) = ncalls t1 + ncalls t2.
Proof. unfold ncalls. now rewrite filter_app, length_app. Qed.

Lemma archived_app (t1 t2 : list event) :
  archived (t1 ++ t2) = (archived t1 ++ archived t2)%list.
Proof. unfold archived. apply flat_map_app. Qed.

Lemma for_duplicates_step (c : client) (total i : nat) (d : object)
    (rest : list object) (n : nat) (w : world) :
  for_duplicates c total i (d :: rest) n w
  = match pages_update c (ncalls (trace w)) (id (info d)) with
    | None =>
        for_duplicates c total (S i) rest (S n)
          (mkWorld (stdin w)
             (trace w ++ [Archive (id (info d));
                          Print (progress i total ++ "Archived: "
                                   ++ activity_name (info d) ++ " on "
                                   ++ date (info d))]))
    | Some e =>
        for_duplicates c total (S i) rest n
          (mkWorld (stdin w)
             (trace w ++ [Archive (id (info d));
                          Print (progress i total ++ "Error removing "
                                   ++ id (info d) ++ ": " ++ exn_msg e)]))
    end.
Proof.
  cbn [for_duplicates]. unfold bind, try_except, archive, print, emit, modify, ret.
  destruct (pages_update c (ncalls (trace w)) (id (info d)));
    cbn [stdin trace]; rewrite <- app_assoc; reflexivity.
Qed.

Lemma for_duplicates_spec (c : client) (total : nat) (dups : list object) :
  forall (i removed_count : nat) (w : world),
    exists w' t,
      for_duplicates c total i dups removed_count w
      = (Ret (removed_count
              + succeeded c (ncalls (trace w)) (map page_of_object dups)), w')
      /\ stdin w' = stdin w
      /\ trace w' = (trace w ++ t)%list
      /\ archived t = map page_of_object dups
      /\ forallb print_or_archive t = true.
Proof.
  induction dups as [|d dups IH]; intros i n w.
  - exists w, []. cbn [for_duplicates map succeeded].
    rewrite Nat.add_0_r, app_nil_r. repeat split.
  - rewrite for_duplicates_step. cbn [map succeeded]. unfold page_of_object at 1 3.
    destruct (pages_update c (ncalls (trace w)) (id (info d))) as [e|] eqn:Hupd.
    + match goal with
      | |- context [for_duplicates c total (S i) dups n ?w1] =>
          destruct (IH (S i) n w1) as (w' & t & Hrun & Hin & Htr & Harch & Hp)
      end.
      cbn [trace stdin] in *. rewrite ncalls_app in Hrun.
      change (ncalls [Archive (id (info d)); Print _]) with 1 in Hrun.
      rewrite Nat.add_1_r in Hrun.
      exists w'. eexists. split; [exact Hrun|].
      split; [assumption|]. split; [rewrite Htr, <- app_assoc; reflexivity|].
      split; [cbn [app]; unfold archived in *; cbn [flat_map app];
              now rewrite Harch|].
      cbn [app forallb]. rewrite Hp. reflexivity.
    + match goal with
      | |- context [for_duplicates c total (S i) dups (S n) ?w1] =>
          destruct (IH (S i) (S n) w1) as (w' & t & Hrun & Hin & Htr & Harch & Hp)
      end.
      cbn [trace stdin] in *. rewrite ncalls_app in Hrun.
      change (ncalls [Archive (id (info d)); Print _]) with 1 in Hrun.
      rewrite Nat.add_1_r in Hrun.
      exists w'. eexists. split.
      * rewrite Hrun. do 2 f_equal. lia.
      * split; [assumption|]. split; [rewrite Htr, <- app_assoc; reflexivity|].
        split; [cbn [app]; unfold archived in *; cbn [flat_map app];
                now rewrite Harch|].
        cbn [app forallb]. rewrite Hp. reflexivity.
Qed.

Lemma remove_duplicates_run (c : client) (dups : list object) (w : world) :
  exists w' t,
    remove_duplicates c dups w = (Ret tt, w')
    /\ stdin w' = stdin w
    /\ trace w' = (trace w ++ t)%list
    /\ archived t = map page_of_object dups
    /\ forallb print_or_archive t = true
    /\ match dups with
       | [] => t = [Print "No duplicates to remove!"]
       | _ :: _ =>
           exists t0,
             t = (t0 ++ [Print (completed
                                  (succeeded c (ncalls (trace w))
                                     (map page_of_object dups))
                                  (List.length dups))])%list
       end.
Proof.
  destruct dups as [|d dups].
  - eexists _, _. cbn [remove_duplicates map]. rewrite print_ret.
    cbn [stdin trace]. repeat split.
  - unfold remove_duplicates. rewrite (bind_run _ _ _ _ _ (print_ret _ w)).
    match goal with
    | |- context [bind (for_duplicates c ?n 1 ?l 0) _ ?w1] =>
        destruct (for_duplicates_spec c n l 1 0 w1)
          as (w' & t & Hrun & Hin & Htr & Harch & Hp)
    end.
    rewrite (bind_run _ _ _ _ _ Hrun), print_ret.
    cbn [trace stdin] in *.
    rewrite ncalls_app in Hrun. change (ncalls [Print _]) with 0 in Hrun.
    rewrite Nat.add_0_r in Hrun. cbn [Nat.add] in *.
    eexists _, _. split; [reflexivity|]. split; [assumption|].
    split; [rewrite Htr, <- !app_assoc; reflexivity|].
    split; [|split].
    + cbn [app]. unfold archived in *. cbn [flat_map app].
      rewrite flat_map_app, Harch. cbn [flat_map]. now rewrite !app_nil_r.
    + cbn [app forallb]. rewrite forallb_app, Hp. reflexivity.
    + rewrite ncalls_app. change (ncalls [Print _]) with 0. rewrite Nat.add_0_r.
      eexists (_ ++ t)%list. rewrite <- app_assoc. reflexivity.
Qed.

(** C7, as the code has it: the archive requests are issued one at a
    time, for the records of the list in their order and for every one of
    them, whatever requests fail, and the call returns normally.  For a
    list that is not empty the last line printed is the report
    [Completed! Successfully archived k/n duplicates], with [k] the number
    of requests that succeeded and [n] the length of the list.  For the
    empty list nothing is requested and no count is reported: the only
    line printed is [No duplicates to remove!]. *)
Theorem remove_duplicates_best_effort (c : client) (dups : list object) (w : world) :
  exists w' t,
    remove_duplicates c dups w = (Ret tt, w')
    /\ stdin w' = stdin w
    /\ trace w' = (trace w ++ t)%list
    /\ archived t = map page_of_object dups
    /\ forallb print_or_archive t = true
    /\ match dups with
       | [] => t = [Print "No duplicates to remove!"]
       | _ :: _ =>
           exists t0,
             t = (t0 ++ [Print (Py.nl ++ "Completed! Successfully archived "
                                  ++ Py.str_of_nat
                                       (succeeded c (ncalls (trace w))
                                          (map page_of_object dups))
                                  ++ "/" ++ Py.str_of_nat (List.length dups)
                                  ++ " duplicates")])%list
       end.
Proof.
  destruct (remove_duplicates_run c dups w)
    as (w' & t & Hrun & Hin & Htr & Harch & Hp & Hlast).
  exists w', t. repeat (split; [assumption|]).
  destruct dups as [|d dups]; [exact Hlast|].
  destruct Hlast as (t0 & Ht0). exists t0. exact Ht0.
Qed.

(** Against C7 as stated: for the empty list no count is reported; the
    call prints one line, which names no number, and returns. *)
Lemma empty_list_reports_no_count :
  remove_duplicates Scenarios.three_records [] Scenarios.start
  = (Ret tt, mkWorld [] [Print "No duplicates to remove!"]).
Proof. reflexivity. Qed.

(** *** The order of answers and requests *)

Lemma monitor_app (s : phase) (t1 t2 : list event) :
  monitor s (t1 ++ t2)
  = match monitor s t1 with
    | Some s1 => monitor s1 t2
    | None => None
    end.
Proof.
  revert s. induction t1 as [|e t1 IH]; intros s; [reflexivity|].
  cbn [app monitor]. destruct (step s e); [apply IH|reflexivity].
Qed.

Lemma monitor_stays (p : event -> bool) (s : phase) (t : list event) :
  (forall e, p e = true -> step s e = Some s) ->
  forallb p t = true -> monitor s t = Some s.
Proof.
  intros Hp. induction t as [|e t IH]; [reflexivity|].
  cbn [forallb monitor]. intros H. apply andb_prop in H. destruct H as [He Ht].
  rewrite (Hp e He). now apply IH.
Qed.

Lemma step_print (s : phase) (e : event) : is_print e = true -> step s e = Some s.
Proof. destruct e; try discriminate. reflexivity. Qed.

Lemma step_fetching (e : event) : print_or_query e = true -> step Fetching e = Some Fetching.
Proof. destruct e; try discriminate; reflexivity. Qed.

Lemma step_removing (e : event) :
  print_or_archive e = true -> step Removing e = Some Removing.
Proof. destruct e; try discriminate; reflexivity. Qed.

Lemma runs_refl (s : phase) (w : world) : runs s w s w.
Proof. exists []. now rewrite app_nil_r. Qed.

Lemma runs_trans (s1 s2 s3 : phase) (w1 w2 w3 : world) :
  runs s1 w1 s2 w2 -> runs s2 w2 s3 w3 -> runs s1 w1 s3 w3.
Proof.
  intros (t1 & Ht1 & Ho1) (t2 & Ht2 & Ho2). exists (t1 ++ t2)%list. split.
  - now rewrite Ht2, Ht1, app_assoc.
  - unfold ordered in *. now rewrite monitor_app, Ho1.
Qed.

Lemma runs_emits (p : event -> bool) (s : phase) (w w' : world) :
  (forall e, p e = true -> step s e = Some s) -> emits p w w' -> runs s w s w'.
Proof.
  intros Hp (_ & t & Ht & Hall). exists t. split; [assumption|].
  now apply (monitor_stays p).
Qed.

Lemma runs_print (s : phase) (line : string) (w : world) :
  runs s w s (mkWorld (stdin w) (trace w ++ [Print line])).
Proof. exists [Print line]. split; reflexivity. Qed.

Lemma runs_step (s s' : phase) (w w' : world) (t : list event) :
  trace w' = (trace w ++ t)%list -> monitor s t = Some s' -> runs s w s' w'.
Proof. intros Ht Hm. now exists t. Qed.

(** One more stretch of events after a run. *)
Lemma runs_snoc (s1 : phase) (i : list string) (s s2 : phase) (w : world)
    (T : list event) (i' : list string) (es : list event) :
  runs s w s1 (mkWorld i T) -> monitor s1 es = Some s2 ->
  runs s w s2 (mkWorld i' (T ++ es)).
Proof.
  intros (t & Ht & Ho) Hes. cbn [trace] in Ht. exists (t ++ es)%list. split.
  - cbn [trace]. now rewrite Ht, app_assoc.
  - unfold ordered in *. now rewrite monitor_app, Ho.
Qed.

(** The body of the [try] statement starts after an affirmative first
    answer; if it ends declined, it has returned. *)
Lemma main_try_ordered (fuel : nat) (c : client) (db : string)
    (w : world) (r : outcome unit) (w' : world) :
  main_try fuel c db w = (r, w') ->
  exists s, runs Fetching w s w' /\ (s = Declined -> r = Ret tt).
Proof.
  unfold main_try. intros Hrun. unfold bind at 1 in Hrun.
  destruct (get_all_activities_with_duplicates fuel c db w) as [[st|e|] w1] eqn:Hf;
    apply get_all_activities_spec in Hf; destruct Hf as [He _];
    apply (runs_emits print_or_query Fetching _ _ step_fetching) in He;
    try (inversion Hrun; subst; exists Fetching; split; [assumption|discriminate]).
  destruct (identify_duplicates_spec (snd st) w1) as (w2 & Hid & He2).
  apply (runs_emits is_print Fetching _ _ (step_print Fetching)) in He2.
  rewrite (bind_run _ _ _ _ _ Hid) in Hrun.
  pose proof (runs_trans _ _ _ _ _ _ He He2) as H12. clear He He2 Hid.
  destruct w2 as [i2 T2].
  destruct (removals (snd st)) as [|d rm].
  - rewrite print_ret in Hrun. cbn [stdin trace] in Hrun.
    inversion Hrun; subst. exists Fetching. split; [|discriminate].
    now apply (runs_snoc Fetching i2).
  - rewrite (bind_run _ _ _ _ _ (print_ret _ _)) in Hrun.
    unfold bind at 1 in Hrun. unfold input at 1 in Hrun. cbn [stdin trace] in Hrun.
    destruct i2 as [|answer rest].
    + inversion Hrun; subst. exists Fetching. split; [|discriminate].
      apply (runs_snoc Fetching []); [|reflexivity].
      now apply (runs_snoc Fetching []).
    + assert (Hread : runs Fetching w (if affirmative answer then Removing else Declined)
                        (mkWorld rest
                           ((T2 ++ [Print (Py.nl ++ "Found "
                                             ++ Py.str_of_nat (List.length (d :: rm))
                                             ++ " duplicate activities to remove.")])
                              ++ [Prompt "Proceed with removal? (yes/no): ";
                                  Read answer]))).
      { apply (runs_snoc Fetching (answer :: rest)); [|reflexivity].
        now apply (runs_snoc Fetching (answer :: rest)). }
      destruct (affirmative answer) eqn:Hyes; cbn [negb] in Hrun.
      * match type of Hrun with
        | bind (remove_duplicates c ?l) _ ?w3 = _ =>
            destruct (remove_duplicates_run c l w3)
              as (w4 & t & Hrm & _ & Htr & _ & Hp & _)
        end.
        rewrite (bind_run _ _ _ _ _ Hrm) in Hrun.
        rewrite (bind_run _ _ _ _ _ (print_ret _ w4)), print_ret in Hrun.
        destruct w4 as [i4 T4]. cbn [stdin trace] in *. subst T4.
        inversion Hrun; subst. exists Removing. split; [|discriminate].
        apply (runs_snoc Removing i4); [|reflexivity].
        apply (runs_snoc Removing i4); [|reflexivity].
        apply (runs_snoc Removing rest); [assumption|].
        apply (monitor_stays print_or_archive); [apply step_removing|assumption].
      * rewrite print_ret in Hrun. cbn [stdin trace] in Hrun.
        inversion Hrun; subst. exists Declined. split; [|reflexivity].
        now apply (runs_snoc Declined rest).
Qed.

Lemma main_except_ordered (s : phase) (e : exn) (w : world) :
  exists w', main_except e w = (Ret tt, w') /\ runs s w s w'.
Proof.
  unfold main_except. rewrite (bind_run _ _ _ _ _ (print_ret _ w)), print_ret.
  eexists. split; [reflexivity|]. eapply runs_trans; apply runs_print.
Qed.

(** A run of [main] keeps to the order of the phases, and a run that ends
    declined has returned. *)
Lemma main_ordered (fuel : nat) (notion_token database_id : option string)
    (Client : string -> client) (w : world) (r : outcome unit) (w' : world) :
  main fuel notion_token database_id Client w = (r, w') ->
  exists s, runs Unasked w s w' /\ (s = Declined -> r = Ret tt).
Proof.
  unfold main. intros Hrun. destruct w as [i0 T0].
  pose proof (runs_refl Unasked (mkWorld i0 T0)) as H0.
  destruct notion_token as [token|], database_id as [db|];
    try (rewrite print_ret in Hrun; inversion Hrun; subst; exists Unasked;
         split; [now apply (runs_snoc Unasked i0)|discriminate]).
  destruct (Py.truthy (Some token) && Py.truthy (Some db));
    [|rewrite print_ret in Hrun; inversion Hrun; subst; exists Unasked;
      split; [now apply (runs_snoc Unasked i0)|discriminate]].
  do 4 rewrite (bind_run _ _ _ _ _ (print_ret _ _)) in Hrun.
  cbn [stdin trace] in Hrun.
  unfold bind at 1 in Hrun. unfold input at 1 in Hrun. cbn [stdin trace] in Hrun.
  match type of Hrun with
  | context [mkWorld _ (?T ++ [Prompt _; Read _])] =>
      assert (H4 : runs Unasked (mkWorld i0 T0) Unasked (mkWorld i0 T))
        by (do 4 (apply (runs_snoc Unasked i0); [|reflexivity]); assumption)
  end.
  destruct i0 as [|answer rest].
  - inversion Hrun; subst. exists Unasked. split; [|discriminate].
    now apply (runs_snoc Unasked []).
  - destruct (affirmative answer) eqn:Hyes; cbn [negb] in Hrun.
    + match type of Hrun with
      | try_except _ _ ?w5 = _ =>
          assert (H5 : runs Unasked (mkWorld (answer :: rest) T0) Fetching w5)
            by (apply (runs_snoc Unasked (answer :: rest)); [assumption|];
                cbn [monitor step]; rewrite Hyes; reflexivity);
          remember w5 as w5' eqn:Hw5; clear Hw5
      end.
      unfold try_except in Hrun.
      destruct (main_try fuel (Client token) db w5') as [[[]|e|] w6] eqn:Htry;
        apply main_try_ordered in Htry; destruct Htry as (s & Hs & Hd).
      * inversion Hrun; subst. exists s. split; [|intros _; reflexivity].
        eapply runs_trans; eassumption.
      * destruct (main_except_ordered s e w6) as (w7 & Hex & H7).
        rewrite Hex in Hrun. inversion Hrun; subst. exists s.
        split; [|intros _; reflexivity].
        eapply runs_trans; [eassumption|]. eapply runs_trans; eassumption.
      * inversion Hrun; subst. exists s. split; [eapply runs_trans; eassumption|].
        intros Hdec. now apply Hd.
    + rewrite print_ret in Hrun. cbn [stdin trace] in Hrun.
      inversion Hrun; subst. exists Declined. split; [|reflexivity].
      apply (runs_snoc Declined rest); [|reflexivity].
      apply (runs_snoc Unasked (answer :: rest)); [assumption|].
      cbn [monitor step]. rewrite Hyes. reflexivity.
Qed.

(** *** What the order of the phases implies *)

Lemma monitor_declined (t : list event) (s : phase) :
  monitor Declined t = Some s -> s = Declined /\ forallb is_output t = true.
Proof.
  induction t as [|e t IH]; cbn [monitor forallb]; intros H.
  - inversion H. auto.
  - destruct e; cbn [step is_output andb] in *; try discriminate; now apply IH.
Qed.

Lemma monitor_removing (t : list event) (s : phase) :
  monitor Removing t = Some s ->
  s = Removing /\ forallb (fun e => is_output e || is_archive e) t = true.
Proof.
  induction t as [|e t IH]; cbn [monitor forallb]; intros H.
  - inversion H. auto.
  - destruct e; cbn [step is_output is_archive orb andb] in *; try discriminate;
      now apply IH.
Qed.

Lemma output_not_archived (p : event -> bool) (t : list event) :
  (forall e, p e = true -> is_archive e = false) ->
  forallb p t = true -> archived t = [].
Proof.
  intros Hp. induction t as [|e t IH]; [reflexivity|].
  cbn [forallb]. intros H. apply andb_prop in H. destruct H as [He Ht].
  unfold archived in *. cbn [flat_map]. rewrite (IH Ht).
  specialize (Hp e He). destruct e; try discriminate; reflexivity.
Qed.

Lemma is_output_not_archive (e : event) : is_output e = true -> is_archive e = false.
Proof. destruct e; try discriminate; reflexivity. Qed.

Lemma monitor_fetching (t : list event) (s : phase) :
  monitor Fetching t = Some s ->
  (s = Fetching /\ forallb (fun e => is_output e || is_query e) t = true)
  \/ exists a t2 t3,
       t = (t2 ++ Read a :: t3)%list
       /\ forallb (fun e => is_output e || is_query e) t2 = true
       /\ monitor (if affirmative a then Removing else Declined) t3 = Some s.
Proof.
  induction t as [|e t IH]; cbn [monitor forallb]; intros H.
  - inversion H. auto.
  - destruct e; cbn [step is_output is_query orb andb] in *; try discriminate.
    + destruct (IH H) as [?|(a & t2 & t3 & -> & H2 & H3)]; [now left|right].
      exists a, (Print line :: t2), t3. auto.
    + destruct (IH H) as [?|(a & t2 & t3 & -> & H2 & H3)]; [now left|right].
      exists a, (Prompt text :: t2), t3. auto.
    + right. exists line, [], t. auto.
    + destruct (IH H) as [?|(a & t2 & t3 & -> & H2 & H3)]; [now left|right].
      exists a, (Query database_id start_cursor :: t2), t3. auto.
Qed.

Lemma monitor_unasked (t : list event) (s : phase) :
  monitor Unasked t = Some s ->
  (s = Unasked /\ forallb is_output t = true)
  \/ exists a t1 t',
       t = (t1 ++ Read a :: t')%list
       /\ forallb is_output t1 = true
       /\ monitor (if affirmative a then Fetching else Declined) t' = Some s.
Proof.
  induction t as [|e t IH]; cbn [monitor forallb]; intros H.
  - inversion H. auto.
  - destruct e; cbn [step is_output andb] in *; try discriminate.
    + destruct (IH H) as [?|(a & t1 & t' & -> & H1 & H')]; [now left|right].
      exists a, (Print line :: t1), t'. auto.
    + destruct (IH H) as [?|(a & t1 & t' & -> & H1 & H')]; [now left|right].
      exists a, (Prompt text :: t1), t'. auto.
    + right. exists line, [], t. auto.
Qed.

Lemma archived_cons_read (a : string) (t : list event) :
  archived (Read a :: t) = archived t.
Proof. reflexivity. Qed.

Lemma query_or_output_not_archive (e : event) :
  is_output e || is_query e = true -> is_archive e = false.
Proof. destruct e; try discriminate; reflexivity. Qed.

(** Archive requests occur only in runs that reach the last phase, and
    such runs were confirmed twice. *)
Lemma ordered_archived (t : list event) (s : phase) :
  ordered Unasked t s -> archived t <> [] -> confirmed_twice t.
Proof.
  unfold ordered. intros Hm Harch.
  destruct (monitor_unasked t s Hm) as [[_ Hout]|(a1 & t1 & t' & -> & H1 & Hm')].
  { exfalso. apply Harch. now apply (output_not_archived is_output _ is_output_not_archive). }
  rewrite archived_app, (output_not_archived is_output t1 is_output_not_archive H1),
    archived_cons_read in Harch. cbn [app] in Harch.
  destruct (affirmative a1) eqn:Hyes1.
  2:{ exfalso. apply Harch. apply monitor_declined in Hm'. destruct Hm' as [_ Hout].
      now apply (output_not_archived is_output _ is_output_not_archive). }
  destruct (monitor_fetching t' s Hm') as [[_ Hout]|(a2 & t2 & t3 & -> & H2 & Hm3)].
  { exfalso. apply Harch.
    now apply (output_not_archived _ _ query_or_output_not_archive). }
  rewrite archived_app, (output_not_archived _ t2 query_or_output_not_archive H2),
    archived_cons_read in Harch. cbn [app] in Harch.
  destruct (affirmative a2) eqn:Hyes2.
  2:{ exfalso. apply Harch. apply monitor_declined in Hm3. destruct Hm3 as [_ Hout].
      now apply (output_not_archived is_output _ is_output_not_archive). }
  apply monitor_removing in Hm3. destruct Hm3 as [_ H3].
  exists a1, a2, t1, t2, t3. repeat split; assumption.
Qed.

Lemma monitor_not_removing (t : list event) (s s' : phase) :
  monitor s t = Some s' -> s' <> Removing -> archived t = [].
Proof.
  revert s. induction t as [|e t IH]; intros s Hm Hne; [reflexivity|].
  cbn [monitor] in Hm. destruct (step s e) as [s1|] eqn:Hstep; [|discriminate].
  destruct e; try (change (archived (_ :: t)) with (archived t); now apply (IH s1)).
  destruct s; try discriminate. inversion Hstep; subst.
  apply monitor_removing in Hm. destruct Hm. contradiction.
Qed.

(** An answer that is not affirmative ends the run declined, with nothing
    archived. *)
Lemma ordered_declined (t1 t2 : list event) (a : string) (s : phase) :
  ordered Unasked (t1 ++ Read a :: t2) s -> affirmative a = false ->
  s = Declined /\ archived (t1 ++ Read a :: t2) = [].
Proof.
  unfold ordered. rewrite monitor_app. intros Hm Hno.
  destruct (monitor Unasked t1) as [s1|] eqn:H1; [|discriminate].
  cbn [monitor] in Hm.
  assert (Hs1 : step s1 (Read a) = Some Declined /\ s1 <> Removing).
  { destruct s1; cbn [step] in *; try discriminate; rewrite Hno;
      split; try reflexivity; discriminate. }
  destruct Hs1 as [Hstep Hne]. rewrite Hstep in Hm.
  apply monitor_declined in Hm. destruct Hm as [-> Hout]. split; [reflexivity|].
  rewrite archived_app, archived_cons_read, (monitor_not_removing t1 _ _ H1 Hne).
  now apply (output_not_archived is_output _ is_output_not_archive).
Qed.

(** C8: in every run of [main], if any archive request was issued then the
    user answered the first prompt affirmatively before anything was
    fetched and the second prompt affirmatively before the first archive
    request; and if an answer was not affirmative the run returned without
    any archive request. *)
Theorem archive_only_after_two_confirmations
    (fuel : nat) (notion_token database_id : option string)
    (Client : string -> client) (w : world) (r : outcome unit) (w' : world) :
  main fuel notion_token database_id Client w = (r, w') ->
  exists t,
    trace w' = (trace w ++ t)%list
    /\ (archived t <> [] -> confirmed_twice t)
    /\ (forall t1 a t2,
          t = (t1 ++ Read a :: t2)%list -> affirmative a = false ->
          r = Ret tt /\ archived t = []).
Proof.
  intros Hrun. apply main_ordered in Hrun.
  destruct Hrun as (s & (t & Ht & Ho) & Hdec).
  exists t. split; [assumption|]. split.
  - now apply (ordered_archived t s).
  - intros t1 a t2 -> Hno. destruct (ordered_declined t1 t2 a s Ho Hno) as [Hs Ha].
    split; [now apply Hdec|assumption].
Qed.

(** The run of the scenario: both answers affirmative, one page archived. *)
Lemma three_records_confirmed :
  exists t,
    trace (snd Scenarios.three_run) = (trace Scenarios.three_answers ++ t)%list
    /\ (archived t <> [] -> confirmed_twice t)
    /\ (forall t1 a t2,
          t = (t1 ++ Read a :: t2)%list -> affirmative a = false ->
          fst Scenarios.three_run = Ret tt /\ archived t = []).
Proof.
  apply (archive_only_after_two_confirmations 2 (Some "secret") (Some "db")
           (fun _ => Scenarios.three_records)).
  vm_compute. reflexivity.
Defined.

End DuplicateResolver.


(** ** base64: decoding undoes encoding *)

Module Base64Facts.
Import Base64.

Lemma undigit_digit (s : sextet) : undigit (digit s) = Some s.
Proof.
  destruct s as [[[[[b5 b4] b3] b2] b1] b0].
  destruct b5, b4, b3, b2, b1, b0; vm_compute; reflexivity.
Qed.

Lemma digit_not_pad (s : sextet) : Ascii.eqb (digit s) pad = false.
Proof.
  destruct s as [[[[[b5 b4] b3] b2] b1] b0].
  destruct b5, b4, b3, b2, b1, b0; vm_compute; reflexivity.
Qed.

Lemma digit_is_ascii (s : sextet) : Nat.ltb (nat_of_ascii (digit s)) 128 = true.
Proof.
  destruct s as [[[[[b5 b4] b3] b2] b1] b0].
  destruct b5, b4, b3, b2, b1, b0; vm_compute; reflexivity.
Qed.

Lemma byte_of_bits (x : byte) (x0 x1 x2 x3 x4 x5 x6 x7 : bool) :
  Byte.to_bits x = (x0, (x1, (x2, (x3, (x4, (x5, (x6, x7))))))) ->
  byte_of x7 x6 x5 x4 x3 x2 x1 x0 = x.
Proof. intros H. unfold byte_of. rewrite <- H. apply Byte.of_bits_to_bits. Qed.

(** One step of the decoder on a digit. *)
Lemma a2b_digit (q : quad) (pads n : nat) (s : sextet) (r : string) :
  a2b_base64 q pads n (String (digit s) r)
  = let '(c5, c4, c3, c2, c1, c0) := s in
    match q with
    | Q0 => a2b_base64 (Q1 s) 0 n r
    | Q1 (l5, l4, l3, l2, l1, l0) =>
        cons_byte (byte_of l5 l4 l3 l2 l1 l0 c5 c4)
          (a2b_base64 (Q2 c3 c2 c1 c0) 0 (S n) r)
    | Q2 l3 l2 l1 l0 =>
        cons_byte (byte_of l3 l2 l1 l0 c5 c4 c3 c2) (a2b_base64 (Q3 c1 c0) 0 (S n) r)
    | Q3 l1 l0 =>
        cons_byte (byte_of l1 l0 c5 c4 c3 c2 c1 c0) (a2b_base64 Q0 0 (S n) r)
    end.
Proof.
  cbn [a2b_base64]. rewrite digit_not_pad, undigit_digit.
  destruct s as [[[[[c5 c4] c3] c2] c1] c0]. reflexivity.
Qed.

Lemma a2b_encode_upto (n : nat) :
  forall (bs : list byte) (pads written : nat),
    List.length bs <= n -> a2b_base64 Q0 pads written (b64encode bs) = inr bs.
Proof.
  induction n as [|n IH]; intros bs pads written Hlen.
  - destruct bs; [reflexivity|simpl in Hlen; lia].
  - destruct bs as [|x [|y [|z rest]]]; [reflexivity|..]; cbn [b64encode].
    + destruct (Byte.to_bits x) as (x0 & x1 & x2 & x3 & x4 & x5 & x6 & x7) eqn:Hx.
      rewrite !a2b_digit. cbn [a2b_base64 quad_pos Nat.leb Nat.add andb].
      rewrite (byte_of_bits x _ _ _ _ _ _ _ _ Hx). reflexivity.
    + destruct (Byte.to_bits x) as (x0 & x1 & x2 & x3 & x4 & x5 & x6 & x7) eqn:Hx.
      destruct (Byte.to_bits y) as (y0 & y1 & y2 & y3 & y4 & y5 & y6 & y7) eqn:Hy.
      rewrite !a2b_digit. cbn [a2b_base64 quad_pos Nat.leb Nat.add andb].
      rewrite (byte_of_bits x _ _ _ _ _ _ _ _ Hx), (byte_of_bits y _ _ _ _ _ _ _ _ Hy).
      reflexivity.
    + destruct (Byte.to_bits x) as (x0 & x1 & x2 & x3 & x4 & x5 & x6 & x7) eqn:Hx.
      destruct (Byte.to_bits y) as (y0 & y1 & y2 & y3 & y4 & y5 & y6 & y7) eqn:Hy.
      destruct (Byte.to_bits z) as (z0 & z1 & z2 & z3 & z4 & z5 & z6 & z7) eqn:Hz.
      rewrite !a2b_digit. cbv beta iota.
      rewrite (byte_of_bits x _ _ _ _ _ _ _ _ Hx), (byte_of_bits y _ _ _ _ _ _ _ _ Hy),
        (byte_of_bits z _ _ _ _ _ _ _ _ Hz).
      rewrite IH by (simpl in Hlen; lia). reflexivity.
Qed.

Lemma encode_is_ascii_upto (n : nat) :
  forall bs : list byte, List.length bs <= n -> is_ascii_text (b64encode bs) = true.
Proof.
  unfold is_ascii_text.
  induction n as [|n IH]; intros bs Hlen.
  - destruct bs; [reflexivity|simpl in Hlen; lia].
  - destruct bs as [|x [|y [|z rest]]]; [reflexivity|..]; cbn [b64encode].
    + destruct (Byte.to_bits x) as (x0 & x1 & x2 & x3 & x4 & x5 & x6 & x7).
      cbn [list_ascii_of_string forallb]. rewrite !digit_is_ascii. reflexivity.
    + destruct (Byte.to_bits x) as (x0 & x1 & x2 & x3 & x4 & x5 & x6 & x7).
      destruct (Byte.to_bits y) as (y0 & y1 & y2 & y3 & y4 & y5 & y6 & y7).
      cbn [list_ascii_of_string forallb]. rewrite !digit_is_ascii. reflexivity.
    + destruct (Byte.to_bits x) as (x0 & x1 & x2 & x3 & x4 & x5 & x6 & x7).
      destruct (Byte.to_bits y) as (y0 & y1 & y2 & y3 & y4 & y5 & y6 & y7).
      destruct (Byte.to_bits z) as (z0 & z1 & z2 & z3 & z4 & z5 & z6 & z7).
      cbn [list_ascii_of_string forallb]. rewrite !digit_is_ascii.
      rewrite IH by (simpl in Hlen; lia). reflexivity.
Qed.

(** [b64decode(b64encode(bs)) == bs] for every byte string. *)
Lemma b64decode_b64encode (bs : list byte) : b64decode (b64encode bs) = inr bs.
Proof.
  unfold b64decode.
  rewrite (encode_is_ascii_upto (List.length bs) bs (Nat.le_refl _)).
  apply (a2b_encode_upto (List.length bs)). apply Nat.le_refl.
Qed.

End Base64Facts.


(** ** The session manager *)

Module SessionManager.
Import GarminSessionAuth SessionSpec.

Lemma logged_nil (s : state) : logged s [] = s.
Proof. destruct s. unfold logged. cbn. now rewrite app_nil_r. Qed.

(** *** Export without a session *)

(** C10: when no session file exists, [export_session_for_github] raises
    [No session file exists. Login first.] before it reads or prints
    anything, and leaves the state as it was. *)
Theorem export_without_session_raises (s : state) :
  session_file s = None ->
  export_session_for_github s = (Raise no_session_error, s).
Proof.
  intros Hnone. unfold export_session_for_github, bind, get. now rewrite Hnone.
Qed.

Lemma export_without_session_blank :
  export_session_for_github blank = (Raise no_session_error, blank).
Proof. apply (export_without_session_raises blank). reflexivity. Defined.

(** *** Fresh login needs credentials *)

Lemma missing_credentials (s : state) :
  Py.truthy (self_email s) && Py.truthy (self_password s) = false ->
  forall E, _fresh_login E s = (Raise credentials_error, s).
Proof.
  intros Hmiss E. unfold _fresh_login, bind, get.
  destruct (self_email s), (self_password s); try reflexivity.
  now rewrite Hmiss.
Qed.


Lemma reuse_without_session (E : env) (s : state) :
  session_file s = None ->
  _login_with_session E s
  = (Raise (mkExn "FileNotFoundError" "No such file or directory"),
     logged s [Print "Loading existing session..."]).
Proof.
  intros Hnone. destruct s. cbn [session_file] in Hnone. subst. reflexivity.
Qed.

(** *** What saving and logging in do to the state *)

Lemma save_session_run (E : env) (s : state) :
  _save_session E s = (Ret tt, saved E s).
Proof.
  destruct s as [em pw path g f clk tr].
  unfold _save_session, saved, try_except, bind, get, lift, datetime_now,
    write_session_file, chmod, fail_if, set_file, print, emit, modify, ret, raise,
    logged, with_file, tokens_of, pickled, mode_when_opened, save_warning.
  cbn [self_email self_password self_session_file self_garmin session_file clock trace].
  destruct (garth_dumps E _) as [e|blob]; [reflexivity|].
  destruct (open_error E) as [[e|e written]|]; [reflexivity|reflexivity|].
  destruct (chmod_error E) as [e|]; reflexivity.
Qed.

Lemma fresh_login_run (E : env) (s : state) (email password : string) :
  self_email s = Some email -> self_password s = Some password ->
  Py.truthy (self_email s) && Py.truthy (self_password s) = true ->
  _fresh_login E s
  = match garmin_login E (ncalls (trace s)) email password with
    | inl e => (Raise e, logging_in E s email password)
    | inr tokens =>
        (Ret (logged_in email password tokens),
         saved E (with_garmin (logging_in E s email password)
                    (logged_in email password tokens)))
    end.
Proof.
  intros Hem Hpw Hboth. unfold _fresh_login. unfold bind at 1. unfold get at 1.
  rewrite Hboth, Hem, Hpw.
  destruct s as [em pw path g f clk tr].
  unfold bind at 1. unfold print, emit, modify. cbn [fst snd].
  unfold bind at 1. unfold set_garmin at 1, modify.
  unfold bind at 1. unfold remote at 1.
  cbn [self_email self_password self_session_file self_garmin session_file clock trace].
  assert (Hn : ncalls (tr ++ [Print "Performing fresh login..."]) = ncalls tr).
  { unfold ncalls. rewrite filter_app, length_app. cbn. lia. }
  rewrite Hn.
  destruct (garmin_login E (ncalls tr) email password) as [e|tokens].
  - unfold logging_in, called, with_garmin, logged.
    cbn [self_email self_password self_session_file self_garmin session_file clock trace].
    rewrite Hn. reflexivity.
  - unfold bind at 1. unfold set_garmin at 1, modify.
    cbn [self_email self_password self_session_file self_garmin session_file clock trace].
    rewrite (bind_run _ _ _ _ _ (save_session_run E _)).
    unfold ret, logging_in, called, with_garmin, logged.
    cbn [self_email self_password self_session_file self_garmin session_file clock trace].
    rewrite Hn. reflexivity.
Qed.

(** *** Reusing a session *)

Lemma ncalls_print (t : list event) (line : string) :
  ncalls (t ++ [Print line]) = ncalls t.
Proof. unfold ncalls. rewrite filter_app, length_app. cbn. lia. Qed.

Lemma reuse_run (E : env) (s : state) (f : file) (sd : session_data) :
  session_file s = Some f -> pickle_load E (contents f) = inr sd ->
  _login_with_session E s
  = if too_old (session_age s sd) then
      (Raise (too_old_error (session_age s sd)), logged s [loading])
    else
      match garth_loads E (session sd) with
      | Some e => (Raise e, with_garmin (logged s [loading]) (mkGarmin None None))
      | None =>
          let s1 := called E (with_garmin (logged s [loading]) (restored sd))
                      (Probe (Some (session sd))) in
          match get_full_name E (ncalls (trace s)) (Some (session sd)) with
          | inr _ => (Ret (restored sd), logged s1 [session_valid (session_age s sd)])
          | inl e => (Raise (probe_error e), s1)
          end
      end.
Proof.
  intros Hfile Hload. destruct s as [em pw path g sf clk tr].
  cbn [session_file] in Hfile. subst sf.
  unfold _login_with_session. unfold bind at 1. unfold print, emit, modify.
  unfold bind at 1. unfold read_session_file.
  cbn [self_email self_password self_session_file self_garmin session_file clock trace].
  unfold bind at 1. rewrite Hload. unfold lift, ret at 1.
  unfold bind at 1. unfold datetime_now.
  cbn [self_email self_password self_session_file self_garmin session_file clock trace].
  unfold session_age. cbn [clock].
  destruct (too_old (clk - timestamp sd)%Z); [reflexivity|].
  unfold bind at 1. unfold set_garmin at 1, modify.
  unfold bind at 1. unfold fail_if.
  destruct (garth_loads E (session sd)) as [e|]; [reflexivity|].
  unfold ret at 1. unfold bind at 1. unfold set_garmin, modify.
  unfold try_except_class, try_except. unfold bind at 1. unfold remote.
  cbn [self_email self_password self_session_file self_garmin session_file clock
         trace garth].
  rewrite ncalls_print.
  destruct (get_full_name E (ncalls tr) (Some (session sd))) as [e|name].
  - unfold probe_error, raise, called, with_garmin, logged, loading, restored.
    cbn [self_email self_password self_session_file self_garmin session_file clock trace].
    rewrite ncalls_print.
    destruct (String.eqb (exn_class e) "GarminConnectAuthenticationError"); reflexivity.
  - unfold bind, print, emit, modify, ret, called, with_garmin, logged, loading,
      restored, session_valid.
    cbn [self_email self_password self_session_file self_garmin session_file clock trace].
    rewrite ncalls_print. reflexivity.
Qed.

Lemma too_old_iff (age : timedelta) :
  too_old age = true <-> (timedelta_days 360 < age)%Z.
Proof. unfold too_old. apply Z.ltb_lt. Qed.

Lemma not_too_old_iff (age : timedelta) :
  too_old age = false <-> (age <= timedelta_days 360)%Z.
Proof. unfold too_old. rewrite Z.ltb_ge. reflexivity. Qed.

Lemma logged_logged (s : state) (es es' : list event) :
  logged (logged s es) es' = logged s (es ++ es').
Proof. unfold logged. cbn. now rewrite app_assoc. Qed.

Lemma print_run (line : string) (s : state) :
  print line s = (Ret tt, logged s [Print line]).
Proof. reflexivity. Qed.

Lemma login_run (E : env) (s : state) (f : file) :
  session_file s = Some f ->
  login E false s
  = match _login_with_session E s with
    | (Raise e, s1) =>
        _fresh_login E
          (logged s1 [Print ("Session login failed: " ++ exn_msg e);
                      Print "Attempting fresh login..."])
    | r => r
    end.
Proof.
  intros Hfile. unfold login, bind at 1, get. rewrite Hfile. cbn [negb].
  unfold try_except. destruct (_login_with_session E s) as [[g|e|] s1]; try reflexivity.
  rewrite (bind_run _ _ _ _ _ (print_run _ s1)).
  rewrite (bind_run _ _ _ _ _ (print_run _ _)). now rewrite logged_logged.
Qed.

Lemma expired_login (E : env) (s : state) (f : file) (sd : session_data) :
  session_file s = Some f -> pickle_load E (contents f) = inr sd ->
  (timedelta_days 360 < session_age s sd)%Z ->
  _login_with_session E s = (Raise (too_old_error (session_age s sd)), logged s [loading])
  /\ login E false s = _fresh_login E (logged s (expired_lines (session_age s sd))).
Proof.
  intros Hfile Hload Hold. apply too_old_iff in Hold.
  assert (Hreuse : _login_with_session E s
                   = (Raise (too_old_error (session_age s sd)), logged s [loading]))
    by (rewrite (reuse_run E s f sd Hfile Hload), Hold; reflexivity).
  split; [assumption|].
  rewrite (login_run E s f Hfile), Hreuse, logged_logged. reflexivity.
Qed.

(** C3: for a persisted session with stored timestamp [t], reuse computes
    the age as the clock reading minus [t].  When the age exceeds 360 days
    reuse raises [Session too old] and [login] goes on to the fresh
    login.  When the age is at most 360 days and the probe succeeds,
    reuse returns the client rebuilt from the stored blob, and so does
    [login]; the probe is only called on a blob [garth] could load, and a
    blob that does not load makes reuse raise before any probe. *)
Theorem session_reuse_by_age (E : env) (s : state) (f : file) (sd : session_data) :
  session_file s = Some f -> pickle_load E (contents f) = inr sd ->
  ((timedelta_days 360 < session_age s sd)%Z ->
   _login_with_session E s
   = (Raise (too_old_error (session_age s sd)), logged s [loading])
   /\ login E false s = _fresh_login E (logged s (expired_lines (session_age s sd))))
  /\ ((session_age s sd <= timedelta_days 360)%Z ->
      forall name,
        get_full_name E (ncalls (trace s)) (Some (session sd)) = inr name ->
        match garth_loads E (session sd) with
        | None =>
            exists s',
              _login_with_session E s = (Ret (restored sd), s')
              /\ login E false s = (Ret (restored sd), s')
              /\ self_garmin s' = Some (restored sd)
              /\ session_file s' = Some f
              /\ trace s' = (trace s ++ [loading; Probe (Some (session sd));
                                         session_valid (session_age s sd)])%list
        | Some e =>
            _login_with_session E s
            = (Raise e, with_garmin (logged s [loading]) (mkGarmin None None))
        end).
Proof.
  intros Hfile Hload. split.
  - now apply (expired_login E s f sd).
  - intros Hyoung name Hprobe. apply not_too_old_iff in Hyoung.
    pose proof (reuse_run E s f sd Hfile Hload) as Hrun.
    rewrite Hyoung in Hrun.
    destruct (garth_loads E (session sd)) as [e|]; [assumption|].
    cbv zeta in Hrun. rewrite Hprobe in Hrun.
    eexists. split; [exact Hrun|]. split; [|split; [|split]].
    + rewrite (login_run E s f Hfile), Hrun. reflexivity.
    + reflexivity.
    + cbn [session_file logged called with_garmin]. assumption.
    + cbn [trace logged called with_garmin]. rewrite <- !app_assoc. reflexivity.
Qed.

(** A session file 400 days old is refused, one 10 days old is reused. *)
Lemma reuse_at_400_and_at_10_days :
  login fair_weather false (with_session_at (400 * day)%Z)
  = _fresh_login fair_weather
      (logged (with_session_at (400 * day)%Z) (expired_lines (400 * day)%Z))
  /\ fst (login fair_weather false (with_session_at (10 * day)%Z))
     = Ret (restored old_session).
Proof.
  split.
  - destruct (session_reuse_by_age fair_weather (with_session_at (400 * day)%Z)
                old_file old_session eq_refl eq_refl) as [Hold _].
    destruct (Hold eq_refl) as [_ Hlogin]. exact Hlogin.
  - destruct (session_reuse_by_age fair_weather (with_session_at (10 * day)%Z)
                old_file old_session eq_refl eq_refl) as [_ Hyoung].
    assert (Hle : (session_age (with_session_at (10 * day)%Z) old_session
                   <= timedelta_days 360)%Z) by (vm_compute; discriminate).
    destruct (Hyoung Hle "Full Name" eq_refl) as (s' & _ & Hlogin & _).
    rewrite Hlogin. reflexivity.
Defined.

(** *** A fresh login never probes *)

Lemma saved_extends (E : env) (s : state) :
  exists es, trace (saved E s) = (trace s ++ es)%list /\ no_probe es.
Proof.
  unfold saved.
  destruct (garth_dumps E (tokens_of s)); [|destruct (open_error E) as [[e|e n]|];
    [| |destruct (chmod_error E)]]; eexists; split; reflexivity.
Qed.

Lemma credentials_present (s : state) :
  Py.truthy (self_email s) && Py.truthy (self_password s) = true ->
  exists email password, self_email s = Some email /\ self_password s = Some password.
Proof.
  intros H. apply andb_prop in H. destruct H as [H1 H2].
  destruct (self_email s) as [email|], (self_password s) as [password|];
    cbn in H1, H2; try discriminate; eauto.
Qed.

Lemma fresh_login_extends (E : env) (s : state) (r : outcome Garmin) (s' : state) :
  _fresh_login E s = (r, s') ->
  exists es, trace s' = (trace s ++ es)%list /\ no_probe es.
Proof.
  intros Hrun.
  destruct (Py.truthy (self_email s) && Py.truthy (self_password s)) eqn:Hboth.
  - destruct (credentials_present s Hboth) as (email & password & Hem & Hpw).
    rewrite (fresh_login_run E s email password Hem Hpw Hboth) in Hrun.
    destruct (garmin_login E (ncalls (trace s)) email password) as [e|tokens];
      inversion Hrun; subst.
    + exists [Print "Performing fresh login..."; Login email password].
      split; [|reflexivity]. cbn [trace logging_in called with_garmin logged].
      now rewrite <- app_assoc.
    + destruct (saved_extends E (with_garmin (logging_in E s email password)
                                   (logged_in email password tokens)))
        as (es & Hes & Hnp).
      exists ([Print "Performing fresh login..."; Login email password] ++ es)%list.
      split.
      * rewrite Hes. cbn [trace logging_in called with_garmin logged].
        now rewrite <- !app_assoc.
      * unfold no_probe in *. now rewrite forallb_app, Hnp.
  - rewrite (missing_credentials s Hboth E) in Hrun. inversion Hrun; subst.
    exists []. split; [now rewrite app_nil_r|reflexivity].
Qed.

(** C4: when the persisted session is more than 360 days old, [login]
    without [force_refresh] issues no liveness probe: all it does after
    reading the file is the fresh login, preceded by the three lines it
    prints. *)
Theorem expired_session_is_not_probed
    (E : env) (s : state) (f : file) (sd : session_data)
    (r : outcome Garmin) (s' : state) :
  session_file s = Some f -> pickle_load E (contents f) = inr sd ->
  (timedelta_days 360 < session_age s sd)%Z ->
  login E false s = (r, s') ->
  _fresh_login E (logged s (expired_lines (session_age s sd))) = (r, s')
  /\ exists es, trace s' = (trace s ++ es)%list /\ no_probe es.
Proof.
  intros Hfile Hload Hold Hrun.
  destruct (expired_login E s f sd Hfile Hload Hold) as [_ Hlogin].
  rewrite Hlogin in Hrun. split; [assumption|].
  apply fresh_login_extends in Hrun. destruct Hrun as (es & Hes & Hnp).
  exists (expired_lines (session_age s sd) ++ es)%list. split.
  - rewrite Hes. cbn [trace logged]. now rewrite app_assoc.
  - unfold no_probe in *. now rewrite forallb_app, Hnp.
Qed.

(** The session of 400 days: [login] logs in afresh and never probes. *)
Lemma session_of_400_days_is_not_probed :
  _fresh_login fair_weather
    (logged (with_session_at (400 * day)%Z)
       (expired_lines (session_age (with_session_at (400 * day)%Z) old_session)))
  = (fst expired_run, snd expired_run)
  /\ exists es,
       trace (snd expired_run) = (trace (with_session_at (400 * day)%Z) ++ es)%list
       /\ no_probe es.
Proof.
  apply (expired_session_is_not_probed fair_weather (with_session_at (400 * day)%Z)
           old_file old_session (fst expired_run) (snd expired_run)).
  - reflexivity.
  - reflexivity.
  - reflexivity.
  - vm_compute. reflexivity.
Defined.

(** *** What a fresh login leaves in the session file *)

Lemma fresh_login_persists (E : env) (s : state) (g : Garmin) (s' : state) :
  _fresh_login E s = (Ret g, s') ->
  exists email password tokens,
    self_email s = Some email /\ self_password s = Some password
    /\ garmin_login E (ncalls (trace s)) email password = inr tokens
    /\ g = logged_in email password tokens
    /\ self_garmin s' = Some g
    /\ clock s' = (clock s + call_duration E (ncalls (trace s)))%Z
    /\ session_persisted E s s' tokens.
Proof.
  intros Hrun.
  destruct (Py.truthy (self_email s) && Py.truthy (self_password s)) eqn:Hboth;
    [|rewrite (missing_credentials s Hboth E) in Hrun; discriminate].
  destruct (credentials_present s Hboth) as (email & password & Hem & Hpw).
  rewrite (fresh_login_run E s email password Hem Hpw Hboth) in Hrun.
  destruct (garmin_login E (ncalls (trace s)) email password) as [e|tokens] eqn:Hlogin;
    [discriminate|].
  inversion Hrun; subst. exists email, password, tokens.
  repeat (split; [reflexivity || assumption|]).
  assert (Hn : ncalls (trace s ++ [Print "Performing fresh login..."]) = ncalls (trace s))
    by apply ncalls_print.
  unfold session_persisted, saved, tokens_of, pickled, mode_when_opened.
  cbn [self_garmin with_garmin logged_in garth].
  destruct (garth_dumps E (Some tokens)) as [e|blob];
    [|destruct (open_error E) as [[e|e written]|];
      [| |destruct (chmod_error E) as [e|]]];
    cbn [self_garmin clock session_file trace self_email logged with_file with_garmin
           logging_in called];
    rewrite ?Hn; repeat split; try reflexivity; eexists; reflexivity.
Qed.

Lemma fresh_login_returns (E : env) (s : state) (email password tokens : string) :
  self_email s = Some email -> self_password s = Some password ->
  Py.truthy (self_email s) && Py.truthy (self_password s) = true ->
  garmin_login E (ncalls (trace s)) email password = inr tokens ->
  _fresh_login E s
  = (Ret (logged_in email password tokens),
     saved E (with_garmin (logging_in E s email password)
                (logged_in email password tokens))).
Proof.
  intros Hem Hpw Hboth Hlogin.
  now rewrite (fresh_login_run E s email password Hem Hpw Hboth), Hlogin.
Qed.

(** C9, as the code has it: with credentials and a login request that is
    answered, the fresh login returns the client whether or not saving the
    session raises; and a fresh login that returns has logged in at the
    remote service, and then saved the session unless a step of saving
    raised.  When no step raised, the session file holds the pickle of the
    new token text, the time at which the login request was answered and
    the account's email, whatever it held before, and its mode is
    [0o600].  When serialising the tokens or opening the file raised, the
    file is as it was; when writing raised, the file was emptied and holds
    the part of the pickle that got out; when only [chmod] raised, the
    file has the new contents and the mode it was opened with.  In these
    cases a warning is the last line printed. *)
Theorem fresh_login_saves_session (E : env) (s : state) :
  (forall email password tokens,
      self_email s = Some email -> self_password s = Some password ->
      Py.truthy (self_email s) && Py.truthy (self_password s) = true ->
      garmin_login E (ncalls (trace s)) email password = inr tokens ->
      exists s', _fresh_login E s = (Ret (logged_in email password tokens), s'))
  /\ (forall g s',
        _fresh_login E s = (Ret g, s') ->
        exists email password tokens,
          self_email s = Some email /\ self_password s = Some password
          /\ garmin_login E (ncalls (trace s)) email password = inr tokens
          /\ g = logged_in email password tokens
          /\ self_garmin s' = Some g
          /\ clock s' = (clock s + call_duration E (ncalls (trace s)))%Z
          /\ session_persisted E s s' tokens).
Proof.
  split.
  - intros email password tokens Hem Hpw Hboth Hlogin. eexists.
    apply (fresh_login_returns E s email password tokens Hem Hpw Hboth Hlogin).
  - intros g s'. apply fresh_login_persists.
Qed.

(** A fresh login in fair weather replaces the old session file. *)
Lemma fresh_login_in_fair_weather :
  exists email password tokens,
    self_email (with_session_at 0%Z) = Some email
    /\ self_password (with_session_at 0%Z) = Some password
    /\ garmin_login fair_weather (ncalls (trace (with_session_at 0%Z))) email password
       = inr tokens
    /\ logged_in "me@example.org" "secret" "fresh-tokens" = logged_in email password tokens
    /\ self_garmin (snd (_fresh_login fair_weather (with_session_at 0%Z)))
       = Some (logged_in "me@example.org" "secret" "fresh-tokens")
    /\ clock (snd (_fresh_login fair_weather (with_session_at 0%Z)))
       = (clock (with_session_at 0%Z)
          + call_duration fair_weather (ncalls (trace (with_session_at 0%Z))))%Z
    /\ session_persisted fair_weather (with_session_at 0%Z)
         (snd (_fresh_login fair_weather (with_session_at 0%Z))) tokens.
Proof.
  apply (proj2 (fresh_login_saves_session fair_weather (with_session_at 0%Z))).
  vm_compute. reflexivity.
Defined.

(** Against C9 as stated: on a disk that cannot be written the fresh login
    returns the client, and the session file still holds the old bytes,
    which are not the pickle of the new session. *)
Lemma fresh_login_on_read_only_disk :
  fst (_fresh_login read_only_disk (with_session_at 0%Z))
  = Ret (logged_in "me@example.org" "secret" "fresh-tokens")
  /\ session_file (snd (_fresh_login read_only_disk (with_session_at 0%Z)))
     = Some old_file
  /\ contents old_file
     <> pickle_dump read_only_disk
          (mkSession "fresh-tokens"
             (clock (snd (_fresh_login read_only_disk (with_session_at 0%Z))))
             (Some "me@example.org")).
Proof. vm_compute. repeat split. discriminate. Qed.

(** *** Export and import *)

Lemma export_run (s : state) (f : file) :
  session_file s = Some f ->
  export_session_for_github s
  = (Ret (Base64.b64encode (contents f)),
     logged s (export_lines (Base64.b64encode (contents f)))).
Proof.
  intros Hfile. destruct s as [em pw path g sf clk tr].
  cbn [session_file] in Hfile. subst sf.
  unfold export_session_for_github, bind, get, read_session_file, print, emit, modify,
    ret, logged, export_lines.
  cbn [self_email self_password self_session_file self_garmin session_file clock trace
         contents].
  rewrite <- !app_assoc. reflexivity.
Qed.

Lemma import_run (E : env) (text : string) (s : state) :
  import_session_from_github E text s
  = match Base64.b64decode text with
    | inl e => (Raise e, s)
    | inr data =>
        match open_error E with
        | Some (OnOpen e) => (Raise e, s)
        | Some (OnWrite e written) =>
            (Raise e, with_file s (mkFile (firstn written data) (mode_when_opened E s)))
        | None =>
            match chmod_error E with
            | Some e => (Raise e, with_file s (mkFile data (mode_when_opened E s)))
            | None =>
                (Ret tt,
                 logged (with_file s (mkFile data owner_read_write))
                   [Print ("Session imported to " ++ self_session_file s)])
            end
        end
    end.
Proof.
  destruct s as [em pw path g sf clk tr].
  unfold import_session_from_github, bind, lift, write_session_file, chmod, fail_if,
    set_file, get, print, emit, modify, ret, raise, logged, with_file, mode_when_opened.
  cbn [self_email self_password self_session_file self_garmin session_file clock trace].
  destruct (Base64.b64decode text) as [e|data]; [reflexivity|].
  destruct (open_error E) as [[e|e written]|]; [reflexivity|reflexivity|].
  destruct (chmod_error E) as [e|]; reflexivity.
Qed.

Lemma export_then_import (E : env) (s : state) (f : file) :
  session_file s = Some f ->
  exists text s1,
    export_session_for_github s = (Ret text, s1)
    /\ text = Base64.b64encode (contents f)
    /\ Base64.b64decode text = inr (contents f)
    /\ session_file s1 = Some f
    /\ forall s0 : state,
         (open_error E = None -> chmod_error E = None ->
          import_session_from_github E text s0
          = (Ret tt,
             logged (with_file s0 (mkFile (contents f) owner_read_write))
               [Print ("Session imported to " ++ self_session_file s0)]))
         /\ (forall s2,
               import_session_from_github E text s0 = (Ret tt, s2) ->
               session_file s2 = Some (mkFile (contents f) owner_read_write)).
Proof.
  intros Hfile. pose proof (Base64Facts.b64decode_b64encode (contents f)) as Hround.
  exists (Base64.b64encode (contents f)).
  exists (logged s (export_lines (Base64.b64encode (contents f)))).
  split; [now apply export_run|]. split; [reflexivity|].
  split; [assumption|]. split; [exact Hfile|].
  intros s0. rewrite import_run, Hround. split.
  - intros Hopen Hchmod. rewrite Hopen, Hchmod. reflexivity.
  - intros s2 Himport.
    destruct (open_error E) as [[e|e written]|]; [discriminate|discriminate|].
    destruct (chmod_error E) as [e|]; [discriminate|].
    inversion Himport; subst. reflexivity.
Qed.

(** C5: whatever bytes the session file holds, export returns their
    base-64 text, which decodes to the same bytes, and leaves the file as
    it is.  Importing that text, into the object that exported or into
    any other, whatever session file it has or has not, returns when
    neither writing the file nor [chmod] raises; and whenever the import
    returns, the session file holds the very bytes of the original, with
    mode [0o600]. *)
Theorem export_import_round_trip (E : env) (s : state) (f : file) :
  session_file s = Some f ->
  exists text s1,
    export_session_for_github s = (Ret text, s1)
    /\ text = Base64.b64encode (contents f)
    /\ Base64.b64decode text = inr (contents f)
    /\ session_file s1 = Some f
    /\ forall s0 : state,
         (open_error E = None -> chmod_error E = None ->
          import_session_from_github E text s0
          = (Ret tt,
             logged (with_file s0 (mkFile (contents f) owner_read_write))
               [Print ("Session imported to " ++ self_session_file s0)]))
         /\ (forall s2,
               import_session_from_github E text s0 = (Ret tt, s2) ->
               session_file s2 = Some (mkFile (contents f) owner_read_write)).
Proof. apply export_then_import. Qed.

(** The old session file exported, and imported into an object that has
    no session file. *)
Lemma old_file_round_trip :
  exists text s1,
    export_session_for_github (with_session_at 0%Z) = (Ret text, s1)
    /\ text = Base64.b64encode (contents old_file)
    /\ Base64.b64decode text = inr (contents old_file)
    /\ session_file s1 = Some old_file
    /\ session_file blank = None
    /\ import_session_from_github fair_weather text blank
       = (Ret tt,
          logged (with_file blank (mkFile (contents old_file) owner_read_write))
            [Print ("Session imported to " ++ self_session_file blank)]).
Proof.
  destruct (export_import_round_trip fair_weather (with_session_at 0%Z) old_file
              eq_refl) as (text & s1 & Hexport & Htext & Hdecode & Hfile & Himport).
  exists text, s1. repeat (split; [assumption|]). split; [reflexivity|].
  destruct (Himport blank) as [Hreturns _]. apply Hreturns; reflexivity.
Defined.

(** *** Where a session can come from *)






End SessionManager.


(** ** More on the duplicate resolver *)

Module ResolverExtras.
Import CleanupDuplicates ResolverSpec ResolverMore.

(** *** The map the fetch returns *)

(** X1: the map returned with the records groups them by key: its keys are
    pairwise different, each bucket holds, in fetch order, exactly the
    fetched records with its key and is not empty, and every fetched
    record is in the bucket of its key. *)
Theorem fetched_map_groups_by_key
    (fuel : nat) (c : client) (db : string) (w w1 : world)
    (all : list object) (m : dmap) :
  get_all_activities_with_duplicates fuel c db w = (Ret (all, m), w1) ->
  numbered all
  /\ NoDup (map fst m)
  /\ (forall k l, In (k, l) m -> l <> [] /\ l = filter (has_key k) all)
  /\ (forall o, In o all -> In (key_of o, filter (has_key (key_of o)) all) m).
Proof.
  intros Hfetch. apply DuplicateResolver.get_all_activities_spec in Hfetch.
  destruct Hfetch as [_ Hok]. destruct (Hok (all, m) eq_refl) as (Hn & Hm & _).
  cbn [fst snd] in Hn, Hm. subst m.
  destruct (DuplicateResolver.buckets_spec all) as (Hnd & Hb & Hk).
  split; [assumption|]. split; [assumption|]. split.
  - intros k l Hin. pose proof (DuplicateResolver.bucket_of_entry all k l Hin) as Hl.
    split; [|assumption].
    assert (Hkey : In k (map fst (buckets all))) by (apply (in_map fst _ _ Hin)).
    apply Hk in Hkey. destruct Hkey as (o & Ho & Hko).
    assert (Hol : In o l)
      by (rewrite Hl; apply DuplicateResolver.bucket_members; auto).
    intros Hnil. rewrite Hnil in Hol. contradiction.
  - intros o Ho. now apply DuplicateResolver.entry_of_record.
Qed.

Lemma three_records_grouped :
  numbered (fst Scenarios.three_fetched)
  /\ NoDup (map fst (snd Scenarios.three_fetched))
  /\ (forall k l, In (k, l) (snd Scenarios.three_fetched) ->
                  l <> [] /\ l = filter (has_key k) (fst Scenarios.three_fetched))
  /\ (forall o, In o (fst Scenarios.three_fetched) ->
                In (key_of o, filter (has_key (key_of o)) (fst Scenarios.three_fetched))
                   (snd Scenarios.three_fetched)).
Proof.
  apply (fetched_map_groups_by_key 2 Scenarios.three_records "db" Scenarios.start
           Scenarios.three_world).
  vm_compute. reflexivity.
Defined.

(** *** Pagination *)

Lemma activity_of_well_formed (p : page) (w : world) :
  well_formed p = true -> activity_of p w = (Ret (activity_info_of p), w).
Proof.
  unfold well_formed, activity_of, activity_info_of, bind, read_field, ret.
  destruct (prop_date_start p), (prop_activity_type p), (prop_activity_name p);
    try discriminate; reflexivity.
Qed.

Lemma for_results_well_formed (rs : list page) :
  forall (st : fetched) (w : world),
    forallb well_formed rs = true ->
    exists st',
      for_results rs st w = (Ret st', w)
      /\ map info (fst st') = (map info (fst st) ++ map activity_info_of rs)%list.
Proof.
  induction rs as [|p rs IH]; intros st w Hwf.
  - exists st. cbn [for_results map]. now rewrite app_nil_r.
  - cbn [forallb] in Hwf. apply andb_prop in Hwf. destruct Hwf as [Hp Hrs].
    cbn [for_results]. rewrite (bind_run _ _ _ _ _ (activity_of_well_formed p w Hp)).
    destruct (IH ((fst st ++ [(List.length (fst st), activity_info_of p)])%list,
                  dmap_append (unique_key (activity_info_of p))
                    (List.length (fst st), activity_info_of p) (snd st)) w Hrs)
      as (st' & Hrun & Hinfo).
    exists st'. split; [assumption|]. rewrite Hinfo. cbn [fst map].
    rewrite map_app, <- app_assoc. reflexivity.
Qed.

Lemma query_run (c : client) (db : string) (cursor : option string) (w : world)
    (p : response) :
  databases_query c (ncalls (trace w)) db cursor = inr p ->
  query c db cursor w = (Ret p, mkWorld (stdin w) (trace w ++ [Query db cursor])).
Proof. intros H. unfold query. now rewrite H. Qed.

Lemma ncalls_query (t : list event) (db : string) (cursor : option string) :
  ncalls (t ++ [Query db cursor]) = S (ncalls t).
Proof. rewrite DuplicateResolver.ncalls_app. cbn. apply Nat.add_1_r. Qed.

Lemma while_has_more_serves (c : client) (db : string) (pages : list response) :
  forall (last : response) (fuel : nat) (cursor : option string) (st : fetched)
         (w : world),
    serves c db (ncalls (trace w)) cursor (pages ++ [last]) ->
    forallb has_more pages = true -> has_more last = false ->
    forallb well_formed (flat_map results (pages ++ [last])) = true ->
    List.length pages < fuel ->
    exists st' w',
      while_has_more fuel c db cursor st w = (Ret st', w')
      /\ map info (fst st')
         = (map info (fst st)
              ++ map activity_info_of (flat_map results (pages ++ [last])))%list
      /\ stdin w' = stdin w
      /\ trace w'
         = (trace w
              ++ map (fun cur => Query db (sent_cursor cur))
                   (cursor :: map next_cursor pages))%list.
Proof.
  induction pages as [|p pages IH]; intros last fuel cursor st w Hserves Hmore Hlast
                                           Hwf Hfuel.
  - destruct fuel as [|fuel]; [inversion Hfuel|].
    cbn [app serves] in Hserves. destruct Hserves as [Hq _].
    cbn [app flat_map] in Hwf. rewrite app_nil_r in Hwf.
    cbn [while_has_more]. fold (sent_cursor cursor).
    rewrite (bind_run _ _ _ _ _ (query_run c db _ w last Hq)).
    destruct (for_results_well_formed (results last) st
                (mkWorld (stdin w) (trace w ++ [Query db (sent_cursor cursor)])) Hwf)
      as (st' & Hrun & Hinfo).
    rewrite (bind_run _ _ _ _ _ Hrun), Hlast.
    exists st'. eexists. split; [reflexivity|]. split; [|split; reflexivity].
    cbn [app flat_map]. now rewrite app_nil_r.
  - destruct fuel as [|fuel]; [inversion Hfuel|].
    cbn [app serves] in Hserves. destruct Hserves as [Hq Hrest].
    cbn [forallb] in Hmore. apply andb_prop in Hmore. destruct Hmore as [Hp Hmore].
    cbn [app flat_map] in Hwf. rewrite forallb_app in Hwf.
    apply andb_prop in Hwf. destruct Hwf as [Hwfp Hwf].
    cbn [while_has_more]. fold (sent_cursor cursor).
    rewrite (bind_run _ _ _ _ _ (query_run c db _ w p Hq)).
    destruct (for_results_well_formed (results p) st
                (mkWorld (stdin w) (trace w ++ [Query db (sent_cursor cursor)])) Hwfp)
      as (st1 & Hrun & Hinfo).
    rewrite (bind_run _ _ _ _ _ Hrun), Hp.
    destruct (IH last fuel (next_cursor p) st1
                (mkWorld (stdin w) (trace w ++ [Query db (sent_cursor cursor)])))
      as (st' & w' & Hloop & Hinfo' & Hin & Htr); try assumption.
    + cbn [trace]. now rewrite ncalls_query.
    + cbn [List.length] in Hfuel. lia.
    + exists st', w'. split; [assumption|]. split; [|split].
      * rewrite Hinfo', Hinfo. cbn [app flat_map]. now rewrite map_app, app_assoc.
      * assumption.
      * rewrite Htr. cbn [trace map]. now rewrite <- app_assoc.
Qed.

(** X2: when the server serves a sequence of pages of well-formed records, of
    which only the last says that there are no more, the fetch asks for
    each page once, the first without a cursor and each later one with
    the cursor of the page before, and returns the records of all pages
    in the order in which they were served. *)
Theorem fetch_follows_the_cursors
    (fuel : nat) (c : client) (db : string) (w : world)
    (pages : list response) (last : response) :
  serves c db (ncalls (trace w)) None (pages ++ [last]) ->
  forallb has_more pages = true -> has_more last = false ->
  forallb well_formed (flat_map results (pages ++ [last])) = true ->
  List.length pages < fuel ->
  exists all m w' t,
    get_all_activities_with_duplicates fuel c db w = (Ret (all, m), w')
    /\ map info all = map activity_info_of (flat_map results (pages ++ [last]))
    /\ stdin w' = stdin w
    /\ trace w' = (trace w ++ t)%list
    /\ queried t = map sent_cursor (None :: map next_cursor pages).
Proof.
  intros Hserves Hmore Hlast Hwf Hfuel.
  unfold get_all_activities_with_duplicates.
  rewrite (bind_run _ _ _ _ _ (DuplicateResolver.print_ret _ w)).
  destruct (while_has_more_serves c db pages last fuel None ([], [])
              (mkWorld (stdin w)
                 (trace w ++ [Print "Fetching all activities from Notion..."])))
    as ([all m] & w1 & Hloop & Hinfo & Hin & Htr); try assumption.
  { cbn [trace]. rewrite DuplicateResolver.ncalls_app. cbn [ncalls filter is_call].
    cbn. now rewrite Nat.add_0_r. }
  rewrite (bind_run _ _ _ _ _ Hloop).
  rewrite (bind_run _ _ _ _ _ (DuplicateResolver.print_ret _ w1)).
  exists all, m. eexists. eexists. split; [reflexivity|].
  split; [exact Hinfo|]. split; [exact Hin|]. split.
  - cbn [trace]. rewrite Htr. cbn [trace]. rewrite <- !app_assoc. reflexivity.
  - unfold queried. cbn [app flat_map]. rewrite flat_map_app. cbn [flat_map].
    rewrite !app_nil_r.
    generalize (@None string :: map next_cursor pages). intros l.
    induction l as [|x l IHl]; [reflexivity|]. cbn [map flat_map app].
    now rewrite IHl.
Qed.

Lemma three_records_in_two_pages :
  exists all m w' t,
    get_all_activities_with_duplicates 2 Scenarios.three_records "db" Scenarios.start
    = (Ret (all, m), w')
    /\ map info all = map activity_info_of (flat_map results (three_pages ++ [three_last]))
    /\ stdin w' = stdin Scenarios.start
    /\ trace w' = (trace Scenarios.start ++ t)%list
    /\ queried t = map sent_cursor (None :: map next_cursor three_pages).
Proof.
  apply (fetch_follows_the_cursors 2 Scenarios.three_records "db" Scenarios.start
           three_pages three_last).
  - cbn. repeat split.
  - reflexivity.
  - reflexivity.
  - reflexivity.
  - cbn. lia.
Defined.

(** *** The date of a record *)






(** *** The summary of identify_duplicates *)

Lemma group_body_counts (key : string) (activities : list object) (st st' : counters)
    (w w' : world) :
  group_body key activities st w = (Ret st', w') ->
  duplicate_groups st'
  = duplicate_groups st + (if is_group (key, activities) then 1 else 0)
  /\ total_duplicate_count st'
     = total_duplicate_count st
       + (if is_group (key, activities) then List.length activities else 0).
Proof.
  unfold group_body, is_group. cbn [snd].
  destruct (Nat.ltb 1 (List.length activities)).
  - destruct (Py.sort_by created activities) as [|first rest].
    + repeat (rewrite (bind_run _ _ _ _ _ (DuplicateResolver.print_ret _ _))).
      discriminate.
    + repeat (rewrite (bind_run _ _ _ _ _ (DuplicateResolver.print_ret _ _))).
      match goal with
      | |- context [bind (print_removals ?d) _ ?w0] =>
          destruct (DuplicateResolver.print_removals_spec d w0) as (w1 & Hrun & _);
          rewrite (bind_run _ _ _ _ _ Hrun)
      end.
      intros H. inversion H; subst. cbn [duplicate_groups total_duplicate_count].
      split; [apply eq_sym, Nat.add_1_r|reflexivity].
  - intros H. inversion H; subst. now rewrite !Nat.add_0_r.
Qed.

Lemma count_groups_cons (kv : string * list object) (m : dmap) :
  count_groups (kv :: m) = (if is_group kv then 1 else 0) + count_groups m.
Proof. unfold count_groups. cbn [filter]. now destruct (is_group kv). Qed.

Lemma count_in_groups_cons (kv : string * list object) (m : dmap) :
  count_in_groups (kv :: m)
  = (if is_group kv then List.length (snd kv) else 0) + count_in_groups m.
Proof. unfold count_in_groups. cbn [filter]. now destruct (is_group kv). Qed.

Lemma for_groups_counts (m : dmap) :
  forall (st st' : counters) (w w' : world),
    for_groups m st w = (Ret st', w') ->
    duplicate_groups st' = duplicate_groups st + count_groups m
    /\ total_duplicate_count st' = total_duplicate_count st + count_in_groups m.
Proof.
  induction m as [|[key activities] m IH]; intros st st' w w' Hrun.
  - inversion Hrun; subst. unfold count_groups, count_in_groups. cbn.
    now rewrite !Nat.add_0_r.
  - cbn [for_groups] in Hrun.
    destruct (DuplicateResolver.group_body_spec key activities st w)
      as (st1 & w1 & Hbody & _ & _).
    rewrite (bind_run _ _ _ _ _ Hbody) in Hrun.
    destruct (group_body_counts key activities st st1 w w1 Hbody) as [Hg Ht].
    destruct (IH st1 st' w1 w' Hrun) as [Hg' Ht'].
    rewrite count_groups_cons, count_in_groups_cons, Hg', Ht', Hg, Ht. cbn [snd].
    split; lia.
Qed.

Lemma removals_length (m : dmap) :
  List.length (removals m) + count_groups m = count_in_groups m.
Proof.
  induction m as [|[key activities] m IH]; [reflexivity|].
  rewrite DuplicateResolver.removals_cons, length_app, count_groups_cons,
    count_in_groups_cons.
  unfold removals at 1. cbn [flat_map snd]. rewrite app_nil_r. unfold is_group.
  cbn [snd]. destruct (Nat.ltb_spec 1 (List.length activities)) as [Hlen|Hlen].
  - assert (Hs : List.length (tl (Py.sort_by created activities))
                 = List.length activities - 1).
    { rewrite <- (PyFacts.sort_by_length _ created activities).
      destruct (Py.sort_by created activities); cbn; lia. }
    rewrite Hs. lia.
  - cbn [List.length]. lia.
Qed.

(** X4: [identify_duplicates] returns for every map, also one that no fetch
    has built, and never raises: it only prints, and the last four lines
    are the summary with the number of keys that have more than one
    record, the number of records under these keys and the length of the
    remove list, which is the second number minus the first. *)
Theorem identify_duplicates_summary (m : dmap) (w : world) :
  exists w' t,
    identify_duplicates m w = (Ret (removals m), w')
    /\ stdin w' = stdin w
    /\ trace w'
       = (trace w ++ t
            ++ summary (count_groups m) (count_in_groups m)
                 (List.length (removals m)))%list
    /\ forallb is_print t = true
    /\ List.length (removals m) + count_groups m = count_in_groups m.
Proof.
  unfold identify_duplicates.
  destruct (DuplicateResolver.for_groups_spec m (mkCounters [] 0 0) w)
    as (st & w1 & Hrun & Hd & (Hin & t & Htr & Hp)).
  destruct (for_groups_counts m _ st w w1 Hrun) as [Hg Ht].
  cbn [duplicate_groups total_duplicate_count duplicates app Nat.add] in Hg, Ht, Hd.
  rewrite (bind_run _ _ _ _ _ Hrun).
  repeat (rewrite (bind_run _ _ _ _ _ (DuplicateResolver.print_ret _ _))).
  rewrite Hd, Hg, Ht. exists (mkWorld (stdin w1)
    (trace w1 ++ summary (count_groups m) (count_in_groups m)
                   (List.length (removals m)))), t.
  split.
  - unfold ret, summary. cbn [stdin trace]. rewrite <- !app_assoc. reflexivity.
  - split; [exact Hin|]. split; [|split; [exact Hp|apply removals_length]].
    cbn [trace]. rewrite Htr, <- app_assoc. reflexivity.
Qed.

(** *** A clean database *)

Lemma keys_NoDup_unique (all : list object) :
  numbered all -> NoDup (map key_of all) -> forall o, In o all -> unique_among all o.
Proof.
  intros Hn Hnd o Ho o' Ho' Hk.
  destruct (In_nth_error _ _ Ho) as [i Hi]. destruct (In_nth_error _ _ Ho') as [j Hj].
  assert (Hij : j = i).
  { rewrite NoDup_nth_error in Hnd. apply Hnd.
    - rewrite length_map. apply nth_error_Some. congruence.
    - rewrite !nth_error_map, Hi, Hj. cbn. now rewrite Hk. }
  subst j. congruence.
Qed.

Lemma no_removals_NoDup_keys (all : list object) :
  numbered all -> removals (buckets all) = [] -> NoDup (map key_of all).
Proof.
  intros Hn Hrm. apply NoDup_nth_error. intros i j Hi Heq.
  rewrite length_map in Hi. rewrite !nth_error_map in Heq.
  destruct (nth_error all i) as [oi|] eqn:Hoi;
    [|apply nth_error_None in Hoi; lia].
  destruct (nth_error all j) as [oj|] eqn:Hoj; [|discriminate].
  cbn in Heq. inversion Heq as [Hk].
  destruct (Nat.eq_dec i j) as [|Hne]; [assumption|exfalso].
  assert (Hini : In oi all) by (eapply nth_error_In; eassumption).
  assert (Hinj : In oj all) by (eapply nth_error_In; eassumption).
  assert (Hdiff : oi <> oj).
  { intros ->. apply Hne.
    pose proof (DuplicateResolver.numbered_nth all i oj Hn Hoi) as H1.
    pose proof (DuplicateResolver.numbered_nth all j oj Hn Hoj) as H2. lia. }
  assert (Hsup : superseded all oi \/ superseded all oj).
  { destruct (String.ltb (created oi) (created oj)) eqn:Hlt.
    - right. exists oi. repeat split; auto. now left.
    - destruct (String.ltb (created oj) (created oi)) eqn:Hgt.
      + left. exists oj. repeat split; auto. now left.
      + assert (Hc : created oi = created oj) by now apply PyFacts.ltb_total.
        destruct (Nat.lt_ge_cases i j) as [Hlt'|Hge].
        * right. exists oi. repeat split; auto. right. split; [assumption|].
          now exists i, j.
        * left. exists oj. repeat split; auto. right. split; [now symmetry|].
          exists j, i. repeat split; auto. lia. }
  destruct Hsup as [Hs|Hs].
  - apply (DuplicateResolver.removed_iff all oi Hn Hini) in Hs.
    rewrite Hrm in Hs. contradiction.
  - apply (DuplicateResolver.removed_iff all oj Hn Hinj) in Hs.
    rewrite Hrm in Hs. contradiction.
Qed.

Lemma NoDup_keys_no_removals (all : list object) :
  numbered all -> NoDup (map key_of all) -> removals (buckets all) = [].
Proof.
  intros Hn Hnd.
  destruct (removals (buckets all)) as [|o rm] eqn:Hrm; [reflexivity|exfalso].
  assert (Ho : In o (removals (buckets all))) by (rewrite Hrm; now left).
  assert (Hall : In o all).
  { apply DuplicateResolver.in_removals in Ho. destruct Ho as (k & l & Hin & Ho).
    apply DuplicateResolver.sorted_tail_in in Ho.
    rewrite (DuplicateResolver.bucket_of_entry all k l Hin) in Ho.
    now apply DuplicateResolver.bucket_members in Ho. }
  apply (DuplicateResolver.removed_iff all o Hn Hall) in Ho.
  apply (DuplicateResolver.unique_not_superseded all o); [|assumption].
  now apply keys_NoDup_unique.
Qed.

(** X5: the remove list is empty exactly when no key occurs twice among the
    fetched records; this is when [main] reports a clean database. *)
Theorem no_duplicates_iff_keys_differ
    (fuel : nat) (c : client) (db : string) (w w1 : world)
    (all : list object) (m : dmap) :
  get_all_activities_with_duplicates fuel c db w = (Ret (all, m), w1) ->
  (fst (identify_duplicates m w1) = Ret [] <-> NoDup (map key_of all)).
Proof.
  intros Hfetch. apply DuplicateResolver.get_all_activities_spec in Hfetch.
  destruct Hfetch as [_ Hok]. destruct (Hok (all, m) eq_refl) as (Hn & Hm & _).
  cbn [fst snd] in Hn, Hm. subst m.
  destruct (DuplicateResolver.identify_duplicates_spec (buckets all) w1)
    as (w2 & Hrun & _).
  rewrite Hrun. cbn [fst]. split.
  - intros H. inversion H as [Hrm]. now apply no_removals_NoDup_keys.
  - intros Hnd. now rewrite NoDup_keys_no_removals.
Qed.

Lemma clean_database_has_no_duplicates :
  fst (identify_duplicates (snd clean_fetched) clean_world) = Ret []
  <-> NoDup (map key_of (fst clean_fetched)).
Proof.
  apply (no_duplicates_iff_keys_differ 1 after_cleanup "db" Scenarios.start).
  vm_compute. reflexivity.
Defined.

(** *** Running the cleanup twice *)

Lemma listed_iff (all rm : list object) (o : object) :
  numbered all -> incl rm all -> In o all -> (listed rm o = true <-> In o rm).
Proof.
  intros Hn Hincl Ho. unfold listed. rewrite existsb_exists. split.
  - intros (r & Hr & Href). apply Nat.eqb_eq in Href.
    now rewrite <- (DuplicateResolver.same_ref all r o Hn (Hincl r Hr) Ho Href).
  - intros Hin. exists o. split; [assumption|apply Nat.eqb_refl].
Qed.

Lemma map_NoDup_injective (A B : Type) (f : A -> B) (l : list A) :
  NoDup l -> (forall x y, In x l -> In y l -> f x = f y -> x = y) -> NoDup (map f l).
Proof.
  induction 1 as [|x l Hx Hnd IH]; intros Hinj; [constructor|].
  cbn [map]. constructor.
  - intros Hin. apply in_map_iff in Hin. destruct Hin as (y & Hy & Hyl).
    apply Hx. rewrite (Hinj x y); [assumption|now left|now right|now symmetry].
  - apply IH. intros a b Ha Hb. apply Hinj; now right.
Qed.

Lemma survivors_keys_NoDup (all : list object) :
  numbered all -> NoDup (map key_of (survivors all (removals (buckets all)))).
Proof.
  intros Hn. set (rm := removals (buckets all)).
  assert (Hincl : incl rm all).
  { intros o Ho. apply DuplicateResolver.in_removals in Ho.
    destruct Ho as (k & l & Hin & Ho). apply DuplicateResolver.sorted_tail_in in Ho.
    rewrite (DuplicateResolver.bucket_of_entry all k l Hin) in Ho.
    now apply DuplicateResolver.bucket_members in Ho. }
  apply map_NoDup_injective.
  - apply NoDup_filter, DuplicateResolver.numbered_NoDup, Hn.
  - intros x y Hx Hy Hk. unfold survivors in Hx, Hy.
    apply filter_In in Hx, Hy. destruct Hx as [Hx Hxs], Hy as [Hy Hys].
    apply negb_true_iff in Hxs, Hys.
    assert (Hxn : ~ In x rm)
      by (intros H; apply (listed_iff all rm x Hn Hincl Hx) in H; congruence).
    assert (Hyn : ~ In y rm)
      by (intros H; apply (listed_iff all rm y Hn Hincl Hy) in H; congruence).
    destruct (DuplicateResolver.retained_exists all x Hn Hx)
      as (kept & _ & _ & _ & _ & Hothers).
    destruct (Hothers x Hx eq_refl) as [->|]; [|contradiction].
    destruct (Hothers y Hy (eq_sym Hk)) as [->|]; [reflexivity|contradiction].
Qed.

(** X6: a second run finds nothing to remove: if the next fetch returns the
    records that the first run did not put in its remove list (the first
    run's archive requests all took effect, nothing else changed), then
    the remove list of the second run is empty. *)
Theorem second_run_is_clean
    (fuel fuel' : nat) (c c' : client) (db db' : string) (w w1 w' w1' : world)
    (all all' : list object) (m m' : dmap) :
  get_all_activities_with_duplicates fuel c db w = (Ret (all, m), w1) ->
  get_all_activities_with_duplicates fuel' c' db' w' = (Ret (all', m'), w1') ->
  (forall rm, fst (identify_duplicates m w1) = Ret rm ->
              map info all' = map info (survivors all rm)) ->
  fst (identify_duplicates m' w1') = Ret [].
Proof.
  intros Hfetch Hfetch' Hsame.
  pose proof Hfetch' as Hfetch2.
  apply DuplicateResolver.get_all_activities_spec in Hfetch, Hfetch'.
  destruct Hfetch as [_ Hok]. destruct (Hok (all, m) eq_refl) as (Hn & Hm & _).
  destruct Hfetch' as [_ Hok']. destruct (Hok' (all', m') eq_refl) as (Hn' & Hm' & _).
  cbn [fst snd] in Hn, Hm, Hn', Hm'. subst m m'.
  destruct (DuplicateResolver.identify_duplicates_spec (buckets all) w1)
    as (w2 & Hrun & _).
  rewrite Hrun in Hsame. specialize (Hsame _ eq_refl).
  destruct (DuplicateResolver.identify_duplicates_spec (buckets all') w1')
    as (w2' & Hrun' & _).
  rewrite Hrun'. cbn [fst]. f_equal. apply NoDup_keys_no_removals; [assumption|].
  assert (Hkeys : map key_of all' = map key_of (survivors all (removals (buckets all)))).
  { unfold key_of. rewrite <- !(map_map info unique_key). now rewrite Hsame. }
  rewrite Hkeys. now apply survivors_keys_NoDup.
Qed.

Lemma three_records_then_clean :
  fst (identify_duplicates (snd clean_fetched) clean_world) = Ret [].
Proof.
  apply (second_run_is_clean 2 1 Scenarios.three_records after_cleanup "db" "db"
           Scenarios.start Scenarios.three_world Scenarios.start clean_world
           (fst Scenarios.three_fetched) (fst clean_fetched)
           (snd Scenarios.three_fetched) (snd clean_fetched)).
  - vm_compute. reflexivity.
  - vm_compute. reflexivity.
  - intros rm Hrm. vm_compute in Hrm. inversion Hrm; subst. vm_compute. reflexivity.
Defined.

(** *** Errors that main reports *)

Lemma main_except_returns (e : exn) (w : world) :
  main_except e w
  = (Ret tt,
     mkWorld (stdin w)
       (trace w ++ [Print (Py.nl ++ "❌ Error during cleanup: " ++ exn_msg e);
                    Print "Please check your Notion token and database ID."])).
Proof.
  unfold main_except.
  rewrite (bind_run _ _ _ _ _ (DuplicateResolver.print_ret _ w)).
  rewrite DuplicateResolver.print_ret. cbn [stdin trace].
  now rewrite <- app_assoc.
Qed.

Lemma fetch_query_fails (fuel : nat) (c : client) (db : string) (w : world) (e : exn) :
  databases_query c (ncalls (trace w)) db None = inl e ->
  get_all_activities_with_duplicates (S fuel) c db w
  = (Raise e,
     mkWorld (stdin w)
       (trace w ++ [Print "Fetching all activities from Notion..."; Query db None])).
Proof.
  intros Hq. unfold get_all_activities_with_duplicates.
  rewrite (bind_run _ _ _ _ _ (DuplicateResolver.print_ret _ w)).
  cbn [while_has_more Py.truthy]. unfold bind, query. cbn [stdin trace].
  rewrite DuplicateResolver.ncalls_app. cbn [ncalls filter is_call List.length].
  rewrite Nat.add_0_r. fold (ncalls (trace w)). rewrite Hq.
  now rewrite <- app_assoc.
Qed.

(** X8: when the first query raises after an affirmative first answer, [main]
    returns normally: it has asked once, sent one query and archived
    nothing, and its last two lines report the error of the query. *)
Theorem failed_query_is_reported
    (fuel : nat) (token db answer : string) (rest : list string)
    (Client : string -> client) (T : list event) (e : exn) :
  Py.truthy (Some token) && Py.truthy (Some db) = true ->
  affirmative answer = true ->
  databases_query (Client token) (ncalls T) db None = inl e ->
  exists t,
    main (S fuel) (Some token) (Some db) Client (mkWorld (answer :: rest) T)
    = (Ret tt,
       mkWorld rest
         (T ++ t ++ [Print (Py.nl ++ "❌ Error during cleanup: " ++ exn_msg e);
                     Print "Please check your Notion token and database ID."]))
    /\ answers t = [answer]
    /\ queried t = [None]
    /\ archived t = [].
Proof.
  intros Hboth Hyes Hq. unfold main. rewrite Hboth.
  do 4 rewrite (bind_run _ _ _ _ _ (DuplicateResolver.print_ret _ _)).
  unfold bind at 1. unfold input at 1. cbn [stdin trace]. rewrite Hyes. cbn [negb].
  unfold try_except, main_try. unfold bind at 1.
  rewrite (fetch_query_fails fuel (Client token) db _ e).
  - rewrite main_except_returns. cbn [stdin trace].
    exists [Print "=== Notion Activities Duplicate Cleanup ===";
            Print "This script will identify and remove duplicate activities.";
            Print "Duplicates are identified by: Date + Activity Type + Activity Name";
            Print ("The oldest entry (by creation time) will be kept." ++ Py.nl);
            Prompt "Do you want to proceed? (yes/no): "; Read answer;
            Print "Fetching all activities from Notion..."; Query db None].
    split; [|repeat split].
    rewrite <- !app_assoc. reflexivity.
  - cbn [trace]. rewrite !DuplicateResolver.ncalls_app.
    cbn [ncalls filter is_call List.length]. rewrite !Nat.add_0_r. exact Hq.
Qed.

Lemma unreachable_server_is_reported :
  exists t,
    main 1 (Some "secret") (Some "db") (fun _ => unreachable) (mkWorld ["yes"] [])
    = (Ret tt,
       mkWorld []
         ([] ++ t ++ [Print (Py.nl ++ "❌ Error during cleanup: "
                               ++ "API token is invalid.");
                      Print "Please check your Notion token and database ID."]))
    /\ answers t = ["yes"]
    /\ queried t = [None]
    /\ archived t = [].
Proof.
  apply (failed_query_is_reported 0 "secret" "db" "yes" [] (fun _ => unreachable) []
           (mkExn "APIResponseError" "API token is invalid.")); reflexivity.
Defined.

(** *** A whole run *)

Lemma archived_prints (t : list event) : forallb is_print t = true -> archived t = [].
Proof.
  induction t as [|e t IH]; [reflexivity|]. cbn [forallb]. intros H.
  apply andb_prop in H as [He Ht]. destruct e; try discriminate. exact (IH Ht).
Qed.

Lemma queried_prints (t : list event) : forallb is_print t = true -> queried t = [].
Proof.
  induction t as [|e t IH]; [reflexivity|]. cbn [forallb]. intros H.
  apply andb_prop in H as [He Ht]. destruct e; try discriminate. exact (IH Ht).
Qed.

Lemma queried_print_or_archive (t : list event) :
  forallb print_or_archive t = true -> queried t = [].
Proof.
  induction t as [|e t IH]; [reflexivity|]. cbn [forallb]. intros H.
  apply andb_prop in H as [He Ht]. destruct e; try discriminate; exact (IH Ht).
Qed.

Lemma queried_app (t1 t2 : list event) :
  queried (t1 ++ t2) = (queried t1 ++ queried t2)%list.
Proof. unfold queried. apply flat_map_app. Qed.

Lemma queried_queries (db : string) (l : list (option string)) :
  queried (map (fun cur => Query db (sent_cursor cur)) l) = map sent_cursor l.
Proof. induction l as [|x l IH]; [reflexivity|]. cbn. now rewrite <- IH. Qed.

Lemma archived_queries (db : string) (l : list (option string)) :
  archived (map (fun cur => Query db (sent_cursor cur)) l) = [].
Proof. induction l as [|x l IH]; [reflexivity|]. exact IH. Qed.

Lemma fetch_serves (fuel : nat) (c : client) (db : string) (w : world)
    (pages : list response) (last : response) :
  serves c db (ncalls (trace w)) None (pages ++ [last]) ->
  forallb has_more pages = true -> has_more last = false ->
  forallb well_formed (flat_map results (pages ++ [last])) = true ->
  List.length pages < fuel ->
  exists all t,
    get_all_activities_with_duplicates fuel c db w
    = (Ret (all, buckets all), mkWorld (stdin w) (trace w ++ t))
    /\ map info all = map activity_info_of (flat_map results (pages ++ [last]))
    /\ numbered all
    /\ archived t = []
    /\ queried t = map sent_cursor (None :: map next_cursor pages).
Proof.
  intros Hserves Hmore Hlast Hwf Hfuel.
  destruct (get_all_activities_with_duplicates fuel c db w) as [r w'] eqn:Hrun.
  pose proof (DuplicateResolver.get_all_activities_spec fuel c db w r w' Hrun)
    as [_ Hok].
  revert Hrun. unfold get_all_activities_with_duplicates.
  rewrite (bind_run _ _ _ _ _ (DuplicateResolver.print_ret _ w)).
  destruct (while_has_more_serves c db pages last fuel None ([], [])
              (mkWorld (stdin w)
                 (trace w ++ [Print "Fetching all activities from Notion..."])))
    as ([all m] & w1 & Hloop & Hinfo & Hin & Htr); try assumption.
  { cbn [trace]. rewrite DuplicateResolver.ncalls_app. cbn [ncalls filter is_call].
    cbn. now rewrite Nat.add_0_r. }
  rewrite (bind_run _ _ _ _ _ Hloop).
  rewrite (bind_run _ _ _ _ _ (DuplicateResolver.print_ret _ w1)).
  unfold ret. intros Hrun. inversion Hrun; subst r w'.
  destruct (Hok (all, m) eq_refl) as (Hnum & Hm & _). cbn [fst snd] in Hnum, Hm.
  subst m. destruct w1 as [i1 T1]. cbn [stdin trace] in Hin, Htr. subst i1 T1.
  cbn [stdin trace fst].
  exists all.
  exists ([Print "Fetching all activities from Notion..."]
            ++ map (fun cur => Query db (sent_cursor cur))
                 (None :: map next_cursor pages)
            ++ [Print ("Found " ++ Py.str_of_nat (List.length all)
                         ++ " total activities")])%list.
  split; [now rewrite <- !app_assoc|].
  split; [exact Hinfo|]. split; [exact Hnum|]. split.
  - rewrite !DuplicateResolver.archived_app, archived_queries. reflexivity.
  - rewrite !queried_app, queried_queries. cbn [queried flat_map app].
    now rewrite app_nil_r.
Qed.

Lemma main_try_serves (fuel : nat) (c : client) (db : string) (T : list event)
    (second : string) (rest : list string) (pages : list response) (last : response) :
  affirmative second = true ->
  serves c db (ncalls T) None (pages ++ [last]) ->
  forallb has_more pages = true -> has_more last = false ->
  forallb well_formed (flat_map results (pages ++ [last])) = true ->
  List.length pages < fuel ->
  exists all t,
    map info all = map activity_info_of (flat_map results (pages ++ [last]))
    /\ numbered all
    /\ main_try fuel c db (mkWorld (second :: rest) T)
       = (Ret tt,
          mkWorld (match removals (buckets all) with
                   | [] => second :: rest
                   | _ :: _ => rest
                   end) (T ++ t))
    /\ archived t = map page_of_object (removals (buckets all))
    /\ queried t = map sent_cursor (None :: map next_cursor pages).
Proof.
  intros Hyes Hserves Hmore Hlast Hwf Hfuel.
  destruct (fetch_serves fuel c db (mkWorld (second :: rest) T) pages last)
    as (all & t1 & Hfetch & Hinfo & Hnum & Ha1 & Hq1); try assumption.
  cbn [stdin trace] in Hfetch.
  exists all. unfold main_try. rewrite (bind_run _ _ _ _ _ Hfetch). cbn [snd].
  destruct (DuplicateResolver.identify_duplicates_spec (buckets all)
              (mkWorld (second :: rest) (T ++ t1)))
    as ([i2 T2] & Hid & Hin2 & t2 & Ht2 & Hp2).
  cbn [stdin trace] in Hin2, Ht2. subst i2 T2.
  rewrite (bind_run _ _ _ _ _ Hid).
  destruct (removals (buckets all)) as [|d ds] eqn:Hrm.
  - rewrite DuplicateResolver.print_ret. cbn [stdin trace].
    exists (t1 ++ t2
              ++ [Print (Py.nl ++ "✅ No duplicates found! Your database is clean.")])%list.
    split; [exact Hinfo|]. split; [exact Hnum|].
    split; [now rewrite <- !app_assoc|]. split.
    + rewrite !DuplicateResolver.archived_app, Ha1, (archived_prints t2 Hp2).
      reflexivity.
    + rewrite !queried_app, Hq1, (queried_prints t2 Hp2). cbn [queried flat_map app].
      now rewrite app_nil_r.
  - rewrite (bind_run _ _ _ _ _ (DuplicateResolver.print_ret _ _)).
    unfold bind at 1. unfold input at 1. cbn [stdin trace]. rewrite Hyes. cbn [negb].
    match goal with
    | |- context [bind (remove_duplicates c (d :: ds)) _ ?w] =>
        destruct (DuplicateResolver.remove_duplicates_run c (d :: ds) w)
          as ([i4 T4] & t4 & Hrem & Hin4 & Ht4 & Ha4 & Hp4 & _)
    end.
    cbn [stdin trace] in Hin4, Ht4. subst i4 T4.
    rewrite (bind_run _ _ _ _ _ Hrem).
    rewrite (bind_run _ _ _ _ _ (DuplicateResolver.print_ret _ _)).
    rewrite DuplicateResolver.print_ret. cbn [stdin trace].
    exists (t1 ++ t2
              ++ [Print (Py.nl ++ "Found " ++ Py.str_of_nat (List.length (d :: ds))
                           ++ " duplicate activities to remove.");
                  Prompt "Proceed with removal? (yes/no): "; Read second]
              ++ t4
              ++ [Print (Py.nl ++ "✅ Duplicate cleanup completed successfully!");
                  Print "Note: Duplicates were archived (not permanently deleted)."])%list.
    split; [exact Hinfo|]. split; [exact Hnum|].
    split; [now rewrite <- !app_assoc|]. split.
    + rewrite !DuplicateResolver.archived_app, Ha1, (archived_prints t2 Hp2), Ha4.
      cbn [archived flat_map app]. now rewrite app_nil_r.
    + rewrite !queried_app, Hq1, (queried_prints t2 Hp2),
        (queried_print_or_archive t4 Hp4).
      cbn [queried flat_map app]. now rewrite !app_nil_r.
Qed.

(** X9: when both questions are answered with yes and the server serves the
    database in pages, [main] returns normally having sent one archive
    request for each record of the remove list of the fetched records, in
    the order of the list, and no other, whether or not the requests
    succeed; when that list is empty it does not ask the second question. *)
Theorem main_archives_the_remove_list
    (fuel : nat) (token db first second : string) (rest : list string)
    (Client : string -> client) (T : list event)
    (pages : list response) (last : response) :
  Py.truthy (Some token) && Py.truthy (Some db) = true ->
  affirmative first = true -> affirmative second = true ->
  serves (Client token) db (ncalls T) None (pages ++ [last]) ->
  forallb has_more pages = true -> has_more last = false ->
  forallb well_formed (flat_map results (pages ++ [last])) = true ->
  List.length pages < fuel ->
  exists all t,
    map info all = map activity_info_of (flat_map results (pages ++ [last]))
    /\ numbered all
    /\ main fuel (Some token) (Some db) Client (mkWorld (first :: second :: rest) T)
       = (Ret tt,
          mkWorld (match removals (buckets all) with
                   | [] => second :: rest
                   | _ :: _ => rest
                   end) (T ++ t))
    /\ archived t = map page_of_object (removals (buckets all))
    /\ queried t = map sent_cursor (None :: map next_cursor pages).
Proof.
  intros Hboth Hyes1 Hyes2 Hserves Hmore Hlast Hwf Hfuel.
  unfold main. rewrite Hboth.
  do 4 rewrite (bind_run _ _ _ _ _ (DuplicateResolver.print_ret _ _)).
  unfold bind at 1. unfold input at 1. cbn [stdin trace]. rewrite Hyes1. cbn [negb].
  unfold try_except.
  match goal with
  | |- context [main_try fuel (Client token) db (mkWorld _ ?T1)] =>
      destruct (main_try_serves fuel (Client token) db T1 second rest pages last)
        as (all & t & Hinfo & Hnum & Hrun & Ha & Hq); try assumption
  end.
  { rewrite !DuplicateResolver.ncalls_app. cbn [ncalls filter is_call List.length].
    rewrite !Nat.add_0_r. exact Hserves. }
  rewrite Hrun. exists all.
  exists ([Print "=== Notion Activities Duplicate Cleanup ===";
           Print "This script will identify and remove duplicate activities.";
           Print "Duplicates are identified by: Date + Activity Type + Activity Name";
           Print ("The oldest entry (by creation time) will be kept." ++ Py.nl);
           Prompt "Do you want to proceed? (yes/no): "; Read first] ++ t)%list.
  split; [exact Hinfo|]. split; [exact Hnum|].
  split; [now rewrite <- !app_assoc|]. split.
  - rewrite DuplicateResolver.archived_app. exact Ha.
  - rewrite queried_app. exact Hq.
Qed.

Lemma three_records_cleaned :
  exists all t,
    map info all = map activity_info_of (flat_map results (three_pages ++ [three_last]))
    /\ numbered all
    /\ main 2 (Some "secret") (Some "db") (fun _ => Scenarios.three_records)
         (mkWorld [" Yes "; "y"] [])
       = (Ret tt,
          mkWorld (match removals (buckets all) with
                   | [] => ["y"]
                   | _ :: _ => []
                   end) ([] ++ t))
    /\ archived t = map page_of_object (removals (buckets all))
    /\ queried t = map sent_cursor (None :: map next_cursor three_pages).
Proof.
  apply (main_archives_the_remove_list 2 "secret" "db" " Yes " "y" []
           (fun _ => Scenarios.three_records) [] three_pages three_last).
  - reflexivity.
  - reflexivity.
  - reflexivity.
  - cbn. repeat split.
  - reflexivity.
  - reflexivity.
  - reflexivity.
  - cbn. lia.
Defined.

(** *** The end of the input *)

Lemma numbered_records (all : list object) (infos : list activity_info) :
  numbered all -> map info all = infos ->
  all = combine (seq 0 (List.length infos)) infos.
Proof.
  unfold numbered. intros Hnum Hinfo. subst infos. rewrite length_map, <- Hnum.
  clear Hnum. induction all as [|[n a] l IH]; [reflexivity|].
  cbn [map combine ref info fst snd]. now rewrite <- IH.
Qed.

Lemma main_try_at_end_of_input (fuel : nat) (c : client) (db : string)
    (T : list event) (pages : list response) (last : response) :
  serves c db (ncalls T) None (pages ++ [last]) ->
  forallb has_more pages = true -> has_more last = false ->
  forallb well_formed (flat_map results (pages ++ [last])) = true ->
  List.length pages < fuel ->
  removals (buckets (fetched_records (pages ++ [last]))) <> [] ->
  exists t,
    main_try fuel c db (mkWorld [] T) = (Raise input_eof, mkWorld [] (T ++ t))
    /\ archived t = []
    /\ queried t = map sent_cursor (None :: map next_cursor pages).
Proof.
  intros Hserves Hmore Hlast Hwf Hfuel Hdups.
  destruct (fetch_serves fuel c db (mkWorld [] T) pages last)
    as (all & t1 & Hfetch & Hinfo & Hnum & Ha1 & Hq1); try assumption.
  cbn [stdin trace] in Hfetch.
  pose proof (numbered_records all _ Hnum Hinfo) as Hall.
  fold (fetched_records (pages ++ [last])) in Hall. subst all.
  unfold main_try. rewrite (bind_run _ _ _ _ _ Hfetch). cbn [snd].
  destruct (DuplicateResolver.identify_duplicates_spec
              (buckets (fetched_records (pages ++ [last]))) (mkWorld [] (T ++ t1)))
    as ([i2 T2] & Hid & Hin2 & t2 & Ht2 & Hp2).
  cbn [stdin trace] in Hin2, Ht2. subst i2 T2.
  rewrite (bind_run _ _ _ _ _ Hid).
  destruct (removals (buckets (fetched_records (pages ++ [last])))) as [|d ds];
    [contradiction|].
  rewrite (bind_run _ _ _ _ _ (DuplicateResolver.print_ret _ _)).
  unfold bind at 1. unfold input at 1. cbn [stdin trace].
  exists (t1 ++ t2
            ++ [Print (Py.nl ++ "Found " ++ Py.str_of_nat (List.length (d :: ds))
                         ++ " duplicate activities to remove.");
                Prompt "Proceed with removal? (yes/no): "])%list.
  split; [|split].
  - unfold input_eof. now rewrite <- !app_assoc.
  - rewrite !DuplicateResolver.archived_app, Ha1, (archived_prints t2 Hp2).
    reflexivity.
  - rewrite !queried_app, Hq1, (queried_prints t2 Hp2). cbn [queried flat_map app].
    now rewrite app_nil_r.
Qed.

(** X7: the end of the input is fatal at the first prompt only.  With
    nothing to read, [main] raises [EOFError] out of the first prompt,
    before any request.  With one affirmative answer and nothing after
    it, against a server that serves a database with duplicates, the
    [EOFError] of the second prompt is caught: [main] returns normally,
    has archived nothing, and its last two lines report the error. *)
Theorem end_of_input_at_the_prompts
    (fuel : nat) (token db first : string) (Client : string -> client)
    (T : list event) (pages : list response) (last : response) :
  Py.truthy (Some token) && Py.truthy (Some db) = true ->
  affirmative first = true ->
  serves (Client token) db (ncalls T) None (pages ++ [last]) ->
  forallb has_more pages = true -> has_more last = false ->
  forallb well_formed (flat_map results (pages ++ [last])) = true ->
  List.length pages < fuel ->
  removals (buckets (fetched_records (pages ++ [last]))) <> [] ->
  main fuel (Some token) (Some db) Client (mkWorld [] T)
  = (Raise (mkExn "EOFError" "EOF when reading a line"),
     mkWorld []
       (T ++ [Print "=== Notion Activities Duplicate Cleanup ===";
              Print "This script will identify and remove duplicate activities.";
              Print "Duplicates are identified by: Date + Activity Type + Activity Name";
              Print ("The oldest entry (by creation time) will be kept." ++ Py.nl);
              Prompt "Do you want to proceed? (yes/no): "]))
  /\ exists t,
       main fuel (Some token) (Some db) Client (mkWorld [first] T)
       = (Ret tt,
          mkWorld []
            (T ++ t
               ++ [Print (Py.nl ++ "❌ Error during cleanup: "
                            ++ "EOF when reading a line");
                   Print "Please check your Notion token and database ID."]))
       /\ archived t = []
       /\ queried t = map sent_cursor (None :: map next_cursor pages).
Proof.
  intros Hboth Hyes Hserves Hmore Hlast Hwf Hfuel Hdups. split.
  - unfold main. rewrite Hboth.
    do 4 rewrite (bind_run _ _ _ _ _ (DuplicateResolver.print_ret _ _)).
    unfold bind at 1. unfold input at 1. cbn [stdin trace].
    now rewrite <- !app_assoc.
  - unfold main. rewrite Hboth.
    do 4 rewrite (bind_run _ _ _ _ _ (DuplicateResolver.print_ret _ _)).
    unfold bind at 1. unfold input at 1. cbn [stdin trace]. rewrite Hyes. cbn [negb].
    unfold try_except.
    match goal with
    | |- context [main_try fuel (Client token) db (mkWorld _ ?T1)] =>
        destruct (main_try_at_end_of_input fuel (Client token) db T1 pages last)
          as (t & Hrun & Ha & Hq); try assumption
    end.
    { rewrite !DuplicateResolver.ncalls_app. cbn [ncalls filter is_call List.length].
      rewrite !Nat.add_0_r. exact Hserves. }
    rewrite Hrun, main_except_returns. cbn [stdin trace].
    exists ([Print "=== Notion Activities Duplicate Cleanup ===";
             Print "This script will identify and remove duplicate activities.";
             Print "Duplicates are identified by: Date + Activity Type + Activity Name";
             Print ("The oldest entry (by creation time) will be kept." ++ Py.nl);
             Prompt "Do you want to proceed? (yes/no): "; Read first] ++ t)%list.
    split; [|split].
    + unfold input_eof. cbn [exn_msg]. now rewrite <- !app_assoc.
    + rewrite DuplicateResolver.archived_app. exact Ha.
    + rewrite queried_app. exact Hq.
Qed.

Lemma three_records_and_one_answer :
  main 2 (Some "secret") (Some "db") (fun _ => Scenarios.three_records) (mkWorld [] [])
  = (Raise (mkExn "EOFError" "EOF when reading a line"),
     mkWorld []
       ([] ++ [Print "=== Notion Activities Duplicate Cleanup ===";
               Print "This script will identify and remove duplicate activities.";
               Print "Duplicates are identified by: Date + Activity Type + Activity Name";
               Print ("The oldest entry (by creation time) will be kept." ++ Py.nl);
               Prompt "Do you want to proceed? (yes/no): "]))
  /\ exists t,
       main 2 (Some "secret") (Some "db") (fun _ => Scenarios.three_records)
         (mkWorld [" Yes "] [])
       = (Ret tt,
          mkWorld []
            ([] ++ t
               ++ [Print (Py.nl ++ "❌ Error during cleanup: "
                            ++ "EOF when reading a line");
                   Print "Please check your Notion token and database ID."]))
       /\ archived t = []
       /\ queried t = map sent_cursor (None :: map next_cursor three_pages).
Proof.
  apply (end_of_input_at_the_prompts 2 "secret" "db" " Yes "
           (fun _ => Scenarios.three_records) [] three_pages three_last).
  - reflexivity.
  - reflexivity.
  - cbn. repeat split.
  - reflexivity.
  - reflexivity.
  - reflexivity.
  - cbn. lia.
  - vm_compute. discriminate.
Defined.

(** *** What main needs before it sends a request *)

(** X10: a run of [main] sends a request to the server only if both
    environment variables are set and not empty and the first answer read
    is affirmative. *)
Theorem requests_need_configuration_and_consent
    (fuel : nat) (notion_token database_id : option string)
    (Client : string -> client) (w : world) (r : outcome unit) (w' : world) :
  main fuel notion_token database_id Client w = (r, w') ->
  ncalls (trace w') <> ncalls (trace w) ->
  Py.truthy notion_token && Py.truthy database_id = true
  /\ exists answer rest, stdin w = answer :: rest /\ affirmative answer = true.
Proof.
  unfold main. intros Hrun Hsent.
  assert (Hprint : forall line,
             ncalls (trace w ++ [Print line]) = ncalls (trace w)).
  { intros line. rewrite DuplicateResolver.ncalls_app. cbn. lia. }
  destruct notion_token as [token|], database_id as [db|];
    try (rewrite DuplicateResolver.print_ret in Hrun; inversion Hrun; subst;
         cbn [trace] in Hsent; rewrite Hprint in Hsent; contradiction).
  destruct (Py.truthy (Some token) && Py.truthy (Some db));
    [|rewrite DuplicateResolver.print_ret in Hrun; inversion Hrun; subst;
      cbn [trace] in Hsent; rewrite Hprint in Hsent; contradiction].
  split; [reflexivity|].
  do 4 rewrite (bind_run _ _ _ _ _ (DuplicateResolver.print_ret _ _)) in Hrun.
  unfold bind at 1 in Hrun. unfold input at 1 in Hrun. cbn [stdin trace] in Hrun.
  destruct (stdin w) as [|answer rest].
  - inversion Hrun; subst. cbn [trace] in Hsent.
    rewrite !DuplicateResolver.ncalls_app in Hsent. cbn in Hsent. lia.
  - destruct (affirmative answer) eqn:Hyes; cbn [negb] in Hrun.
    + now exists answer, rest.
    + rewrite DuplicateResolver.print_ret in Hrun. inversion Hrun; subst.
      cbn [trace] in Hsent. rewrite !DuplicateResolver.ncalls_app in Hsent.
      cbn in Hsent. lia.
Qed.

Lemma three_records_run_had_consent :
  Py.truthy (Some "secret") && Py.truthy (Some "db") = true
  /\ exists answer rest,
       stdin Scenarios.three_answers = answer :: rest /\ affirmative answer = true.
Proof.
  apply (requests_need_configuration_and_consent 2 (Some "secret") (Some "db")
           (fun _ => Scenarios.three_records) Scenarios.three_answers
           (fst Scenarios.three_run) (snd Scenarios.three_run)).
  - vm_compute. reflexivity.
  - vm_compute. discriminate.
Defined.

(** *** A server that always has more *)

Lemma while_has_more_endless (c : client) (db : string) :
  (forall n cursor, exists p,
      databases_query c n db cursor = inr p
      /\ has_more p = true /\ forallb well_formed (results p) = true) ->
  forall (fuel : nat) (cursor : option string) (st : fetched) (w : world),
    exists t,
      while_has_more fuel c db cursor st w
      = (Diverge, mkWorld (stdin w) (trace w ++ t))
      /\ List.length (queried t) = fuel.
Proof.
  intros Hmore. induction fuel as [|fuel IH]; intros cursor st w.
  - exists []. destruct w as [i T]. cbn. now rewrite app_nil_r.
  - cbn [while_has_more].
    change (if Py.truthy cursor then cursor else None) with (sent_cursor cursor).
    destruct (Hmore (ncalls (trace w)) (sent_cursor cursor)) as (p & Hq & Hp & Hwf).
    rewrite (bind_run _ _ _ _ _ (query_run c db (sent_cursor cursor) w p Hq)).
    destruct (for_results_well_formed (results p) st
                (mkWorld (stdin w) (trace w ++ [Query db (sent_cursor cursor)])) Hwf)
      as (st' & Hfor & _).
    rewrite (bind_run _ _ _ _ _ Hfor), Hp.
    destruct (IH (next_cursor p) st'
                (mkWorld (stdin w) (trace w ++ [Query db (sent_cursor cursor)])))
      as (t & Hrun & Hlen).
    rewrite Hrun. cbn [stdin trace].
    exists (Query db (sent_cursor cursor) :: t). split.
    + now rewrite <- app_assoc.
    + cbn [queried flat_map app List.length]. fold (queried t). now rewrite Hlen.
Qed.

(** X11: the fetch loop has no bound of its own: against a server that answers
    every query with a page of well-formed records and [has_more] set, the
    fetch does not return, however many pages it is given time for, and
    it sends a query for every one of them. *)
Theorem fetch_does_not_end_while_more
    (c : client) (db : string) (fuel : nat) (w : world) :
  (forall n cursor, exists p,
      databases_query c n db cursor = inr p
      /\ has_more p = true /\ forallb well_formed (results p) = true) ->
  exists t,
    get_all_activities_with_duplicates fuel c db w
    = (Diverge, mkWorld (stdin w) (trace w ++ t))
    /\ List.length (queried t) = fuel.
Proof.
  intros Hmore. unfold get_all_activities_with_duplicates.
  rewrite (bind_run _ _ _ _ _ (DuplicateResolver.print_ret _ w)).
  destruct (while_has_more_endless c db Hmore fuel None ([], [])
              (mkWorld (stdin w)
                 (trace w ++ [Print "Fetching all activities from Notion..."])))
    as (t & Hrun & Hlen).
  unfold bind at 1. rewrite Hrun. cbn [stdin trace].
  exists (Print "Fetching all activities from Notion..." :: t). split.
  - now rewrite <- app_assoc.
  - exact Hlen.
Qed.

Lemma endless_fetch_of_five_pages :
  exists t,
    get_all_activities_with_duplicates 5 endless "db" Scenarios.start
    = (Diverge, mkWorld (stdin Scenarios.start) (trace Scenarios.start ++ t))
    /\ List.length (queried t) = 5.
Proof.
  apply (fetch_does_not_end_while_more endless "db" 5 Scenarios.start).
  intros n cursor. exists (mkResponse [Scenarios.evening] true None).
  repeat split.
Defined.

End ResolverExtras.


(** ** More on the session manager *)

Module SessionExtras.
Import GarminSessionAuth SessionSpec SessionMore.

(** *** Session reuse touches neither the file nor the credentials *)

Lemma reuse_load_fails (E : env) (s : state) (f : file) (e : exn) :
  session_file s = Some f -> pickle_load E (contents f) = inl e ->
  _login_with_session E s = (Raise e, logged s [loading]).
Proof.
  intros Hfile Hload. destruct s as [em pw path g sf clk tr].
  cbn [session_file] in Hfile. subst sf.
  unfold _login_with_session, bind, print, emit, modify, read_session_file, lift.
  cbn [self_email self_password self_session_file self_garmin session_file clock trace].
  rewrite Hload. reflexivity.
Qed.

(** X12: session reuse returns or raises without ever writing the session file,
    changing the stored credentials or sending a login request. *)
Theorem reuse_keeps_file_and_credentials
    (E : env) (s : state) (r : outcome Garmin) (s' : state) :
  _login_with_session E s = (r, s') ->
  session_file s' = session_file s
  /\ self_email s' = self_email s /\ self_password s' = self_password s
  /\ r <> Diverge
  /\ exists es, trace s' = (trace s ++ es)%list /\ no_login es.
Proof.
  intros Hrun. destruct (session_file s) as [f|] eqn:Hfile.
  - destruct (pickle_load E (contents f)) as [e|sd] eqn:Hload.
    + rewrite (reuse_load_fails E s f e Hfile Hload) in Hrun. inversion Hrun; subst.
      cbn [session_file self_email self_password trace logged].
      repeat split; try assumption; try discriminate. now exists [loading].
    + rewrite (SessionManager.reuse_run E s f sd Hfile Hload) in Hrun.
      destruct (too_old (session_age s sd)).
      * inversion Hrun; subst.
        cbn [session_file self_email self_password trace logged].
        repeat split; try assumption; try discriminate. now exists [loading].
      * destruct (garth_loads E (session sd)) as [e|].
        -- inversion Hrun; subst.
           cbn [session_file self_email self_password trace logged with_garmin].
           repeat split; try assumption; try discriminate. now exists [loading].
        -- cbv zeta in Hrun.
           destruct (get_full_name E (ncalls (trace s)) (Some (session sd)))
             as [e|name]; inversion Hrun; subst;
             cbn [session_file self_email self_password trace logged with_garmin
                    called];
             repeat split; try assumption; try discriminate.
           ++ exists [loading; Probe (Some (session sd))]. split; [|reflexivity].
              now rewrite <- app_assoc.
           ++ exists [loading; Probe (Some (session sd));
                      session_valid (session_age s sd)].
              split; [|reflexivity]. now rewrite <- !app_assoc.
  - rewrite (SessionManager.reuse_without_session E s Hfile) in Hrun.
    inversion Hrun; subst. cbn [session_file self_email self_password trace logged].
    repeat split; try assumption; try discriminate. now exists [loading].
Qed.

Lemma reuse_at_10_days_keeps_file :
  session_file (snd (_login_with_session fair_weather (with_session_at (10 * day)%Z)))
  = session_file (with_session_at (10 * day)%Z)
  /\ self_email (snd (_login_with_session fair_weather (with_session_at (10 * day)%Z)))
     = self_email (with_session_at (10 * day)%Z)
  /\ self_password (snd (_login_with_session fair_weather
                           (with_session_at (10 * day)%Z)))
     = self_password (with_session_at (10 * day)%Z)
  /\ fst (_login_with_session fair_weather (with_session_at (10 * day)%Z)) <> Diverge
  /\ exists es,
       trace (snd (_login_with_session fair_weather (with_session_at (10 * day)%Z)))
       = (trace (with_session_at (10 * day)%Z) ++ es)%list
       /\ no_login es.
Proof.
  apply (reuse_keeps_file_and_credentials fair_weather (with_session_at (10 * day)%Z)).
  apply surjective_pairing.
Defined.

(** *** A failed probe *)

(** X13: with a stored session that is young enough and loads, a probe that
    raises makes [login] go on to the fresh login, whatever the exception
    is; it is reported as [Session expired or invalid] when it is a
    [GarminConnectAuthenticationError] and with its own text otherwise. *)
Theorem failed_probe_falls_back
    (E : env) (s : state) (f : file) (sd : session_data) (e : exn) :
  session_file s = Some f -> pickle_load E (contents f) = inr sd ->
  (session_age s sd <= timedelta_days 360)%Z ->
  garth_loads E (session sd) = None ->
  get_full_name E (ncalls (trace s)) (Some (session sd)) = inl e ->
  _login_with_session E s = (Raise (probe_error e), probed E s sd)
  /\ login E false s
     = _fresh_login E (logged (probed E s sd) (fallback_lines (probe_error e))).
Proof.
  intros Hfile Hload Hyoung Hloads Hprobe.
  apply SessionManager.not_too_old_iff in Hyoung.
  assert (Hreuse : _login_with_session E s = (Raise (probe_error e), probed E s sd)).
  { rewrite (SessionManager.reuse_run E s f sd Hfile Hload), Hyoung, Hloads.
    cbv zeta. rewrite Hprobe. reflexivity. }
  split; [assumption|].
  rewrite (SessionManager.login_run E s f Hfile), Hreuse. reflexivity.
Qed.

Lemma refused_session_falls_back :
  _login_with_session refused (with_session_at (10 * day)%Z)
  = (Raise (probe_error (mkExn "GarminConnectAuthenticationError" "401 Unauthorized")),
     probed refused (with_session_at (10 * day)%Z) old_session)
  /\ login refused false (with_session_at (10 * day)%Z)
     = _fresh_login refused
         (logged (probed refused (with_session_at (10 * day)%Z) old_session)
            (fallback_lines
               (probe_error
                  (mkExn "GarminConnectAuthenticationError" "401 Unauthorized")))).
Proof.
  apply (failed_probe_falls_back refused (with_session_at (10 * day)%Z) old_file
           old_session).
  - reflexivity.
  - reflexivity.
  - vm_compute. discriminate.
  - reflexivity.
  - reflexivity.
Defined.

(** *** Importing a session *)

(** X16: text that does not decode makes [import_session_from_github] raise the
    error of the decoder before the session file is opened: the file, and
    the rest of the state, are as they were and nothing is printed. *)
Theorem import_rejects_undecodable_text
    (E : env) (text : string) (s : state) (e : exn) :
  Base64.b64decode text = inl e ->
  import_session_from_github E text s = (Raise e, s).
Proof. intros Hbad. rewrite SessionManager.import_run, Hbad. reflexivity. Qed.

Lemma import_of_one_digit_raises :
  import_session_from_github fair_weather "Q" (with_session_at 0%Z)
  = (Raise (mkExn "binascii.Error"
              "Invalid base64-encoded string: number of data characters (1) cannot be 1 more than a multiple of 4"),
     with_session_at 0%Z).
Proof.
  apply (import_rejects_undecodable_text fair_weather "Q" (with_session_at 0%Z)).
  reflexivity.
Defined.

Lemma a2b_outside (c : ascii) :
  outside_alphabet c = true ->
  forall (q : Base64.quad) (pads written : nat) (r : string),
    Base64.a2b_base64 q pads written (String c r) = Base64.a2b_base64 q pads written r.
Proof.
  unfold outside_alphabet. intros Hc q pads written r.
  apply andb_prop in Hc as [Hc _]. apply andb_prop in Hc as [Hpad Hund].
  apply negb_true_iff in Hpad. cbn [Base64.a2b_base64]. rewrite Hpad.
  destruct (Base64.undigit c); [discriminate|reflexivity].
Qed.

Lemma a2b_skip_pads (junk : string) (pads written : nat) :
  skipped junk -> Base64.a2b_base64 Base64.Q0 pads written junk = inr [].
Proof.
  unfold skipped. revert pads. induction junk as [|c r IH]; intros pads Hjunk.
  - reflexivity.
  - cbn [list_ascii_of_string forallb] in Hjunk. apply andb_prop in Hjunk as [Hc Hr].
    rewrite (a2b_outside c Hc). apply IH, Hr.
Qed.

Lemma a2b_encode_then_upto (junk : string) (n : nat) :
  skipped junk ->
  forall (bs : list byte) (pads written : nat),
    List.length bs <= n ->
    Base64.a2b_base64 Base64.Q0 pads written (Base64.b64encode bs ++ junk) = inr bs.
Proof.
  intros Hjunk. induction n as [|n IH]; intros bs pads written Hlen.
  - destruct bs; [apply (a2b_skip_pads junk pads written Hjunk)|simpl in Hlen; lia].
  - destruct bs as [|x [|y [|z rest]]];
      [apply (a2b_skip_pads junk pads written Hjunk)|..];
      cbn [Base64.b64encode].
    + destruct (Byte.to_bits x) as (x0 & x1 & x2 & x3 & x4 & x5 & x6 & x7) eqn:Hx.
      cbn [append]. rewrite !Base64Facts.a2b_digit.
      cbn [Base64.a2b_base64 Base64.quad_pos Nat.leb Nat.add andb].
      rewrite (Base64Facts.byte_of_bits x _ _ _ _ _ _ _ _ Hx). reflexivity.
    + destruct (Byte.to_bits x) as (x0 & x1 & x2 & x3 & x4 & x5 & x6 & x7) eqn:Hx.
      destruct (Byte.to_bits y) as (y0 & y1 & y2 & y3 & y4 & y5 & y6 & y7) eqn:Hy.
      cbn [append]. rewrite !Base64Facts.a2b_digit.
      cbn [Base64.a2b_base64 Base64.quad_pos Nat.leb Nat.add andb].
      rewrite (Base64Facts.byte_of_bits x _ _ _ _ _ _ _ _ Hx),
        (Base64Facts.byte_of_bits y _ _ _ _ _ _ _ _ Hy).
      reflexivity.
    + destruct (Byte.to_bits x) as (x0 & x1 & x2 & x3 & x4 & x5 & x6 & x7) eqn:Hx.
      destruct (Byte.to_bits y) as (y0 & y1 & y2 & y3 & y4 & y5 & y6 & y7) eqn:Hy.
      destruct (Byte.to_bits z) as (z0 & z1 & z2 & z3 & z4 & z5 & z6 & z7) eqn:Hz.
      cbn [append]. rewrite !Base64Facts.a2b_digit. cbv beta iota.
      rewrite (Base64Facts.byte_of_bits x _ _ _ _ _ _ _ _ Hx),
        (Base64Facts.byte_of_bits y _ _ _ _ _ _ _ _ Hy),
        (Base64Facts.byte_of_bits z _ _ _ _ _ _ _ _ Hz).
      rewrite IH by (simpl in Hlen; lia). reflexivity.
Qed.

Lemma is_ascii_text_app (a b : string) :
  Base64.is_ascii_text (a ++ b)
  = Base64.is_ascii_text a && Base64.is_ascii_text b.
Proof.
  unfold Base64.is_ascii_text. induction a as [|c a IH]; [reflexivity|].
  cbn [append list_ascii_of_string forallb]. now rewrite IH, andb_assoc.
Qed.

Lemma skipped_is_ascii (junk : string) :
  skipped junk -> Base64.is_ascii_text junk = true.
Proof.
  unfold skipped, Base64.is_ascii_text. induction junk as [|c r IH]; [reflexivity|].
  cbn [list_ascii_of_string forallb]. intros Hjunk.
  apply andb_prop in Hjunk as [Hc Hr]. unfold outside_alphabet in Hc.
  apply andb_prop in Hc as [_ Hc]. now rewrite Hc, (IH Hr).
Qed.

Lemma b64decode_encode_then (bs : list byte) (junk : string) :
  skipped junk -> Base64.b64decode (Base64.b64encode bs ++ junk) = inr bs.
Proof.
  intros Hjunk. unfold Base64.b64decode.
  rewrite is_ascii_text_app,
    (Base64Facts.encode_is_ascii_upto (List.length bs) bs (Nat.le_refl _)),
    (skipped_is_ascii junk Hjunk).
  cbn [andb]. apply (a2b_encode_then_upto junk (List.length bs) Hjunk). apply Nat.le_refl.
Qed.

(** X17: characters after the exported text that are neither digits of the
    alphabet nor pads (a line end, blanks) do not change what the import
    writes: on a disk that can be written, the session file holds the
    exported bytes, readable and writable by the owner only. *)
Theorem import_ignores_trailing_whitespace
    (E : env) (s : state) (bs : list byte) (junk : string) :
  skipped junk -> open_error E = None -> chmod_error E = None ->
  import_session_from_github E (Base64.b64encode bs ++ junk) s
  = (Ret tt, imported s bs).
Proof.
  intros Hjunk Hopen Hchmod.
  rewrite SessionManager.import_run, (b64decode_encode_then bs junk Hjunk), Hopen,
    Hchmod.
  reflexivity.
Qed.

Lemma import_with_line_end :
  import_session_from_github fair_weather
    (Base64.b64encode token_bytes ++ Py.nl) blank
  = (Ret tt, imported blank token_bytes).
Proof.
  apply (import_ignores_trailing_whitespace fair_weather blank token_bytes Py.nl);
    reflexivity.
Defined.

(** *** The exported text *)

Lemma encode_length_upto (n : nat) :
  forall bs : list byte,
    List.length bs <= n ->
    String.length (Base64.b64encode bs) = 4 * ((List.length bs + 2) / 3).
Proof.
  induction n as [|n IH]; intros bs Hlen.
  - destruct bs; [reflexivity|simpl in Hlen; lia].
  - destruct bs as [|x [|y [|z rest]]]; [reflexivity|..]; cbn [Base64.b64encode].
    + destruct (Byte.to_bits x) as (x0 & x1 & x2 & x3 & x4 & x5 & x6 & x7).
      reflexivity.
    + destruct (Byte.to_bits x) as (x0 & x1 & x2 & x3 & x4 & x5 & x6 & x7).
      destruct (Byte.to_bits y) as (y0 & y1 & y2 & y3 & y4 & y5 & y6 & y7).
      reflexivity.
    + destruct (Byte.to_bits x) as (x0 & x1 & x2 & x3 & x4 & x5 & x6 & x7).
      destruct (Byte.to_bits y) as (y0 & y1 & y2 & y3 & y4 & y5 & y6 & y7).
      destruct (Byte.to_bits z) as (z0 & z1 & z2 & z3 & z4 & z5 & z6 & z7).
      cbn [String.length List.length]. rewrite IH by (simpl in Hlen; lia).
      replace (S (S (S (List.length rest))) + 2)
        with (1 * 3 + (List.length rest + 2)) by lia.
      rewrite Nat.div_add_l by lia. lia.
Qed.

Lemma digit_is_base64 (d : Base64.sextet) : base64_char (Base64.digit d) = true.
Proof. unfold base64_char. rewrite Base64Facts.undigit_digit. apply orb_true_r. Qed.

Lemma encode_is_base64_upto (n : nat) :
  forall bs : list byte, List.length bs <= n -> base64_text (Base64.b64encode bs) = true.
Proof.
  unfold base64_text.
  induction n as [|n IH]; intros bs Hlen.
  - destruct bs; [reflexivity|simpl in Hlen; lia].
  - destruct bs as [|x [|y [|z rest]]]; [reflexivity|..]; cbn [Base64.b64encode].
    + destruct (Byte.to_bits x) as (x0 & x1 & x2 & x3 & x4 & x5 & x6 & x7).
      cbn [list_ascii_of_string forallb]. rewrite !digit_is_base64. reflexivity.
    + destruct (Byte.to_bits x) as (x0 & x1 & x2 & x3 & x4 & x5 & x6 & x7).
      destruct (Byte.to_bits y) as (y0 & y1 & y2 & y3 & y4 & y5 & y6 & y7).
      cbn [list_ascii_of_string forallb]. rewrite !digit_is_base64. reflexivity.
    + destruct (Byte.to_bits x) as (x0 & x1 & x2 & x3 & x4 & x5 & x6 & x7).
      destruct (Byte.to_bits y) as (y0 & y1 & y2 & y3 & y4 & y5 & y6 & y7).
      destruct (Byte.to_bits z) as (z0 & z1 & z2 & z3 & z4 & z5 & z6 & z7).
      cbn [list_ascii_of_string forallb]. rewrite !digit_is_base64.
      rewrite IH by (simpl in Hlen; lia). reflexivity.
Qed.

(** X18: the text [export_session_for_github] returns for a session file of
    [n] bytes has [4 * ceil(n / 3)] characters, each a digit of the base64
    alphabet or the pad, so it is plain ASCII on one line; the export
    leaves the file as it is. *)
Theorem exported_text_is_base64 (s : state) (f : file) :
  session_file s = Some f ->
  exists text s',
    export_session_for_github s = (Ret text, s')
    /\ String.length text = 4 * ((List.length (contents f) + 2) / 3)
    /\ base64_text text = true
    /\ Base64.is_ascii_text text = true
    /\ session_file s' = Some f.
Proof.
  intros Hfile. exists (Base64.b64encode (contents f)).
  exists (logged s (export_lines (Base64.b64encode (contents f)))).
  split; [apply (SessionManager.export_run s f Hfile)|].
  split; [apply (encode_length_upto (List.length (contents f))), Nat.le_refl|].
  split; [apply (encode_is_base64_upto (List.length (contents f))), Nat.le_refl|].
  split; [apply (Base64Facts.encode_is_ascii_upto (List.length (contents f))),
            Nat.le_refl|].
  exact Hfile.
Qed.

Lemma exported_old_file_is_base64 :
  exists text s',
    export_session_for_github (with_session_at 0%Z) = (Ret text, s')
    /\ String.length text = 4 * ((List.length (contents old_file) + 2) / 3)
    /\ base64_text text = true
    /\ Base64.is_ascii_text text = true
    /\ session_file s' = Some old_file.
Proof.
  apply (exported_text_is_base64 (with_session_at 0%Z) old_file). reflexivity.
Defined.

(** *** The convenience function *)

Lemma decode_of_empty : Base64.b64decode "" = inr [].
Proof. reflexivity. Qed.

(** X19: a [GARMIN_SESSION] that does not decode makes [get_garmin_client]
    raise the error of the decoder after one printed line: no login is
    tried, with the session or with credentials, nothing is sent to the
    server, and a session file that was there is left as it was. *)
Theorem malformed_secret_stops_the_client
    (E : env) (f : option file) (now : datetime) (history : list event)
    (text : string) (e : exn) :
  getenv E "GARMIN_SESSION" = Some text ->
  Base64.b64decode text = inl e ->
  get_garmin_client E f now history
  = (Raise e, logged (default_auth E f now history) [using_secret]).
Proof.
  intros Henv Hbad. unfold get_garmin_client. cbv zeta. rewrite Henv.
  assert (Htruthy : Py.truthy (Some text) = true).
  { destruct text; [rewrite decode_of_empty in Hbad; discriminate|reflexivity]. }
  rewrite Htruthy.
  change (init E None None ".garmin_session" f now history)
    with (default_auth E f now history).
  rewrite (bind_run _ _ _ _ _ (SessionManager.print_run _ _)).
  unfold bind at 1.
  rewrite SessionManager.import_run, Hbad. reflexivity.
Qed.

Lemma one_digit_secret_stops_the_client :
  get_garmin_client (with_secret fair_weather "Q") (Some old_file) 0%Z []
  = (Raise (mkExn "binascii.Error"
              "Invalid base64-encoded string: number of data characters (1) cannot be 1 more than a multiple of 4"),
     logged (default_auth (with_secret fair_weather "Q") (Some old_file) 0%Z [])
       [using_secret]).
Proof.
  apply (malformed_secret_stops_the_client (with_secret fair_weather "Q")
           (Some old_file) 0%Z [] "Q"); reflexivity.
Defined.

Lemma encode_truthy (bs : list byte) :
  bs <> [] -> Py.truthy (Some (Base64.b64encode bs)) = true.
Proof.
  intros Hne. destruct bs as [|x [|y [|z rest]]]; [contradiction|..];
    cbn [Base64.b64encode].
  - destruct (Byte.to_bits x) as (x0 & x1 & x2 & x3 & x4 & x5 & x6 & x7).
    reflexivity.
  - destruct (Byte.to_bits x) as (x0 & x1 & x2 & x3 & x4 & x5 & x6 & x7).
    destruct (Byte.to_bits y) as (y0 & y1 & y2 & y3 & y4 & y5 & y6 & y7).
    reflexivity.
  - destruct (Byte.to_bits x) as (x0 & x1 & x2 & x3 & x4 & x5 & x6 & x7).
    destruct (Byte.to_bits y) as (y0 & y1 & y2 & y3 & y4 & y5 & y6 & y7).
    destruct (Byte.to_bits z) as (z0 & z1 & z2 & z3 & z4 & z5 & z6 & z7).
    reflexivity.
Qed.

(** X20: with the exported text of a session in [GARMIN_SESSION], a disk that
    can be written, a session not older than 360 days whose tokens load
    and a probe that is answered, [get_garmin_client] returns the client
    restored from that session: the session file now holds the exported
    bytes, whatever it held before, and no login with credentials is sent,
    so the credentials need not be set. *)
Theorem injected_session_is_used
    (E : env) (f : option file) (now : datetime) (history : list event)
    (bs : list byte) (sd : session_data) (name : string) :
  bs <> [] ->
  getenv E "GARMIN_SESSION" = Some (Base64.b64encode bs) ->
  open_error E = None -> chmod_error E = None ->
  pickle_load E bs = inr sd ->
  (now - timestamp sd <= timedelta_days 360)%Z ->
  garth_loads E (session sd) = None ->
  get_full_name E (ncalls history) (Some (session sd)) = inr name ->
  exists s',
    get_garmin_client E f now history = (Ret (restored sd), s')
    /\ session_file s' = Some (mkFile bs owner_read_write)
    /\ exists es, trace s' = (history ++ es)%list /\ no_login es.
Proof.
  intros Hne Henv Hopen Hchmod Hload Hage Hloads Hprobe.
  unfold get_garmin_client. cbv zeta. rewrite Henv, (encode_truthy bs Hne).
  change (init E None None ".garmin_session" f now history)
    with (default_auth E f now history).
  set (auth := default_auth E f now history).
  rewrite (bind_run _ _ _ _ _ (SessionManager.print_run _ auth)).
  assert (Himport :
    import_session_from_github E (Base64.b64encode bs) (logged auth [using_secret])
    = (Ret tt, imported (logged auth [using_secret]) bs)).
  { rewrite SessionManager.import_run, Base64Facts.b64decode_b64encode, Hopen, Hchmod.
    reflexivity. }
  rewrite (bind_run _ _ _ _ _ Himport).
  set (s2 := imported (logged auth [using_secret]) bs).
  assert (Hfile : session_file s2 = Some (mkFile bs owner_read_write)) by reflexivity.
  assert (Hcalls : ncalls (trace s2) = ncalls history).
  { unfold s2, imported, auth, default_auth, init.
    cbn [trace logged with_file]. unfold using_secret.
    now rewrite !SessionManager.ncalls_print. }
  assert (Hyoung : too_old (session_age s2 sd) = false).
  { apply SessionManager.not_too_old_iff. exact Hage. }
  rewrite (SessionManager.login_run E s2 _ Hfile).
  rewrite (SessionManager.reuse_run E s2 _ sd Hfile Hload), Hyoung, Hloads.
  cbv zeta. rewrite Hcalls, Hprobe.
  eexists. split; [reflexivity|]. split; [reflexivity|].
  exists [using_secret;
          Print ("Session imported to " ++ self_session_file auth);
          loading; Probe (Some (session sd)); session_valid (session_age s2 sd)].
  split; [|reflexivity].
  unfold s2, imported, auth, default_auth, init.
  cbn [trace logged with_file with_garmin called self_session_file].
  rewrite <- !app_assoc. reflexivity.
Qed.

Lemma secret_of_old_file_is_used :
  exists s',
    get_garmin_client (with_secret fair_weather (Base64.b64encode token_bytes))
      None (10 * day)%Z []
    = (Ret (restored old_session), s')
    /\ session_file s' = Some (mkFile token_bytes owner_read_write)
    /\ exists es, trace s' = ([] ++ es)%list /\ no_login es.
Proof.
  apply (injected_session_is_used
           (with_secret fair_weather (Base64.b64encode token_bytes))
           None (10 * day)%Z [] token_bytes old_session "Full Name").
  - discriminate.
  - reflexivity.
  - reflexivity.
  - reflexivity.
  - reflexivity.
  - vm_compute. discriminate.
  - reflexivity.
  - reflexivity.
Defined.

End SessionExtras.
